(** * A shallow embedding of the dual-state tree scene

    The scene morphs a foliage point cloud, a set of ornaments and a ring of
    photo frames between a scattered layout (CHAOS) and a tree layout
    (FORMED).  This development embeds the host-side TypeScript and the
    easing function of the vertex shader, and states the properties of the
    transition engine over that embedding.

    Numbers.  A JavaScript [number] is modelled as a real number ([R]): the
    arithmetic is exact, rounding and the non-finite values of IEEE doubles
    are outside the model.  Counters, list lengths and indices, which the
    code keeps integral, are modelled as [Z] (with [Z.rem] for [%]) or
    [nat] (loop indices).  The rounding of the code is kept where a
    property depends on it: the stores into the [Float32Array]s of the
    snow round to binary32, and the ranges of the foliage attributes are
    those of the numbers held after such a store ([Float32]); the progress
    update of the foliage is also given in IEEE double precision
    ([Binary64]), where it is not monotone.

    Randomness.  [Math.random()] is modelled by an explicit source: the
    sequence of the values the successive calls return. *)

From Stdlib Require Import Reals Lra Lia ZArith List String Bool.
From Stdlib Require PrimFloat.
From stdpp Require Import list.

#[local] Open Scope R_scope.

(** ** JavaScript and GLSL numeric primitives *)

Module JS.

(** [Math.min] on two numbers. *)
Definition min (a b : R) : R := Rmin a b.

(** [Math.cbrt]: the real cube root. *)
Definition cbrt (x : R) : R :=
  if Rlt_dec 0 x then Rpower x (/ 3)
  else if Rlt_dec x 0 then - Rpower (- x) (/ 3)
  else 0.

(** [Math.floor], an integer. *)
Definition floor (x : R) : Z := Zfloor x.

(** The source of [Math.random()]: [src k] is the value of the [k]-th
    coming call. *)
Definition RandomSource := nat -> R.

(** What the language guarantees of [Math.random()]: a value in [0, 1). *)
Definition in_unit (src : RandomSource) : Prop :=
  forall k, 0 <= src k < 1.

(** Computations that draw from the source. *)
Definition Rand (A : Type) : Type := RandomSource -> A * RandomSource.

Definition ret {A} (a : A) : Rand A := fun src => (a, src).

Definition bind {A B} (m : Rand A) (f : A -> Rand B) : Rand B :=
  fun src => let (a, src') := m src in f a src'.

Definition random : Rand R :=
  fun src => (src 0%nat, fun k => src (S k)).

(** [for (let i = 0; i < n; i++) body(i)] over a loop state [S]. *)
Fixpoint for_range {S} (n : nat) (body : nat -> S -> Rand S) (s : S) : Rand S :=
  match n with
  | O => ret s
  | Datatypes.S i => bind (for_range i body s) (body i)
  end.

(** A computation advances the source when all it does to it is to
    consume some of its values. *)
Definition advances {A} (m : Rand A) : Prop :=
  forall src, exists n : nat, forall k, snd (m src) k = src (n + k)%nat.

(** The same loop for a body that draws nothing. *)
Fixpoint for_each {S} (n : nat) (body : nat -> S -> S) (s : S) : S :=
  match n with
  | O => s
  | Datatypes.S i => body i (for_each i body s)
  end.

End JS.

Notation "'draw' x <- m ; k" := (JS.bind m (fun x => k))
  (at level 10, x name, m at level 100, k at level 200, only parsing).

(** ** Typed arrays *)

Module Float32.

(** A [Float32Array] holds binary32 numbers: a store rounds the number to
    the nearest of them ([Math.fround]), a read gives the number held.  The
    rounding comes with what the development uses of it: it is monotone,
    and it keeps the integers of magnitude at most 2^24 and the number
    1/2, which are binary32 numbers. *)
Record Rounding := mkRounding {
  fround : R -> R;
  fround_monotone : forall x y : R, x <= y -> fround x <= fround y;
  fround_integer : forall z : Z, (Z.abs z <= 16777216)%Z -> fround (IZR z) = IZR z;
  fround_half : fround (1 / 2) = 1 / 2
}.

(** The rounding that keeps every number: the arrays of the exact model. *)
Definition exact : Rounding :=
  mkRounding (fun x => x) (fun x y H => H) (fun z _ => eq_refl) eq_refl.

(** [arr[i] = v] on a [Float32Array]. *)
Definition store (fr : Rounding) (i : nat) (v : R) (arr : list R) : list R :=
  <[i := fround fr v]> arr.

(** What a [Float32Array] holds after stores of the numbers [arr], none of
    which was read back in between. *)
Definition held (fr : Rounding) (arr : list R) : list R :=
  fround fr <$> arr.

End Float32.

(** The GLSL built-in [pow(x, y)]: the result is undefined when [x < 0],
    and when [x = 0] and [y <= 0]. *)
Module GLSL.

Definition pow (x y : R) : option R :=
  if Rlt_dec x 0 then None
  else if Rlt_dec 0 x then Some (Rpower x y)
  else if Rle_dec y 0 then None
  else Some 0.

End GLSL.

(** ** The part of three.js the scene uses *)

Module THREE.

(** [THREE.MathUtils.lerp(x, y, t)] is [(1 - t) * x + t * y]. *)
Definition lerp (x y t : R) : R := (1 - t) * x + t * y.

Record Vector3 := mkVector3 { vx : R; vy : R; vz : R }.

Record Euler := mkEuler { ex : R; ey : R; ez : R }.

Record Quaternion := mkQuaternion { qx : R; qy : R; qz : R; qw : R }.

(** The methods mutate [this] and return it; here they return the new
    value of [this]. *)
Module Vec.
Definition set (this : Vector3) (x y z : R) : Vector3 := mkVector3 x y z.
Definition copy (this v : Vector3) : Vector3 := mkVector3 (vx v) (vy v) (vz v).
Definition clone (this : Vector3) : Vector3 := mkVector3 (vx this) (vy this) (vz this).
Definition add (this v : Vector3) : Vector3 :=
  mkVector3 (vx this + vx v) (vy this + vy v) (vz this + vz v).
Definition sub (this v : Vector3) : Vector3 :=
  mkVector3 (vx this - vx v) (vy this - vy v) (vz this - vz v).
Definition multiplyScalar (this : Vector3) (s : R) : Vector3 :=
  mkVector3 (vx this * s) (vy this * s) (vz this * s).
Definition setScalar (this : Vector3) (s : R) : Vector3 := mkVector3 s s s.
(** [this.x += (v.x - this.x) * alpha], and so on. *)
Definition lerp (this v : Vector3) (alpha : R) : Vector3 :=
  mkVector3 (vx this + (vx v - vx this) * alpha)
            (vy this + (vy v - vy this) * alpha)
            (vz this + (vz v - vz this) * alpha).
Definition set_y (this : Vector3) (y : R) : Vector3 := mkVector3 (vx this) y (vz this).
End Vec.

(** The transform of an [Object3D] that is oriented by its Euler angles. *)
Record Object3D := mkObject3D { position : Vector3; rotation : Euler; scale : Vector3 }.


End THREE.

(** ** types.ts *)

Module Types.

Inductive TreeState := CHAOS | FORMED.

Definition TreeState_eqb (a b : TreeState) : bool :=
  match a, b with
  | CHAOS, CHAOS | FORMED, FORMED => true
  | _, _ => false
  end.

Record DualPosition := mkDualPosition {
  chaos : THREE.Vector3;
  target : THREE.Vector3;
  rotationChaos : THREE.Euler;
  rotationTarget : THREE.Euler
}.

Module CONFIG.
Definition treeHeight : R := 14.
Definition treeRadius : R := 5.
Definition particleCount : nat := 8000.
End CONFIG.

End Types.

(** ** TreeParticles: the foliage cloud *)

Module TreeParticles.
Import JS THREE Types.

(** The vertex shader's [easeOutCubic]. *)
Definition easeOutCubic (x : R) : option R :=
  match GLSL.pow (1 - x) 3 with
  | Some p => Some (1 - p)
  | None => None
  end.

(** The uniforms of [FoliageMaterial] that the host writes. *)
Record FoliageMaterial := mkFoliageMaterial { uTime : R; uProgress : R }.

(** The constructor's uniforms. *)
Definition newFoliageMaterial : FoliageMaterial := mkFoliageMaterial 0 0.

(** The four typed arrays of the geometry. *)
Record Geometry := mkGeometry {
  positions : list R;
  targets : list R;
  scales : list R;
  randoms : list R
}.

(** [arr.set([x, y, z], off)]. *)
Definition set3 (arr : list R) (off : nat) (x y z : R) : list R :=
  <[(off + 2)%nat := z]> (<[(off + 1)%nat := y]> (<[off := x]> arr)).

(** One turn of the generation loop. *)
Definition genParticle (i : nat) (g : Geometry) : Rand Geometry :=
  draw u1 <- random;
  let r := cbrt u1 * 15 in
  draw u2 <- random;
  let theta := u2 * PI * 2 in
  draw u3 <- random;
  let phi := acos (2 * u3 - 1) in
  let cx := r * sin phi * cos theta in
  let cy := r * sin phi * sin theta + 7 in
  let cz := r * cos phi in
  let positions := set3 (positions g) (i * 3) cx cy cz in
  let h := CONFIG.treeHeight in
  draw u4 <- random;
  let y := u4 * h in
  let levelRadius := (1 - y / h) * CONFIG.treeRadius in
  let spiralAngle := INR i * 2.39996 in
  let tx := levelRadius * cos spiralAngle in
  let ty := y in
  let tz := levelRadius * sin spiralAngle in
  let targets := set3 (targets g) (i * 3) tx ty tz in
  draw u5 <- random;
  let scales := <[i := u5 * 0.5 + 0.5]> (scales g) in
  draw u6 <- random;
  let randoms := <[i := u6]> (randoms g) in
  ret (mkGeometry positions targets scales randoms).

(** The memoised geometry data for [count] particles. *)
Definition genGeometry (count : nat) : Rand Geometry :=
  let g := mkGeometry (replicate (count * 3) 0) (replicate (count * 3) 0)
                      (replicate count 0) (replicate count 0) in
  for_range count genParticle g.

(** The [useFrame] callback: [materialRef] is the ref's current value,
    [elapsedTime] is [state.clock.elapsedTime]. *)
Definition useFrame (isFormed : bool) (elapsedTime delta : R)
    (materialRef : option FoliageMaterial) : option FoliageMaterial :=
  match materialRef with
  | Some m =>
      let m := mkFoliageMaterial elapsedTime (uProgress m) in
      let targetProgress := if isFormed then 1 else 0 in
      Some (mkFoliageMaterial (uTime m)
              (lerp (uProgress m) targetProgress (delta * 1.5)))
  | None => None
  end.

(** A rendered frame as the callback sees it. *)
Record Frame := mkFrame { isFormed : bool; elapsedTime : R; delta : R }.

Definition frame (f : Frame) : option FoliageMaterial -> option FoliageMaterial :=
  useFrame (isFormed f) (elapsedTime f) (delta f).

(** The frames of a session, in order. *)
Definition frames (fs : list Frame) (m : option FoliageMaterial) : option FoliageMaterial :=
  fold_left (fun m f => frame f m) fs m.

End TreeParticles.

(** ** The progress update in double precision *)

Module Binary64.
Import PrimFloat.

(** [THREE.MathUtils.lerp(x, y, t)], [(1 - t) * x + t * y], on IEEE
    doubles: each operation rounds to nearest. *)
Definition lerp (x y t : float) : float := ((1 - t) * x + t * y)%float.

(** The progress that the [useFrame] callback of [TreeParticles] writes,
    from the progress [uProgress] of the material. *)
Definition useFrame (isFormed : bool) (delta : float) (uProgress : float) : float :=
  let targetProgress := if isFormed then 1%float else 0%float in
  lerp uProgress targetProgress (delta * 1.5)%float.

(** [n] frames of the same mode and duration. *)
Definition frames (isFormed : bool) (delta : float) (n : nat) (uProgress : float) : float :=
  Nat.iter n (useFrame isFormed delta) uProgress.

(** A frame of 100 ms and a frame of 36 ms: the doubles that the literals
    [0.1] and [0.036] denote. *)
Definition delta_100ms : float := 0x1.999999999999ap-4%float.
Definition delta_36ms : float := 0x1.26e978d4fdf3bp-5%float.

(** The frames whose interpolation factor [delta * 1.5] is at most 1, and
    the progress values in [0, 1]. *)
Definition short_frame (delta : float) : bool :=
  ((0 <=? delta) && (delta * 1.5 <=? 1))%float.

Definition in_unit (uProgress : float) : bool :=
  ((0 <=? uProgress) && (uProgress <=? 1))%float.

(** The doubles printed [0.99999999999999967] and [0.99999999999999956],
    three and four units in the last place below 1. *)
Definition three_ulps_below_one : float := 0x1.ffffffffffffdp-1%float.
Definition four_ulps_below_one : float := 0x1.ffffffffffffcp-1%float.

End Binary64.

(** ** Ornaments: the spring-driven instanced meshes *)

Module Ornaments.
Import JS THREE Types.

Inductive OrnamentType := inner | outer | scatter.

Record Item := mkItem {
  chaosPos : Vector3;
  targetPos : Vector3;
  currentPos : Vector3;
  velocity : Vector3;
  rotation : Euler;
  rotVelocity : Vector3;
  mass : R;
  phase : R
}.

(** One turn of the loop of [usePhysicsOrnaments]: the record pushed. *)
Definition genOrnament (type : OrnamentType) : Rand Item :=
  draw u1 <- random;
  let r := cbrt u1 * 18 + 5 in
  draw u2 <- random;
  let theta := u2 * PI * 2 in
  draw u3 <- random;
  let phi := acos (2 * u3 - 1) in
  let cx := r * sin phi * cos theta in
  let cy := r * sin phi * sin theta in
  let cz := r * cos phi in
  let h := CONFIG.treeHeight in
  draw u4 <- random;
  let y := u4 * h * 0.9 in
  let levelRadius := (1 - y / h) * CONFIG.treeRadius in
  draw levelRadius <-
    (match type with
     | inner => draw u <- random; ret (levelRadius * (0.5 + u * 0.3))
     | _ => ret levelRadius
     end);
  draw levelRadius <-
    (match type with
     | outer => draw u <- random; ret (levelRadius * (0.9 + u * 0.2))
     | _ => ret levelRadius
     end);
  draw u5 <- random;
  let angle := u5 * PI * 2 in
  let tx := levelRadius * cos angle in
  let ty := y in
  let tz := levelRadius * sin angle in
  draw r1 <- random;
  draw r2 <- random;
  draw r3 <- random;
  let rot := mkEuler (r1 * PI) (r2 * PI) (r3 * PI) in
  draw v1 <- random;
  draw v2 <- random;
  draw v3 <- random;
  draw m <- random;
  draw p <- random;
  ret {| chaosPos := mkVector3 cx cy cz;
         targetPos := mkVector3 tx ty tz;
         currentPos := mkVector3 tx ty tz;
         velocity := mkVector3 0 0 0;
         rotation := rot;
         rotVelocity := mkVector3 ((v1 - 0.5) * 0.2) ((v2 - 0.5) * 0.2) ((v3 - 0.5) * 0.2);
         mass := 0.5 + m * 1.5;
         phase := p * PI * 2 |}.

Definition usePhysicsOrnaments (count : nat) (type : OrnamentType) : Rand (list Item) :=
  for_range count
    (fun _ data => draw item <- genOrnament type; ret (data ++ [item])) [].

(** An instanced mesh: the transform written for each instance.  The
    matrix that [updateMatrix] composes is kept as the position, rotation
    and scale it is composed from. *)
Record InstancedMesh := mkInstancedMesh {
  instanceMatrix : list Object3D;
  needsUpdate : bool
}.

Definition setMatrixAt (mesh : InstancedMesh) (i : nat) (m : Object3D) : InstancedMesh :=
  mkInstancedMesh (<[i := m]> (instanceMatrix mesh)) (needsUpdate mesh).

(** What one call of [updatePhysics] reads and writes: the batch, its
    mesh, and the two scratch objects shared by all calls. *)
Record Batch := mkBatch {
  items : list Item;
  mesh : InstancedMesh;
  tempVec : Vector3;
  tempObj : Object3D
}.

Section Frame.
(** The closure of the [useFrame] callback. *)
Variables (isFormed : bool) (dt time : R).

(** The body of the loop of [updatePhysics] on [items[i]]. *)
Definition updateItem (scaleBase stiffness damping noiseStrength : R)
    (orientToUp : bool) (i : nat) (item : Item) (tempVec : Vector3)
    (tempObj : Object3D) : Item * Vector3 * Object3D :=
  let dest := if isFormed then targetPos item else chaosPos item in
  (* Spring Force *)
  let tempVec :=
    Vec.multiplyScalar (Vec.sub (Vec.copy tempVec dest) (currentPos item))
                       (stiffness / mass item) in
  let velocity1 := Vec.add (velocity item) tempVec in
  (* Chaos Noise *)
  let velocity2 :=
    if negb isFormed then
      let noiseX := sin (time * 0.5 + phase item) * noiseStrength in
      let noiseY := cos (time * 0.3 + phase item * 2) * noiseStrength in
      let noiseZ := sin (time * 0.7 + phase item * 0.5) * noiseStrength in
      Vec.add velocity1 (mkVector3 noiseX noiseY noiseZ)
    else velocity1 in
  (* Damping *)
  let velocity3 := Vec.multiplyScalar velocity2 damping in
  (* Update Position *)
  let currentPos1 :=
    Vec.add (currentPos item)
            (Vec.multiplyScalar (Vec.clone velocity3) (dt * 60)) in
  (* Update Rotation *)
  let rotation1 :=
    if negb isFormed then
      mkEuler (ex (rotation item) + vx (rotVelocity item))
              (ey (rotation item) + vy (rotVelocity item))
              (ez (rotation item) + vz (rotVelocity item))
    else
      mkEuler (ex (rotation item)) (ey (rotation item) + 0.01) (ez (rotation item)) in
  let position' := Vec.copy (position tempObj) currentPos1 in
  let rotation' :=
    if orientToUp && isFormed then mkEuler PI 0 0
    else mkEuler (ex rotation1) (ey rotation1) (ez rotation1) in
  let s := scaleBase + sin (time + INR i) * 0.05 in
  let scale' := Vec.setScalar (scale tempObj) s in
  ({| chaosPos := chaosPos item;
      targetPos := targetPos item;
      currentPos := currentPos1;
      velocity := velocity3;
      rotation := rotation1;
      rotVelocity := rotVelocity item;
      mass := mass item;
      phase := phase item |},
   tempVec,
   mkObject3D position' rotation' scale').

(** The item that the loop body leaves at index [i]: the scratch
    objects it is given are overwritten before they are read. *)
Definition updated (scaleBase stiffness damping noiseStrength : R)
    (orientToUp : bool) (i : nat) (item : Item) : Item :=
  fst (fst (updateItem scaleBase stiffness damping noiseStrength orientToUp
              i item (mkVector3 0 0 0)
              (mkObject3D (mkVector3 0 0 0) (mkEuler 0 0 0) (mkVector3 0 0 0)))).

Definition updatePhysics_body (scaleBase stiffness damping noiseStrength : R)
    (orientToUp : bool) (i : nat) (b : Batch) : Batch :=
  match items b !! i with
  | Some item =>
      let '(item', tempVec', tempObj') :=
        updateItem scaleBase stiffness damping noiseStrength orientToUp
                   i item (tempVec b) (tempObj b) in
      mkBatch (<[i := item']> (items b))
              (setMatrixAt (mesh b) i tempObj')
              tempVec' tempObj'
  | None => b
  end.

(** [updatePhysics(items, mesh, scaleBase, stiffness, damping,
    noiseStrength, orientToUp)]. *)
Definition updatePhysics (b : Batch)
    (scaleBase stiffness damping noiseStrength : R) (orientToUp : bool) : Batch :=
  let b := for_each (length (items b))
             (updatePhysics_body scaleBase stiffness damping noiseStrength orientToUp) b in
  mkBatch (items b)
          (mkInstancedMesh (instanceMatrix (mesh b)) true)
          (tempVec b) (tempObj b).

End Frame.

(** The component's data: the five batches, the refs of their meshes and
    the two scratch objects. *)
Record State := mkState {
  balls : list Item;       ballMesh : option InstancedMesh;
  boxes : list Item;       boxMesh : option InstancedMesh;
  diamonds : list Item;    diamondMesh : option InstancedMesh;
  rings : list Item;       ringMesh : option InstancedMesh;
  icicles : list Item;     icicleMesh : option InstancedMesh;
  scratchVec : Vector3;
  scratchObj : Object3D
}.

(** The constants of the five calls of [updatePhysics]. *)
Record Constants := mkConstants {
  scaleBase : R; stiffness : R; damping : R; noiseStrength : R; orientToUp : bool
}.

Definition ballConstants := mkConstants 1.0 0.05 0.92 0.02 false.
Definition boxConstants := mkConstants 0.6 0.04 0.90 0.03 false.
Definition diamondConstants := mkConstants 0.5 0.06 0.94 0.04 false.
Definition ringConstants := mkConstants 0.4 0.05 0.93 0.02 false.
Definition icicleConstants := mkConstants 0.5 0.05 0.93 0.02 true.

(** The five batches. *)
Inductive Kind := Ball | Box | Diamond | Ring | Icicle.

Definition constantsOf (k : Kind) : Constants :=
  match k with
  | Ball => ballConstants
  | Box => boxConstants
  | Diamond => diamondConstants
  | Ring => ringConstants
  | Icicle => icicleConstants
  end.

Definition itemsOf (k : Kind) (st : State) : list Item :=
  match k with
  | Ball => balls st
  | Box => boxes st
  | Diamond => diamonds st
  | Ring => rings st
  | Icicle => icicles st
  end.

Definition meshOf (k : Kind) (st : State) : option InstancedMesh :=
  match k with
  | Ball => ballMesh st
  | Box => boxMesh st
  | Diamond => diamondMesh st
  | Ring => ringMesh st
  | Icicle => icicleMesh st
  end.

(** [if (ref.current) updatePhysics(items, ref.current, ...)]. *)
Definition updateBatch (isFormed : bool) (dt time : R) (c : Constants)
    (its : list Item) (ref : option InstancedMesh) (tv : Vector3) (to : Object3D)
    : list Item * option InstancedMesh * Vector3 * Object3D :=
  match ref with
  | Some m =>
      let b := updatePhysics isFormed dt time (mkBatch its m tv to)
                 (scaleBase c) (stiffness c) (damping c) (noiseStrength c)
                 (orientToUp c) in
      (items b, Some (mesh b), tempVec b, tempObj b)
  | None => (its, ref, tv, to)
  end.

(** The [useFrame] callback, up to the instance colours, which it sets
    once and which no position depends on. *)
Definition useFrame (isFormed : bool) (elapsedTime delta : R) (st : State) : State :=
  let dt := JS.min delta 0.1 in
  let time := elapsedTime in
  let '(balls', ballMesh', tv, to) :=
    updateBatch isFormed dt time ballConstants
      (balls st) (ballMesh st) (scratchVec st) (scratchObj st) in
  let '(boxes', boxMesh', tv, to) :=
    updateBatch isFormed dt time boxConstants (boxes st) (boxMesh st) tv to in
  let '(diamonds', diamondMesh', tv, to) :=
    updateBatch isFormed dt time diamondConstants (diamonds st) (diamondMesh st) tv to in
  let '(rings', ringMesh', tv, to) :=
    updateBatch isFormed dt time ringConstants (rings st) (ringMesh st) tv to in
  let '(icicles', icicleMesh', tv, to) :=
    updateBatch isFormed dt time icicleConstants (icicles st) (icicleMesh st) tv to in
  mkState balls' ballMesh' boxes' boxMesh' diamonds' diamondMesh'
          rings' ringMesh' icicles' icicleMesh' tv to.

End Ornaments.

(** ** Photos: the photo frames *)

Module Photos.
Import JS THREE Types.

Record Camera := mkCamera {
  camera_position : Vector3;
  camera_quaternion : Quaternion
}.

(** The group a [PhotoItem] renders, oriented by its quaternion. *)
Record Group := mkGroup {
  position : Vector3;
  quaternion : Quaternion;
  scale : Vector3
}.

Record PhotoItemProps := mkPhotoItemProps {
  data : DualPosition;
  isFormed : bool;
  index : Z;
  url : option string;
  isFeatured : bool
}.

(** What a [PhotoItem] keeps between frames: the ref of its group and the
    three memoised scratch objects. *)
Record PhotoItemState := mkPhotoItemState {
  meshRef : option Group;
  targetPos : Vector3;
  targetQuat : Quaternion;
  forward : Vector3
}.

Section PhotoItem.
(** Three operations of three.js on rotations, taken as they are:
    [v.applyQuaternion(q)], [q.setFromEuler(e)] and [q.slerp(qb, t)]. *)
Variable applyQuaternion : Vector3 -> Quaternion -> Vector3.
Variable setFromEuler : Quaternion -> Euler -> Quaternion.
Variable slerp : Quaternion -> Quaternion -> R -> Quaternion.

(** The [useFrame] callback of [PhotoItem]. *)
Definition useFrame (props : PhotoItemProps) (camera : Camera)
    (elapsedTime delta : R) (st : PhotoItemState) : PhotoItemState :=
  match meshRef st with
  | None => st
  | Some mesh =>
      let lerpSpeed := if isFeatured props then 2.0 else 1.5 in
      let '(targetPos', targetQuat', forward', targetScale) :=
        if isFormed props then
          (* TREE STATE *)
          let targetPos' :=
            Vec.set (targetPos st) (vx (target (data props)))
                    (vy (target (data props))) (vz (target (data props))) in
          let euler := mkEuler (ex (rotationTarget (data props)))
                               (ey (rotationTarget (data props)))
                               (ez (rotationTarget (data props))) in
          let targetQuat' := setFromEuler (targetQuat st) euler in
          (targetPos', targetQuat', forward st, 1.2)
        else if isFeatured props then
          (* FEATURED: fly to the front of the camera *)
          let forward1 :=
            applyQuaternion (Vec.set (forward st) 0 0 (-1)) (camera_quaternion camera) in
          let forward2 := Vec.multiplyScalar forward1 5 in
          let targetPos1 :=
            Vec.add (Vec.copy (targetPos st) (camera_position camera)) forward2 in
          let targetPos2 := Vec.set_y targetPos1 (vy targetPos1 + 5) in
          let targetQuat' :=
            mkQuaternion (qx (camera_quaternion camera)) (qy (camera_quaternion camera))
                         (qz (camera_quaternion camera)) (qw (camera_quaternion camera)) in
          (targetPos2, targetQuat', forward2, 1.5)
        else
          (* BACKGROUND: scatter *)
          let targetPos' :=
            Vec.set (targetPos st) (vx (chaos (data props)))
                    (vy (chaos (data props))) (vz (chaos (data props))) in
          let euler := mkEuler (ex (rotationChaos (data props)) + elapsedTime * 0.05)
                               (ey (rotationChaos (data props)) + elapsedTime * 0.05)
                               (ez (rotationChaos (data props))) in
          let targetQuat' := setFromEuler (targetQuat st) euler in
          (targetPos', targetQuat', forward st, 0.8) in
      let position' := Vec.lerp (position mesh) targetPos' (delta * lerpSpeed) in
      let quaternion' := slerp (quaternion mesh) targetQuat' (delta * lerpSpeed) in
      let currentScale := vx (scale mesh) in
      let nextScale := THREE.lerp currentScale targetScale (delta * lerpSpeed) in
      let scale' := Vec.setScalar (scale mesh) nextScale in
      mkPhotoItemState (Some (mkGroup position' quaternion' scale'))
                       targetPos' targetQuat' forward'
  end.

End PhotoItem.

Definition totalCount : Z := 12.

(** One turn of the loop that fills [photoData]. *)
Definition genPhoto (i : nat) (data : list DualPosition) : Rand (list DualPosition) :=
  let h := CONFIG.treeHeight in
  draw u1 <- random;
  let y := u1 * h * 0.7 + 2 in
  let levelRadius := ((1 - y / h) * CONFIG.treeRadius) + 0.6 in
  draw u2 <- random;
  let angle := (INR i / IZR totalCount) * PI * 2 + (u2 * 0.5) in
  let tx := levelRadius * cos angle in
  let ty := y in
  let tz := levelRadius * sin angle in
  let rotTargetX := 0 in
  let rotTargetY := - angle + PI / 2 in
  draw u3 <- random;
  let rotTargetZ := (u3 - 0.5) * 0.5 in
  draw u4 <- random;
  let cx := (u4 - 0.5) * 35 in
  draw u5 <- random;
  let cy := u5 * 15 - 5 in
  draw u6 <- random;
  let cz := (u6 - 0.5) * 35 in
  draw u7 <- random;
  let rotChaosX := (u7 - 0.5) * 1 in
  draw u8 <- random;
  let rotChaosY := (u8 - 0.5) * 1 in
  draw u9 <- random;
  let rotChaosZ := (u9 - 0.5) * 1 in
  ret (data ++ [ {| chaos := mkVector3 cx cy cz;
                    target := mkVector3 tx ty tz;
                    rotationChaos := mkEuler rotChaosX rotChaosY rotChaosZ;
                    rotationTarget := mkEuler rotTargetX rotTargetY rotTargetZ |} ]).

(** The hooks of a mounted [Photos]: the [featuredIndex] state, the
    dependency the effect last ran with ([None] before its first run) and
    the memoised [photoData]. *)
Record Hooks := mkHooks {
  featuredIndex : Z;
  effectDeps : option bool;
  photoData : list DualPosition
}.

(** The hooks of the first render: [useState(0)] and the [useMemo]. *)
Definition mountHooks : Rand Hooks :=
  draw photoData <- for_range (Z.to_nat totalCount) genPhoto [];
  ret (mkHooks 0 None photoData).

(** [userPhotos[(index + photoOffset) % userPhotos.length]]; [None] is
    [undefined]. *)
Definition getUrl (userPhotos : list string) (photoOffset : Z) (index : Z) : option string :=
  if (Z.of_nat (length userPhotos) =? 0)%Z then Some EmptyString
  else
    let k := Z.rem (index + photoOffset) (Z.of_nat (length userPhotos)) in
    if (k <? 0)%Z then None else userPhotos !! Z.to_nat k.

(** The elements a render returns: the props of the [PhotoItem]s. *)
Definition render (isFormed : bool) (userPhotos : list string) (photoOffset : Z)
    (h : Hooks) : list PhotoItemProps :=
  imap (fun i data =>
          mkPhotoItemProps data isFormed (Z.of_nat i)
            (getUrl userPhotos photoOffset (Z.of_nat i))
            (Z.of_nat i =? featuredIndex h)%Z)
       (photoData h).

(** The effect with dependencies [[isFormed]]: it runs after the first
    render and after a render in which [isFormed] differs from its value
    at the last run. *)
Definition useEffect (isFormed : bool) (h : Hooks) : Rand Hooks :=
  match effectDeps h with
  | Some d =>
      if Bool.eqb d isFormed then ret h
      else
        if negb isFormed then
          draw u <- random;
          ret (mkHooks (floor (u * IZR totalCount)) (Some isFormed) (photoData h))
        else ret (mkHooks (featuredIndex h) (Some isFormed) (photoData h))
  | None =>
      if negb isFormed then
        draw u <- random;
        ret (mkHooks (floor (u * IZR totalCount)) (Some isFormed) (photoData h))
      else ret (mkHooks (featuredIndex h) (Some isFormed) (photoData h))
  end.

(** The component over its props and the hooks of the previous render
    ([None] when it has run none): the hooks after the render and its
    effect, and the elements returned, [None] for [null].  [userPhotos] is
    [None] when the prop is missing.  The early return comes before every
    hook: a render that takes it calls no hook, and React keeps no hook
    of a render that called none, so that the next render with photos
    mounts its hooks anew. *)
Definition Photos (isFormed : bool) (count : Z) (userPhotos : option (list string))
    (photoOffset : Z) (hooks : option Hooks)
    : Rand (option Hooks * option (list PhotoItemProps)) :=
  match userPhotos with
  | None => ret (None, None)
  | Some photos =>
      if (Z.of_nat (length photos) =? 0)%Z then ret (None, None)
      else
        draw h <- (match hooks with Some h => ret h | None => mountHooks end);
        draw h <- useEffect isFormed h;
        ret (Some h, Some (render isFormed photos photoOffset h))
  end.

End Photos.

(** ** Experience.tsx *)

Module Experience.
Import THREE Types.

Definition isFormed (treeState : TreeState) : bool := TreeState_eqb treeState FORMED.

(** [<group position={[0, -5, 0]}>], the parent of the three components. *)
Definition groupPosition : Vector3 := mkVector3 0 (-5) 0.

(** The world position of a point given in the group's frame: the group
    is translated, neither rotated nor scaled. *)
Definition localToWorld (p : Vector3) : Vector3 := Vec.add p groupPosition.

End Experience.

(** ** App: the top-level state and its handlers *)

Module App.
Import Types.
#[local] Open Scope string_scope.
#[local] Open Scope Z_scope.

Definition DEFAULT_PHOTOS : list string :=
  [ "https://picsum.photos/seed/luxury1/800/800";
    "https://picsum.photos/seed/xmas2/800/800";
    "https://picsum.photos/seed/winter3/800/800";
    "https://picsum.photos/seed/gold4/800/800";
    "https://picsum.photos/seed/snow5/800/800";
    "https://picsum.photos/seed/star6/800/800" ].

(** The part of a [File] the handler reads. *)
Record File := mkFile { name : string; type : string }.

(** The component's state, and the object URLs it has revoked. *)
Record State := mkState {
  treeState : TreeState;
  snowEnabled : bool;
  userPhotos : list string;
  photoOffset : Z;
  isProcessing : bool;
  revoked : list string
}.

Definition init : State :=
  mkState FORMED true DEFAULT_PHOTOS 0 false [].

Definition toggleState (st : State) : State :=
  mkState (if TreeState_eqb (treeState st) CHAOS then FORMED else CHAOS)
          (snowEnabled st) (userPhotos st) (photoOffset st)
          (isProcessing st) (revoked st).

Definition toggleSnow (st : State) : State :=
  mkState (treeState st) (negb (snowEnabled st)) (userPhotos st)
          (photoOffset st) (isProcessing st) (revoked st).

Section Upload.
(** [URL.createObjectURL], the browser's. *)
Variable createObjectURL : File -> string.

(** [file.type && file.type.startsWith('image/')]. *)
Definition isImage (file : File) : bool :=
  negb (String.eqb (type file) "") && String.prefix "image/" (type file).

(** [handlePhotoUpload]; [files] is [event.target.files], [None] when
    it is [null]. *)
Definition handlePhotoUpload (files : option (list File)) (st : State) : State :=
  match files with
  | Some fs =>
      if 0 <? Z.of_nat (length fs) then
        let revoked' :=
          (revoked st ++ List.filter (String.prefix "blob:") (userPhotos st))%list in
        let newPhotos :=
          fold_left (fun newPhotos file =>
                       if isImage file then (newPhotos ++ [createObjectURL file])%list
                       else newPhotos)
                    fs [] in
        if 0 <? Z.of_nat (length newPhotos) then
          mkState (treeState st) (snowEnabled st) newPhotos 0 false revoked'
        else
          mkState (treeState st) (snowEnabled st) (userPhotos st)
                  (photoOffset st) false revoked'
      else st
  | None => st
  end.
End Upload.

Definition handleNextPhoto (st : State) : State :=
  if Z.of_nat (length (userPhotos st)) =? 0 then st
  else
    mkState (treeState st) (snowEnabled st) (userPhotos st)
            (Z.rem (photoOffset st + 1) (Z.of_nat (length (userPhotos st))))
            (isProcessing st) (revoked st).

Definition handlePrevPhoto (st : State) : State :=
  if Z.of_nat (length (userPhotos st)) =? 0 then st
  else
    mkState (treeState st) (snowEnabled st) (userPhotos st)
            (Z.rem (photoOffset st - 1 + Z.of_nat (length (userPhotos st)))
                   (Z.of_nat (length (userPhotos st))))
            (isProcessing st) (revoked st).

End App.

(** ** The running application: handlers and the renders they cause *)

Module Scene.
Import JS Types.

(** What the user can do through the overlay. *)
Inductive Event :=
| Toggle
| ToggleSnow
| Upload (files : option (list App.File))
| NextPhoto
| PrevPhoto.

Record State := mkState {
  app : App.State;
  photos : option Photos.Hooks
}.

Section Browser.
Variable createObjectURL : App.File -> string.

Definition handle (ev : Event) (st : App.State) : App.State :=
  match ev with
  | Toggle => App.toggleState st
  | ToggleSnow => App.toggleSnow st
  | Upload files => App.handlePhotoUpload createObjectURL files st
  | NextPhoto => App.handleNextPhoto st
  | PrevPhoto => App.handlePrevPhoto st
  end.

(** A render of [App]: [Experience] gives [Photos] its props. *)
Definition renderApp (a : App.State) (hooks : option Photos.Hooks)
    : Rand (option Photos.Hooks * option (list Photos.PhotoItemProps)) :=
  Photos.Photos (Experience.isFormed (App.treeState a)) 12
                (Some (App.userPhotos a)) (App.photoOffset a) hooks.

(** The first render. *)
Definition mount : Rand State :=
  draw r <- renderApp App.init None;
  ret (mkState App.init (fst r)).

(** An event: its handler sets the state, then the application renders. *)
Definition step (ev : Event) (st : State) : Rand State :=
  let a := handle ev (app st) in
  draw r <- renderApp a (photos st);
  ret (mkState a (fst r)).

Fixpoint run (evs : list Event) (st : State) : Rand State :=
  match evs with
  | [] => ret st
  | ev :: evs => draw st' <- step ev st; run evs st'
  end.

End Browser.

End Scene.

(** ** The vocabulary of the properties *)

Module Spec.
Import THREE Types.

(** The frames whose interpolation factor [delta * 1.5] is at most 1. *)
Definition short_frame (f : TreeParticles.Frame) : Prop :=
  0 <= TreeParticles.delta f <= 2 / 3.

(** Componentwise operations on vectors, for stating results. *)
Definition vadd (a b : Vector3) : Vector3 :=
  mkVector3 (vx a + vx b) (vy a + vy b) (vz a + vz b).
Definition vsub (a b : Vector3) : Vector3 :=
  mkVector3 (vx a - vx b) (vy a - vy b) (vz a - vz b).
Definition vscale (s : R) (a : Vector3) : Vector3 :=
  mkVector3 (s * vx a) (s * vy a) (s * vz a).

(** The destination of an ornament in a mode. *)
Definition destination (isFormed : bool) (item : Ornaments.Item) : Vector3 :=
  if isFormed then Ornaments.targetPos item else Ornaments.chaosPos item.

(** The restoring pull on an ornament. *)
Definition pull (isFormed : bool) (stiffness : R) (item : Ornaments.Item) : Vector3 :=
  vscale (stiffness / Ornaments.mass item)
         (vsub (destination isFormed item) (Ornaments.currentPos item)).

(** The drift added in CHAOS, and only there. *)
Definition noise (isFormed : bool) (time noiseStrength : R) (item : Ornaments.Item) : Vector3 :=
  if isFormed then mkVector3 0 0 0
  else mkVector3 (sin (time * 0.5 + Ornaments.phase item) * noiseStrength)
                 (cos (time * 0.3 + Ornaments.phase item * 2) * noiseStrength)
                 (sin (time * 0.7 + Ornaments.phase item * 0.5) * noiseStrength).



(** The [i]-th vector of a buffer attribute of item size 3. *)
Definition readVec (arr : list R) (i : nat) : option Vector3 :=
  match arr !! (i * 3)%nat, arr !! (i * 3 + 1)%nat, arr !! (i * 3 + 2)%nat with
  | Some x, Some y, Some z => Some (mkVector3 x y z)
  | _, _, _ => None
  end.





(** What holds of the application between events: there are photos, and
    [Photos] is mounted, its effect has run for the current mode, and its
    featured index is one of the twelve. *)
Definition settled (st : Scene.State) : Prop :=
  App.userPhotos (Scene.app st) <> [] /\
  exists h : Photos.Hooks,
    Scene.photos st = Some h /\
    Photos.effectDeps h = Some (Experience.isFormed (App.treeState (Scene.app st))) /\
    (0 <= Photos.featuredIndex h < Photos.totalCount)%Z.

End Spec.

(** ** Concrete scenes, for running the definitions *)

Module Examples.
Import THREE Types.

Definition origin : Vector3 := mkVector3 0 0 0.

(** An ornament at rest on the tree, with its scatter position ten units
    away. *)
Definition ornament : Ornaments.Item :=
  {| Ornaments.chaosPos := mkVector3 10 0 0;
     Ornaments.targetPos := origin;
     Ornaments.currentPos := origin;
     Ornaments.velocity := origin;
     Ornaments.rotation := mkEuler 0 0 0;
     Ornaments.rotVelocity := origin;
     Ornaments.mass := 1;
     Ornaments.phase := 0 |}.

Definition object3D : Object3D := mkObject3D origin (mkEuler 0 0 0) origin.

(** A mounted mesh of one instance. *)
Definition mesh1 : Ornaments.InstancedMesh :=
  Ornaments.mkInstancedMesh [object3D] false.

(** One ball, one icicle, the other batches empty and not mounted. *)
Definition ornaments : Ornaments.State :=
  {| Ornaments.balls := [ornament];     Ornaments.ballMesh := Some mesh1;
     Ornaments.boxes := [];             Ornaments.boxMesh := None;
     Ornaments.diamonds := [];          Ornaments.diamondMesh := None;
     Ornaments.rings := [];             Ornaments.ringMesh := None;
     Ornaments.icicles := [ornament];   Ornaments.icicleMesh := Some mesh1;
     Ornaments.scratchVec := origin;
     Ornaments.scratchObj := object3D |}.

(** The camera of the canvas as [App] places it, [position: [0, 4, 20]],
    before any orbiting: it looks down the negative z axis. *)
Definition camera : Photos.Camera :=
  Photos.mkCamera (mkVector3 0 4 20) (mkQuaternion 0 0 0 1).

(** [Vector3.applyQuaternion] as three.js computes it. *)
Definition applyQuaternion (v : Vector3) (q : Quaternion) : Vector3 :=
  let tx := 2 * (qy q * vz v - qz q * vy v) in
  let ty := 2 * (qz q * vx v - qx q * vz v) in
  let tz := 2 * (qx q * vy v - qy q * vx v) in
  mkVector3 (vx v + qw q * tx + qy q * tz - qz q * ty)
            (vy v + qw q * ty + qz q * tx - qx q * tz)
            (vz v + qw q * tz + qx q * ty - qy q * tx).

(** Stand-ins for [setFromEuler] and [slerp], which the featured branch
    does not depend on: they leave the quaternion as it is. *)
Definition setFromEuler (q : Quaternion) (_ : Euler) : Quaternion := q.
Definition slerp (q _ : Quaternion) (_ : R) : Quaternion := q.

(** A photo in the tree, and the state of its mounted item. *)
Definition photo : DualPosition :=
  mkDualPosition (mkVector3 10 0 (-10)) (mkVector3 3 5 0) (mkEuler 0 0 0) (mkEuler 0 0 0).

Definition photoItem : Photos.PhotoItemState :=
  Photos.mkPhotoItemState
    (Some (Photos.mkGroup (mkVector3 3 5 0) (mkQuaternion 0 0 0 1) (mkVector3 1.2 1.2 1.2)))
    origin (mkQuaternion 0 0 0 1) origin.

(** A random source that always returns 0, and one that always returns
    one half. *)
Definition zeros : JS.RandomSource := fun _ => 0.
Definition halves : JS.RandomSource := fun _ => 1 / 2.

(** A rounding that does round, coarser than binary32: to the nearest
    multiple of 1/8, a number half way between two going up. *)
Definition eighths : Float32.Rounding.
Proof.
  refine (Float32.mkRounding (fun x => IZR (Zfloor (x * 8 + 1 / 2)) / 8) _ _ _).
  - intros x y H. apply Rmult_le_compat_r; [lra|]. apply IZR_le, Zfloor_le. lra.
  - intros z _. rewrite (Zfloor_eq (z * 8)%Z); rewrite mult_IZR; lra.
  - rewrite (Zfloor_eq 4); lra.
Defined.

End Examples.

(** ** The shaders of the foliage material *)

Module FoliageShader.
Import THREE.

(** The GLSL built-ins [mix], [step], [clamp] and [smoothstep]. *)
Definition mix (x y a : R) : R := x * (1 - a) + y * a.

Definition mix3 (x y : Vector3) (a : R) : Vector3 :=
  mkVector3 (mix (vx x) (vx y) a) (mix (vy x) (vy y) a) (mix (vz x) (vz y) a).

Definition step (edge x : R) : R := if Rlt_dec x edge then 0 else 1.

Definition clamp (x lo hi : R) : R := Rmin (Rmax x lo) hi.

Definition smoothstep (edge0 edge1 x : R) : R :=
  let t := clamp ((x - edge0) / (edge1 - edge0)) 0 1 in
  t * t * (3 - 2 * t).

(** The attributes of a vertex. *)
Record Vertex := mkVertex {
  position : Vector3;
  aTargetPos : Vector3;
  aScale : R;
  aRandom : R
}.

(** What the vertex shader computes before it projects: the position in
    the frame of the model and the two varyings.  [gl_Position] and
    [gl_PointSize], the images of [finalPos] under the matrices of the
    camera, are not part of the record. *)
Record Varyings := mkVaryings {
  finalPos : Vector3;
  vColor : Vector3;
  vAlpha : R
}.

(** [main] of the vertex shader; [None] where [pow] is undefined. *)
Definition vertexMain (uTime uProgress : R) (v : Vertex) : option Varyings :=
  let chaosPos := position v in
  match TreeParticles.easeOutCubic uProgress with
  | None => None
  | Some t =>
      let finalPos0 := mix3 chaosPos (aTargetPos v) t in
      let wind := sin (uTime * 2.0 + vy finalPos0 * 0.5 + aRandom v * 10.0) * 0.05 in
      let finalPos1 := mkVector3 (vx finalPos0 + wind) (vy finalPos0) (vz finalPos0 + wind) in
      let sparkle := sin (uTime * 3.0 + aRandom v * 100.0) in
      let colorMix := step 0.85 (aRandom v) in
      let vColor0 := mix3 (mkVector3 0.0 0.3 0.1) (mkVector3 1.0 0.84 0.0) colorMix in
      let vColor1 :=
        if Rlt_dec 0.9 sparkle then
          if Rlt_dec 0.5 t
          then mkVector3 (vx vColor0 + 0.5) (vy vColor0 + 0.5) (vz vColor0 + 0.5)
          else vColor0
        else vColor0 in
      Some (mkVaryings finalPos1 vColor1 1.0)
  end.

(** [main] of the fragment shader at a point of the sprite, [gl_PointCoord]:
    [None] is [discard], otherwise the colour and its alpha. *)
Definition fragmentMain (coordX coordY : R) (vColor : Vector3) (vAlpha : R)
    : option (Vector3 * R) :=
  let centerX := coordX - 0.5 in
  let centerY := coordY - 0.5 in
  let dist := sqrt (centerX * centerX + centerY * centerY) in
  if Rlt_dec 0.5 dist then None
  else
    let alpha := 1.0 - smoothstep 0.4 0.5 dist in
    Some (vColor, alpha * vAlpha).

End FoliageShader.

(** ** Snow.tsx: the snow *)

Module Snow.
Import JS THREE Float32.

Definition count : nat := 1500.

(** The three typed arrays of the memoised particles, each a
    [Float32Array]. *)
Record Particles := mkParticles {
  positions : list R;
  speeds : list R;
  wiggles : list R
}.

(** One turn of the generation loop; every assignment is a store into a
    [Float32Array]. *)
Definition genFlake (fr : Rounding) (i : nat) (p : Particles) : Rand Particles :=
  draw u1 <- random;
  let positions1 := store fr (i * 3) ((u1 - 0.5) * 50) (positions p) in
  draw u2 <- random;
  let positions2 := store fr (i * 3 + 1) (u2 * 40) positions1 in
  draw u3 <- random;
  let positions3 := store fr (i * 3 + 2) ((u3 - 0.5) * 50) positions2 in
  draw u4 <- random;
  let speeds1 := store fr i (0.05 + u4 * 0.1) (speeds p) in
  draw u5 <- random;
  let wiggles1 := store fr i (u5 * PI * 2) (wiggles p) in
  ret (mkParticles positions3 speeds1 wiggles1).

(** The memoised particles, for [count] flakes. *)
Definition genParticles (fr : Rounding) (count : nat) : Rand Particles :=
  for_range count (genFlake fr)
    (mkParticles (replicate (count * 3) 0) (replicate count 0) (replicate count 0)).

(** One turn of the loop of the frame on the position array.  The two
    compound assignments read the array, compute, and store; the test reads
    back the height that was stored.  The reads are within the arrays in
    every call: a turn that could not read would leave the array as it
    is. *)
Definition fallFlake (fr : Rounding) (elapsedTime : R) (p : Particles) (i : nat)
    (positions : list R) : Rand (list R) :=
  match positions !! (i * 3 + 1)%nat, speeds p !! i,
        positions !! (i * 3)%nat, wiggles p !! i with
  | Some y, Some speed, Some x, Some wiggle =>
      (* Move down *)
      let positions1 := store fr (i * 3 + 1) (y - speed) positions in
      (* Add wiggle *)
      let positions2 := store fr (i * 3) (x + sin (elapsedTime + wiggle) * 0.02) positions1 in
      (* Reset if below ground *)
      match positions2 !! (i * 3 + 1)%nat with
      | Some y' =>
          if Rlt_dec y' (-5) then
            let positions3 := store fr (i * 3 + 1) 30 positions2 in
            draw u1 <- random;
            let positions4 := store fr (i * 3) ((u1 - 0.5) * 50) positions3 in
            draw u2 <- random;
            let positions5 := store fr (i * 3 + 2) ((u2 - 0.5) * 50) positions4 in
            ret positions5
          else ret positions2
      | None => ret positions2
      end
  | _, _, _, _ => ret positions
  end.

(** The component's data.  The position attribute of the mounted points is
    the array [positions] of the particles itself; [mesh] is the ref, with
    the attribute's [needsUpdate]. *)
Record State := mkState {
  particles : Particles;
  mesh : option bool
}.

(** The [useFrame] callback over [count] flakes. *)
Definition useFrame (fr : Rounding) (count : nat) (elapsedTime : R) (st : State)
    : Rand State :=
  match mesh st with
  | None => ret st
  | Some _ =>
      draw positions' <-
        for_range count (fallFlake fr elapsedTime (particles st)) (positions (particles st));
      ret (mkState (mkParticles positions' (speeds (particles st)) (wiggles (particles st)))
                   (Some true))
  end.

(** The frames of a session, given by their elapsed times. *)
Fixpoint frames (fr : Rounding) (count : nat) (times : list R) (st : State) : Rand State :=
  match times with
  | [] => ret st
  | t :: times => draw st' <- useFrame fr count t st; frames fr count times st'
  end.

End Snow.

(** ** LuckyStar: the star at the top *)

Module LuckyStar.
Import JS THREE Types.

(** The outline of the star: the points given to [moveTo] and [lineTo],
    in order. *)
Definition starPoint (i : nat) : R * R :=
  let points := 5 in
  let outerRadius := 1.5 in
  let innerRadius := 0.6 in
  let r := if Nat.eqb (i mod 2) 0 then outerRadius else innerRadius in
  let angle := (INR i / (points * 2)) * PI * 2 in
  let x := cos (angle + PI / 2) * r in
  let y := sin (angle + PI / 2) * r in
  (x, y).

Definition starOutline : list (R * R) := map starPoint (seq 0 (5 * 2)).

Record PointLight := mkPointLight { intensity : R; distance : R }.

(** The two refs of the component. *)
Record State := mkState {
  meshRef : option Object3D;
  pointLightRef : option PointLight
}.

(** The [useFrame] callback. *)
Definition useFrame (isFormed : bool) (elapsedTime delta : R) (st : State) : State :=
  match meshRef st with
  | None => st
  | Some mesh =>
      let time := elapsedTime in
      let targetPos :=
        if isFormed then mkVector3 0 (CONFIG.treeHeight + 0.5) 0
        else mkVector3 0 5 0 in
      let position1 := Vec.lerp (position mesh) targetPos (delta * 2.0) in
      let '(position2, rotation1) :=
        if isFormed then
          (Vec.set_y position1 (vy position1 + sin (time * 2) * 0.005),
           mkEuler (ex (rotation mesh)) (ey (rotation mesh) + delta * 0.5) (ez (rotation mesh)))
        else
          (position1,
           mkEuler (ex (rotation mesh) + delta * 0.5)
                   (ey (rotation mesh) + delta * 0.8)
                   (ez (rotation mesh) + delta * 0.4)) in
      let pulse :=
        if isFormed then 1.0 + sin (time * 3) * 0.05
        else 1.5 + sin (time * 10) * 0.2 in
      let scale1 := Vec.setScalar (scale mesh) pulse in
      let light :=
        match pointLightRef st with
        | Some _ =>
            Some (mkPointLight (if isFormed then 60 + sin (time * 4) * 20 else 300)
                               (if isFormed then 20 else 60))
        | None => None
        end in
      mkState (Some (mkObject3D position2 rotation1 scale1)) light
  end.

End LuckyStar.

(** ** Overlay: what the buttons show *)

Module Overlay.
Import Types.
#[local] Open Scope string_scope.

Definition isFormed (treeState : TreeState) : bool := TreeState_eqb treeState FORMED.

(** The label of the toggle button. *)
Definition toggleLabel (treeState : TreeState) : string :=
  if isFormed treeState then "Unleash Chaos" else "Assemble Tree".

(** The upload button: its [disabled] attribute and its label. *)
Definition uploadDisabled (isProcessing : bool) : bool := isProcessing.

Definition uploadLabel (isProcessing : bool) : string :=
  if isProcessing then "Processing..." else "Change Photos".

End Overlay.

(** ** Sessions: the frame callbacks over the frames of a session *)

Module Session.

(** The ornaments over the frames of a session, in order. *)
Definition ornaments (fs : list TreeParticles.Frame) (st : Ornaments.State) : Ornaments.State :=
  fold_left
    (fun st f =>
       Ornaments.useFrame (TreeParticles.isFormed f) (TreeParticles.elapsedTime f)
                          (TreeParticles.delta f) st)
    fs st.

(** The star over the frames of a session, in order. *)
Definition star (fs : list TreeParticles.Frame) (st : LuckyStar.State) : LuckyStar.State :=
  fold_left
    (fun st f =>
       LuckyStar.useFrame (TreeParticles.isFormed f) (TreeParticles.elapsedTime f)
                          (TreeParticles.delta f) st)
    fs st.

End Session.

(** ** The vocabulary of the further properties *)

Module Cover.
Import THREE Types.

(** After [n] turns of the generation loop of the foliage: the four arrays
    have their lengths, and the first [n] scales and randoms, as numbers
    not yet rounded by the store, are in their ranges. *)
Definition attributes (count n : nat) (g : TreeParticles.Geometry) : Prop :=
  length (TreeParticles.positions g) = (count * 3)%nat /\
  length (TreeParticles.targets g) = (count * 3)%nat /\
  length (TreeParticles.scales g) = count /\
  length (TreeParticles.randoms g) = count /\
  forall i : nat, (i < n)%nat ->
    exists s r : R,
      TreeParticles.scales g !! i = Some s /\
      TreeParticles.randoms g !! i = Some r /\
      0.5 <= s < 1 /\ 0 <= r < 1.

(** An ornament at rest at its place in the tree. *)
Definition at_rest (item : Ornaments.Item) : Prop :=
  Ornaments.currentPos item = Ornaments.targetPos item /\
  Ornaments.velocity item = mkVector3 0 0 0.

(** An ornament as the generator makes it. *)
Definition fresh_ornament (item : Ornaments.Item) : Prop :=
  at_rest item /\
  0.5 <= Ornaments.mass item < 2 /\
  0 <= Ornaments.phase item < 2 * PI /\
  (0 <= ex (Ornaments.rotation item) < PI /\
   0 <= ey (Ornaments.rotation item) < PI /\
   0 <= ez (Ornaments.rotation item) < PI) /\
  (-0.1 <= vx (Ornaments.rotVelocity item) < 0.1 /\
   -0.1 <= vy (Ornaments.rotVelocity item) < 0.1 /\
   -0.1 <= vz (Ornaments.rotVelocity item) < 0.1).

(** Two states of an ornament with the same generated data. *)
Definition same_data (item item' : Ornaments.Item) : Prop :=
  Ornaments.chaosPos item' = Ornaments.chaosPos item /\
  Ornaments.targetPos item' = Ornaments.targetPos item /\
  Ornaments.rotVelocity item' = Ornaments.rotVelocity item /\
  Ornaments.mass item' = Ornaments.mass item /\
  Ornaments.phase item' = Ornaments.phase item.

(** What a frame does to an item of a batch: the update with the constants
    of the batch if its mesh is mounted, nothing otherwise. *)
Definition frameItem (isFormed : bool) (elapsedTime delta : R) (k : Ornaments.Kind)
    (st : Ornaments.State) (i : nat) (item : Ornaments.Item) : Ornaments.Item :=
  match Ornaments.meshOf k st with
  | Some _ =>
      Ornaments.updated isFormed (JS.min delta 0.1) elapsedTime
        (Ornaments.scaleBase (Ornaments.constantsOf k))
        (Ornaments.stiffness (Ornaments.constantsOf k))
        (Ornaments.damping (Ornaments.constantsOf k))
        (Ornaments.noiseStrength (Ornaments.constantsOf k))
        (Ornaments.orientToUp (Ornaments.constantsOf k)) i item
  | None => item
  end.

(** The transform that a frame writes into the mesh for the item at
    index [i]: the new position of the item, its new rotation (for a batch
    that is oriented, in FORMED, the fixed rotation that points down) and a
    uniform scale that breathes around [scaleBase]. *)
Definition written (isFormed : bool) (dt time : R)
    (scaleBase stiffness damping noiseStrength : R) (orientToUp : bool)
    (i : nat) (item : Ornaments.Item) : Object3D :=
  let item' := Ornaments.updated isFormed dt time scaleBase stiffness damping
                 noiseStrength orientToUp i item in
  let s := scaleBase + sin (time + INR i) * 0.05 in
  mkObject3D (Ornaments.currentPos item')
             (if orientToUp && isFormed then mkEuler PI 0 0 else Ornaments.rotation item')
             (mkVector3 s s s).

(** The destination of a photo on a frame, in the frame of its parent
    group: its place in the tree in FORMED; in CHAOS the point in front of
    the camera if it is featured, its place in the scatter otherwise. *)
Definition photoTarget (applyQuaternion : Vector3 -> Quaternion -> Vector3)
    (props : Photos.PhotoItemProps) (camera : Photos.Camera) : Vector3 :=
  if Photos.isFormed props then target (Photos.data props)
  else if Photos.isFeatured props then
    Spec.vadd
      (Spec.vadd (Photos.camera_position camera)
                 (Spec.vscale 5 (applyQuaternion (mkVector3 0 0 (-1))
                                                 (Photos.camera_quaternion camera))))
      (mkVector3 0 5 0)
  else chaos (Photos.data props).

(** The scale a photo tends to. *)
Definition photoScale (props : Photos.PhotoItemProps) : R :=
  if Photos.isFormed props then 1.2
  else if Photos.isFeatured props then 1.5
  else 0.8.

(** The speed factor of a photo. *)
Definition photoSpeed (props : Photos.PhotoItemProps) : R :=
  if Photos.isFeatured props then 2.0 else 1.5.

(** A generated photo within its bounds. *)
Definition photo_in_bounds (d : DualPosition) : Prop :=
  (2 <= vy (target d) < 11.8) /\
  (vx (target d) * vx (target d) + vz (target d) * vz (target d) =
   Rsqr ((1 - vy (target d) / CONFIG.treeHeight) * CONFIG.treeRadius + 0.6)) /\
  (-17.5 <= vx (chaos d) < 17.5) /\
  (-5 <= vy (chaos d) < 10) /\
  (-17.5 <= vz (chaos d) < 17.5) /\
  ex (rotationTarget d) = 0 /\
  (-0.25 <= ez (rotationTarget d) < 0.25) /\
  (-0.5 <= ex (rotationChaos d) < 0.5) /\
  (-0.5 <= ey (rotationChaos d) < 0.5) /\
  (-0.5 <= ez (rotationChaos d) < 0.5).

(** What holds of the application between events, beyond [Spec.settled]:
    the slideshow offset is an index of the photo list, nothing is being
    processed, and there are twelve photos. *)
Definition ready (st : Scene.State) : Prop :=
  Spec.settled st /\
  (0 <= App.photoOffset (Scene.app st) < Z.of_nat (length (App.userPhotos (Scene.app st))))%Z /\
  App.isProcessing (Scene.app st) = false /\
  forall h : Photos.Hooks, Scene.photos st = Some h -> length (Photos.photoData h) = 12%nat.

(** The number of toggles among the events. *)
Definition toggles (evs : list Scene.Event) : nat :=
  length (List.filter (fun ev => match ev with Scene.Toggle => true | _ => false end) evs).

(** The arrays of the snow have the lengths they were allocated with. *)
Definition snow_arrays (count : nat) (p : Snow.Particles) : Prop :=
  length (Snow.positions p) = (count * 3)%nat /\
  length (Snow.speeds p) = count /\
  length (Snow.wiggles p) = count.

(** A flake as the generator places it, with its speed and its phase, as
    the arrays hold them.  The bounds are closed: a store can round onto
    25 or 40, and the bounds of the speed and of the phase, which are
    not binary32 numbers, are met up to their rounding. *)
Definition flake_generated (fr : Float32.Rounding) (p : Snow.Particles) (i : nat) : Prop :=
  exists (pos : Vector3) (speed wiggle : R),
    Spec.readVec (Snow.positions p) i = Some pos /\
    Snow.speeds p !! i = Some speed /\
    Snow.wiggles p !! i = Some wiggle /\
    (-25 <= vx pos <= 25) /\ (0 <= vy pos <= 40) /\ (-25 <= vz pos <= 25) /\
    (Float32.fround fr 0.05 <= speed <= Float32.fround fr 0.15) /\
    0 <= speed /\
    (0 <= wiggle <= Float32.fround fr (2 * PI)).

(** After [n] turns of the generation loop of the snow. *)
Definition snow_generated (fr : Float32.Rounding) (count n : nat) (p : Snow.Particles) : Prop :=
  snow_arrays count p /\ forall i : nat, (i < n)%nat -> flake_generated fr p i.

(** What a frame does to a flake at [pos]: it falls by its speed and
    drifts along x, both rounded as stored; when the height stored is below
    -5, it is put back at the height 30 with new x and z. *)
Definition flake_fell (fr : Float32.Rounding) (elapsedTime speed wiggle : R)
    (pos pos' : Vector3) : Prop :=
  (-5 <= Float32.fround fr (vy pos - speed) /\
   pos' = mkVector3 (Float32.fround fr (vx pos + sin (elapsedTime + wiggle) * 0.02))
                    (Float32.fround fr (vy pos - speed)) (vz pos))
  \/
  (Float32.fround fr (vy pos - speed) < -5 /\
   vy pos' = 30 /\ (-25 <= vx pos' <= 25) /\ (-25 <= vz pos' <= 25)).

(** After [n] turns of the loop of a frame over the positions [before]:
    the first [n] flakes have fallen, the others are where they were. *)
Definition snow_fallen (fr : Float32.Rounding) (count : nat) (elapsedTime : R)
    (p : Snow.Particles) (before : list R) (n : nat) (after : list R) : Prop :=
  length after = (count * 3)%nat /\
  forall i : nat, (i < count)%nat ->
    if (i <? n)%nat then
      exists (pos pos' : Vector3) (speed wiggle : R),
        Spec.readVec before i = Some pos /\
        Snow.speeds p !! i = Some speed /\
        Snow.wiggles p !! i = Some wiggle /\
        Spec.readVec after i = Some pos' /\
        flake_fell fr elapsedTime speed wiggle pos pos'
    else Spec.readVec after i = Spec.readVec before i.

(** The snow within the box it falls in, with speeds that are not
    negative. *)
Definition snow_in_box (count : nat) (p : Snow.Particles) : Prop :=
  snow_arrays count p /\
  forall i : nat, (i < count)%nat ->
    exists (pos : Vector3) (speed : R),
      Spec.readVec (Snow.positions p) i = Some pos /\
      Snow.speeds p !! i = Some speed /\
      0 <= speed /\
      (-5 <= vy pos <= 40) /\ (-25 <= vz pos <= 25).

(** The star on the vertical axis of the tree. *)
Definition star_on_axis (st : LuckyStar.State) : Prop :=
  exists mesh : Object3D,
    LuckyStar.meshRef st = Some mesh /\
    vx (position mesh) = 0 /\ vz (position mesh) = 0.

(** The height the star tends to in a mode. *)
Definition starHeight (isFormed : bool) : R :=
  if isFormed then CONFIG.treeHeight + 0.5 else 5.

End Cover.

(* ================================================================== *)
(** * Properties *)
(* ================================================================== *)

(** ** The definitions at work *)

Example toggle_from_init :
  App.treeState (App.toggleState App.init) = Types.CHAOS.
Proof. reflexivity. Qed.

Example next_wraps_around :
  App.photoOffset
    (App.handleNextPhoto (App.mkState Types.FORMED true App.DEFAULT_PHOTOS 5 false []))
  = 0%Z.
Proof. reflexivity. Qed.

Example prev_wraps_around :
  App.photoOffset (App.handlePrevPhoto App.init) = 5%Z.
Proof. reflexivity. Qed.

Example getUrl_cycles :
  Photos.getUrl App.DEFAULT_PHOTOS 2 7 = Some "https://picsum.photos/seed/gold4/800/800"%string.
Proof. reflexivity. Qed.

Example upload_keeps_images_only :
  App.userPhotos
    (App.handlePhotoUpload (fun f => ("blob:" ++ App.name f)%string)
       (Some [App.mkFile "a.png" "image/png"; App.mkFile "b.txt" "text/plain";
              App.mkFile "c.jpg" "image/jpeg"])
       App.init)
  = ["blob:a.png"; "blob:c.jpg"]%string.
Proof. reflexivity. Qed.

Example first_frame_progress :
  TreeParticles.frame (TreeParticles.mkFrame true 0 (1 / 60))
                      (Some TreeParticles.newFoliageMaterial)
  = Some (TreeParticles.mkFoliageMaterial 0 (1 / 40)).
Proof. simpl. unfold THREE.lerp. do 2 f_equal. lra. Qed.

Section Easing.
Import TreeParticles.

Lemma Rpower_cube (x : R) : 0 < x -> Rpower x 3 = x ^ 3.
Proof.
  intros Hx. replace 3 with (INR 3) by (simpl; lra).
  now apply Rpower_pow.
Qed.

Lemma glsl_pow_cube (x : R) : 0 <= x -> GLSL.pow x 3 = Some (x ^ 3).
Proof.
  intros Hx. unfold GLSL.pow.
  destruct (Rlt_dec x 0) as [Hn|_]; [lra|].
  destruct (Rlt_dec 0 x) as [Hp|Hz].
  - now rewrite Rpower_cube.
  - destruct (Rle_dec 3 0) as [H3|_]; [lra|].
    assert (x = 0) as -> by lra. f_equal. ring.
Qed.

(** On [0, 1] the shader function is the polynomial [1 - (1 - x)^3]. *)
Lemma easeOutCubic_poly (x : R) :
  0 <= x <= 1 -> easeOutCubic x = Some (1 - (1 - x) ^ 3).
Proof.
  intros Hx. unfold easeOutCubic. rewrite glsl_pow_cube by lra. reflexivity.
Qed.

Lemma cube_strict (a b : R) : 0 <= a -> a < b -> a ^ 3 < b ^ 3.
Proof.
  intros Ha Hab.
  assert (a * a < b * b) by nra.
  simpl. nra.
Qed.

End Easing.

(** C2. The ease-out of the shader, [1.0 - pow(1.0 - x, 3.0)], is defined on
    the whole interval [0, 1] and is there the cubic [1 - (1 - x)^3]: it
    gives exactly 0 at 0 and exactly 1 at 1, and is strictly increasing on
    [0, 1]. *)
Theorem easeOutCubic_endpoints_strictly_increasing :
  (forall x : R, 0 <= x <= 1 ->
     TreeParticles.easeOutCubic x = Some (1 - (1 - x) * (1 - x) * (1 - x))) /\
  TreeParticles.easeOutCubic 0 = Some 0 /\
  TreeParticles.easeOutCubic 1 = Some 1 /\
  (forall x y : R, 0 <= x -> x < y -> y <= 1 ->
     exists a b : R,
       TreeParticles.easeOutCubic x = Some a /\
       TreeParticles.easeOutCubic y = Some b /\
       a < b).
Proof.
  split; [|split; [|split]].
  - intros x Hx. rewrite easeOutCubic_poly by lra. f_equal. ring.
  - rewrite easeOutCubic_poly by lra. f_equal. ring.
  - rewrite easeOutCubic_poly by lra. f_equal. ring.
  - intros x y Hx Hxy Hy.
    exists (1 - (1 - x) ^ 3), (1 - (1 - y) ^ 3).
    rewrite !easeOutCubic_poly by lra.
    repeat split.
    assert ((1 - y) ^ 3 < (1 - x) ^ 3) by (apply cube_strict; lra).
    lra.
Qed.

Lemma easeOutCubic_endpoints_strictly_increasing_witness :
  (0 <= 1 / 2 <= 1 /\
   TreeParticles.easeOutCubic (1 / 2) = Some (1 - (1 - 1 / 2) * (1 - 1 / 2) * (1 - 1 / 2))) /\
  0 <= 0 /\ 0 < 1 / 2 /\ 1 / 2 <= 1 /\
  exists a b : R,
    TreeParticles.easeOutCubic 0 = Some a /\
    TreeParticles.easeOutCubic (1 / 2) = Some b /\
    a < b.
Proof.
  assert (Hh : 0 <= 1 / 2 <= 1) by lra.
  assert (H0 : 0 <= 0) by lra.
  assert (H1 : 0 < 1 / 2) by lra.
  assert (H2 : 1 / 2 <= 1) by lra.
  split; [split; [exact Hh|]|repeat split; try assumption].
  - exact (proj1 easeOutCubic_endpoints_strictly_increasing (1 / 2) Hh).
  - exact (proj2 (proj2 (proj2 easeOutCubic_endpoints_strictly_increasing)) 0 (1 / 2) H0 H1 H2).
Defined.

(** ** The progress uniform of the foliage cloud *)

Section Progress.
Import THREE TreeParticles.

(** One frame keeps a mounted material mounted, and moves its progress by
    the linear interpolation. *)
Lemma frame_mounted (f : Frame) (m : FoliageMaterial) :
  frame f (Some m) =
  Some (mkFoliageMaterial (elapsedTime f)
          (lerp (uProgress m) (if isFormed f then 1 else 0) (delta f * 1.5))).
Proof. reflexivity. Qed.


(** In exact arithmetic a frame in FORMED does not lower the progress.
    The double-precision update does not share this: see
    [progress_decreases_in_formed_binary64]. *)
Lemma lerp_towards_one (p t : R) : p <= 1 -> 0 <= t -> p <= lerp p 1 t.
Proof. intros Hp Ht. unfold lerp. nra. Qed.



(** The bound on [delta] is the least restrictive one: any longer frame
    takes the progress of a new material above 1 in FORMED. *)
Lemma long_frame_overshoots (elapsed d : R) :
  2 / 3 < d ->
  exists m' : FoliageMaterial,
    frame (mkFrame true elapsed d) (Some newFoliageMaterial) = Some m' /\
    1 < uProgress m'.
Proof.
  intros Hd. eexists. split; [apply frame_mounted|].
  simpl. unfold lerp. lra.
Qed.

End Progress.



(** The order in FORMED fails in double precision, within the bound on
    [delta].  From the progress 0 of a new material, 300 frames of 100 ms
    in FORMED bring the progress to [0.99999999999999967]; one more frame
    in FORMED, of 36 ms, brings it down to [0.99999999999999956].  The
    frames are within the bound and both values are in [0, 1]. *)
Lemma progress_decreases_in_formed_binary64 :
  let before := Binary64.frames true Binary64.delta_100ms 300 PrimFloat.zero in
  let after := Binary64.useFrame true Binary64.delta_36ms before in
  Binary64.short_frame Binary64.delta_100ms = true /\
  Binary64.short_frame Binary64.delta_36ms = true /\
  before = Binary64.three_ulps_below_one /\
  after = Binary64.four_ulps_below_one /\
  Binary64.in_unit before = true /\
  Binary64.in_unit after = true /\
  PrimFloat.ltb after before = true.
Proof. vm_compute. repeat split. Qed.


(** ** The physics of the ornaments *)

(** Unfolds the vector methods and proves the equality of two vectors
    coordinate by coordinate. *)
Ltac vec_eq :=
  unfold THREE.Vec.multiplyScalar, THREE.Vec.add, THREE.Vec.sub, THREE.Vec.copy,
    THREE.Vec.clone, THREE.Vec.set, THREE.Vec.set_y, THREE.Vec.setScalar,
    THREE.Vec.lerp;
  simpl; f_equal; unfold Rdiv; ring.

Section OrnamentPhysics.
Import JS THREE Ornaments.

Variables (isFormed : bool) (dt time : R).
Variables (scaleBase stiffness damping noiseStrength : R) (orientToUp : bool).

#[local] Abbreviation updated :=
  (Ornaments.updated isFormed dt time scaleBase stiffness damping noiseStrength orientToUp).
#[local] Abbreviation body :=
  (updatePhysics_body isFormed dt time scaleBase stiffness damping noiseStrength orientToUp).

Lemma updateItem_scratch (i : nat) (item : Item) (tv : Vector3) (to : Object3D) :
  fst (fst (updateItem isFormed dt time scaleBase stiffness damping noiseStrength
              orientToUp i item tv to)) = updated i item.
Proof. reflexivity. Qed.

Lemma updated_velocity (i : nat) (item : Item) :
  velocity (updated i item) =
  Spec.vscale damping
    (Spec.vadd (Spec.vadd (velocity item) (Spec.pull isFormed stiffness item))
               (Spec.noise isFormed time noiseStrength item)).
Proof.
  unfold Ornaments.updated, updateItem, Spec.pull, Spec.noise, Spec.destination,
    Spec.vscale, Spec.vadd, Spec.vsub.
  destruct isFormed; simpl; vec_eq.
Qed.

Lemma updated_currentPos (i : nat) (item : Item) :
  currentPos (updated i item) =
  Spec.vadd (currentPos item) (Spec.vscale (dt * 60) (velocity (updated i item))).
Proof.
  unfold Ornaments.updated, updateItem, Spec.vscale, Spec.vadd.
  destruct isFormed; simpl; vec_eq.
Qed.

Lemma body_items (i : nat) (b : Batch) (item : Item) :
  items b !! i = Some item ->
  items (body i b) = <[i := updated i item]> (items b).
Proof.
  intros Hi. unfold updatePhysics_body. rewrite Hi.
  destruct (updateItem _ _ _ _ _ _ _ _ _ _ _ _) as [[it tv] to] eqn:E.
  simpl. f_equal.
  rewrite <- (updateItem_scratch i item (tempVec b) (tempObj b)), E.
  reflexivity.
Qed.

(** After [n] turns the first [n] items are updated, each once, and the
    others are as they were. *)
Lemma for_each_items (b : Batch) (n : nat) :
  (n <= length (items b))%nat ->
  let b' := for_each n body b in
  length (items b') = length (items b) /\
  forall (i : nat) (item : Item),
    items b !! i = Some item ->
    items b' !! i = Some (if (i <? n)%nat then updated i item else item).
Proof.
  induction n as [|n IH]; intros Hn; simpl.
  - split; [reflexivity|]. intros i item Hi. exact Hi.
  - destruct IH as [Hlen Hitems]; [lia|].
    destruct (lookup_lt_is_Some_2 (items b) n) as [itn Hitn]; [lia|].
    pose proof (Hitems n itn Hitn) as Hn'.
    rewrite Nat.ltb_irrefl in Hn'.
    rewrite (body_items n _ itn Hn').
    split.
    + rewrite length_insert. exact Hlen.
    + intros i item Hi.
      destruct (Nat.eq_dec i n) as [->|Hne].
      * rewrite list_lookup_insert_eq by (rewrite Hlen; lia).
        rewrite Hitn in Hi. injection Hi as ->.
        replace (n <? S n)%nat with true by (symmetry; apply Nat.ltb_lt; lia).
        reflexivity.
      * rewrite list_lookup_insert_ne by congruence.
        rewrite (Hitems i item Hi).
        destruct (i <? n)%nat eqn:E1; destruct (i <? S n)%nat eqn:E2;
          try reflexivity.
        -- apply Nat.ltb_lt in E1. apply Nat.ltb_ge in E2. lia.
        -- apply Nat.ltb_ge in E1. apply Nat.ltb_lt in E2. lia.
Qed.

(** [updatePhysics] updates every item of the batch, once. *)
Lemma updatePhysics_items (b : Batch) (i : nat) (item : Item) :
  items b !! i = Some item ->
  items (updatePhysics isFormed dt time b scaleBase stiffness damping
           noiseStrength orientToUp) !! i = Some (updated i item).
Proof.
  intros Hi. unfold updatePhysics. simpl.
  destruct (for_each_items b (length (items b)) (Nat.le_refl _)) as [_ H].
  rewrite (H i item Hi).
  replace (i <? length (items b))%nat with true; [reflexivity|].
  symmetry. apply Nat.ltb_lt. eapply lookup_lt_Some. exact Hi.
Qed.

End OrnamentPhysics.

Section OrnamentFrame.
Import JS THREE Ornaments.

Variables (isFormed : bool) (elapsedTime delta : R).

Lemma updateBatch_items (c : Constants) (its : list Item) (m : InstancedMesh)
    (tv : Vector3) (to : Object3D) (i : nat) (item : Item) :
  its !! i = Some item ->
  fst (fst (fst (updateBatch isFormed (JS.min delta 0.1) elapsedTime c its (Some m) tv to))) !! i
  = Some (updated isFormed (JS.min delta 0.1) elapsedTime (scaleBase c) (stiffness c)
            (damping c) (noiseStrength c) (orientToUp c) i item).
Proof.
  intros Hi. unfold updateBatch. cbn [fst].
  apply (updatePhysics_items _ _ _ _ _ _ _ _ (mkBatch its m tv to)). exact Hi.
Qed.

(** The items of a batch after the frame are those its own call of
    [updatePhysics] leaves, whatever the scratch objects hold by then. *)
Lemma useFrame_items (k : Kind) (st : State) :
  exists (tv : Vector3) (to : Object3D),
    itemsOf k (useFrame isFormed elapsedTime delta st) =
    fst (fst (fst (updateBatch isFormed (JS.min delta 0.1) elapsedTime (constantsOf k)
                     (itemsOf k st) (meshOf k st) tv to))).
Proof.
  unfold useFrame.
  destruct (updateBatch _ _ _ ballConstants _ _ _ _) as [[[b1 m1] tv1] to1] eqn:E1.
  destruct (updateBatch _ _ _ boxConstants _ _ _ _) as [[[b2 m2] tv2] to2] eqn:E2.
  destruct (updateBatch _ _ _ diamondConstants _ _ _ _) as [[[b3 m3] tv3] to3] eqn:E3.
  destruct (updateBatch _ _ _ ringConstants _ _ _ _) as [[[b4 m4] tv4] to4] eqn:E4.
  destruct (updateBatch _ _ _ icicleConstants _ _ _ _) as [[[b5 m5] tv5] to5] eqn:E5.
  destruct k; simpl.
  - exists (scratchVec st), (scratchObj st). now rewrite E1.
  - exists tv1, to1. now rewrite E2.
  - exists tv2, to2. now rewrite E3.
  - exists tv3, to3. now rewrite E4.
  - exists tv4, to4. now rewrite E5.
Qed.

Lemma damping_below_one (k : Kind) : 0 < damping (constantsOf k) < 1.
Proof. destruct k; simpl; lra. Qed.

End OrnamentFrame.

(** C3. On a frame, every ornament of every batch whose mesh is mounted is
    updated in this order: the pull [(destination - currentPos) * (stiffness /
    mass)] is added to the velocity; in CHAOS, and only there, the sine and
    cosine drift keyed by the elapsed time and the phase is added; the sum is
    multiplied by the damping constant, which is below 1 for all five
    batches; the position then advances by the damped velocity times
    [dt * 60], where [dt] is [delta] clamped to at most 0.1. *)
Theorem updatePhysics_pull_noise_damp_integrate
    (isFormed : bool) (elapsedTime delta : R) (st : Ornaments.State)
    (k : Ornaments.Kind) (i : nat) (item : Ornaments.Item) :
  Ornaments.meshOf k st <> None ->
  Ornaments.itemsOf k st !! i = Some item ->
  let c := Ornaments.constantsOf k in
  let dt := Rmin delta 0.1 in
  exists item' : Ornaments.Item,
    Ornaments.itemsOf k (Ornaments.useFrame isFormed elapsedTime delta st) !! i = Some item' /\
    Ornaments.velocity item' =
      Spec.vscale (Ornaments.damping c)
        (Spec.vadd
           (Spec.vadd (Ornaments.velocity item)
                      (Spec.pull isFormed (Ornaments.stiffness c) item))
           (Spec.noise isFormed elapsedTime (Ornaments.noiseStrength c) item)) /\
    Ornaments.currentPos item' =
      Spec.vadd (Ornaments.currentPos item)
                (Spec.vscale (dt * 60) (Ornaments.velocity item')) /\
    Ornaments.damping c < 1 /\
    dt <= 0.1.
Proof.
  intros Hmesh Hitem c dt.
  destruct (Ornaments.meshOf k st) as [m|] eqn:Em; [|congruence].
  destruct (useFrame_items isFormed elapsedTime delta k st) as (tv & to & Hk).
  rewrite Em in Hk.
  eexists. split.
  - rewrite Hk. apply updateBatch_items. exact Hitem.
  - split; [apply updated_velocity|].
    split; [apply updated_currentPos|].
    split; [apply damping_below_one | apply Rmin_r].
Qed.

Lemma updatePhysics_pull_noise_damp_integrate_witness :
  exists item' : Ornaments.Item,
    Ornaments.itemsOf Ornaments.Icicle
      (Ornaments.useFrame false 2 (1 / 60) Examples.ornaments) !! 0%nat = Some item' /\
    Ornaments.velocity item' =
      Spec.vscale (Ornaments.damping Ornaments.icicleConstants)
        (Spec.vadd
           (Spec.vadd (Ornaments.velocity Examples.ornament)
                      (Spec.pull false (Ornaments.stiffness Ornaments.icicleConstants)
                                 Examples.ornament))
           (Spec.noise false 2 (Ornaments.noiseStrength Ornaments.icicleConstants)
                       Examples.ornament)) /\
    Ornaments.currentPos item' =
      Spec.vadd (Ornaments.currentPos Examples.ornament)
                (Spec.vscale (Rmin (1 / 60) 0.1 * 60) (Ornaments.velocity item')) /\
    Ornaments.damping Ornaments.icicleConstants < 1 /\
    Rmin (1 / 60) 0.1 <= 0.1.
Proof.
  apply (updatePhysics_pull_noise_damp_integrate false 2 (1 / 60)
           Examples.ornaments Ornaments.Icicle 0 Examples.ornament).
  - simpl. discriminate.
  - reflexivity.
Defined.

(** ** The mode toggle *)

(** C4. Toggling the mode twice restores it, from either mode, and with it
    the whole state of the application; the destination that
    [updatePhysics] selects for an ornament, [isFormed ? targetPos :
    chaosPos], is therefore the one selected before the two toggles. *)
Theorem toggleState_twice_identity (st : App.State) (item : Ornaments.Item) :
  App.treeState (App.toggleState (App.toggleState st)) = App.treeState st /\
  App.toggleState (App.toggleState st) = st /\
  Spec.destination
    (Experience.isFormed (App.treeState (App.toggleState (App.toggleState st)))) item
  = Spec.destination (Experience.isFormed (App.treeState st)) item.
Proof.
  assert (H : App.toggleState (App.toggleState st) = st)
    by (destruct st as [[|] ? ? ? ? ?]; reflexivity).
  rewrite H. repeat split.
Qed.

(** ** The slideshow offset *)

Section Slideshow.
#[local] Open Scope Z_scope.

Lemma next_prev_offset (n p : Z) :
  1 <= n -> 0 <= p < n -> Z.rem (Z.rem (p + 1) n - 1 + n) n = p.
Proof.
  intros Hn Hp.
  destruct (Z.eq_dec (p + 1) n) as [E|E].
  - rewrite E, Z.rem_same by lia.
    rewrite Z.rem_small by lia. lia.
  - rewrite (Z.rem_small (p + 1) n) by lia.
    replace (p + 1 - 1 + n) with (p + 1 * n) by lia.
    rewrite Z.rem_add by lia.
    apply Z.rem_small. lia.
Qed.

End Slideshow.

(** C5. For a photo list of length at least 1 and an offset in [0, n),
    [handleNextPhoto] followed by [handlePrevPhoto] gives back the offset,
    and the whole state. *)
Theorem handleNextPhoto_handlePrevPhoto (st : App.State) :
  (1 <= Z.of_nat (length (App.userPhotos st)))%Z ->
  (0 <= App.photoOffset st < Z.of_nat (length (App.userPhotos st)))%Z ->
  App.photoOffset (App.handlePrevPhoto (App.handleNextPhoto st)) = App.photoOffset st /\
  App.handlePrevPhoto (App.handleNextPhoto st) = st.
Proof.
  intros Hn Hp.
  assert (H : App.handlePrevPhoto (App.handleNextPhoto st) = st).
  { unfold App.handlePrevPhoto, App.handleNextPhoto.
    destruct (Z.eqb_spec (Z.of_nat (length (App.userPhotos st))) 0) as [E|E]; [lia|].
    simpl.
    destruct (Z.eqb_spec (Z.of_nat (length (App.userPhotos st))) 0) as [E'|_]; [lia|].
    rewrite next_prev_offset by assumption.
    destruct st; reflexivity. }
  rewrite H. split; reflexivity.
Qed.

Lemma handleNextPhoto_handlePrevPhoto_witness :
  let st := App.mkState Types.CHAOS true App.DEFAULT_PHOTOS 5 false [] in
  App.photoOffset (App.handlePrevPhoto (App.handleNextPhoto st)) = App.photoOffset st /\
  App.handlePrevPhoto (App.handleNextPhoto st) = st.
Proof.
  apply handleNextPhoto_handlePrevPhoto; simpl; lia.
Defined.

(** ** The random source *)

Section RandomSource.
Import JS.

Lemma advances_ret {A} (a : A) : advances (ret a).
Proof. intros src. exists 0%nat. reflexivity. Qed.

Lemma advances_random : advances random.
Proof. intros src. exists 1%nat. reflexivity. Qed.

Lemma advances_bind {A B} (m : Rand A) (f : A -> Rand B) :
  advances m -> (forall a, advances (f a)) -> advances (bind m f).
Proof.
  intros Hm Hf src. unfold bind.
  destruct (Hm src) as [n Hn].
  destruct (m src) as [a src'] eqn:E. simpl in Hn.
  destruct (Hf a src') as [n' Hn'].
  exists (n + n')%nat. intros k.
  rewrite Hn', Hn. f_equal. lia.
Qed.

Lemma advances_for_range {S} (body : nat -> S -> Rand S) (n : nat) (s : S) :
  (forall i s, advances (body i s)) -> advances (for_range n body s).
Proof.
  intros Hbody. induction n as [|n IH]; simpl.
  - apply advances_ret.
  - apply advances_bind; [exact IH | intros a; apply Hbody].
Qed.

Lemma advances_in_unit {A} (m : Rand A) (src : RandomSource) :
  advances m -> in_unit src -> in_unit (snd (m src)).
Proof.
  intros Hm Hsrc k. destruct (Hm src) as [n Hn]. rewrite Hn. apply Hsrc.
Qed.

(** A loop keeps an invariant that each turn keeps, under sources that
    respect the range of [Math.random]. *)
Lemma for_range_invariant {S} (body : nat -> S -> Rand S) (Inv : nat -> S -> Prop)
    (n : nat) (s : S) (src : RandomSource) :
  (forall i s, advances (body i s)) ->
  (forall i s src, (i < n)%nat -> in_unit src -> Inv i s -> Inv (Datatypes.S i) (fst (body i s src))) ->
  in_unit src -> Inv 0%nat s ->
  Inv n (fst (for_range n body s src)).
Proof.
  intros Hadv Hstep Hsrc H0.
  induction n as [|n IH]; simpl.
  - exact H0.
  - unfold bind.
    pose proof (advances_in_unit (for_range n body s) src
                  (advances_for_range body n s Hadv) Hsrc) as Hsrc'.
    destruct (for_range n body s src) as [s' src'] eqn:E.
    simpl in Hsrc'.
    apply Hstep; [lia | exact Hsrc' |].
    apply IH. intros i s0 src0 Hi. apply Hstep. lia.
Qed.

Lemma floor_scaled_unit (u : R) (n : Z) :
  (0 < n)%Z -> 0 <= u < 1 -> (0 <= floor (u * IZR n) < n)%Z.
Proof.
  intros Hn Hu. unfold floor.
  assert (0 < IZR n) by (apply IZR_lt in Hn; exact Hn).
  pose proof (Zfloor_bound (u * IZR n)) as [Hlo Hhi].
  split.
  - apply Zfloor_lub. simpl. nra.
  - apply lt_IZR. nra.
Qed.

End RandomSource.

(** Solves [advances] goals of computations written with [draw]. *)
Ltac advances :=
  repeat first
    [ apply advances_ret
    | apply advances_random
    | apply advances_for_range; intros
    | apply advances_bind; [|intros]
    | match goal with |- JS.advances (match ?x with _ => _ end) => destruct x end
    | match goal with |- JS.advances (if ?x then _ else _) => destruct x end ].

(** ** Photos without photos *)

(** C9. With the photo list missing or empty, [Photos] returns [null] and
    fails in no case: it renders nothing, draws no random number, and,
    having called no hook, keeps none, whatever its other props and the
    hooks of the render before; so does the application's render of it. *)
Theorem Photos_null_without_photos
    (isFormed : bool) (count photoOffset : Z) (hooks : option Photos.Hooks)
    (src : JS.RandomSource) (a : App.State) :
  Photos.Photos isFormed count None photoOffset hooks src = ((None, None), src) /\
  (forall userPhotos : list string,
     length userPhotos = 0%nat ->
     Photos.Photos isFormed count (Some userPhotos) photoOffset hooks src
     = ((None, None), src)) /\
  (App.userPhotos a = [] -> Scene.renderApp a hooks src = ((None, None), src)).
Proof.
  split; [reflexivity|]. split.
  - intros userPhotos Hlen. unfold Photos.Photos. rewrite Hlen. reflexivity.
  - intros Ha. unfold Scene.renderApp. rewrite Ha. reflexivity.
Qed.

Lemma Photos_null_without_photos_witness :
  let a := App.mkState Types.CHAOS true [] 0 false [] in
  let hooks := Some (Photos.mkHooks 6 (Some false) []) in
  Photos.Photos false 12 (Some []) 0 hooks Examples.zeros = ((None, None), Examples.zeros) /\
  Scene.renderApp a hooks Examples.zeros = ((None, None), Examples.zeros).
Proof.
  intros a hooks.
  pose proof (Photos_null_without_photos false 12 0 hooks Examples.zeros a) as (_ & H1 & H2).
  split; [apply H1 | apply H2]; reflexivity.
Defined.

(** ** Uploads *)

Section Upload.
Variable createObjectURL : App.File -> string.

(** The loop over the files collects the URLs of the images, in order. *)
Lemma newPhotos_images (fs : list App.File) (acc : list string) :
  fold_left (fun newPhotos file =>
               if App.isImage file then (newPhotos ++ [createObjectURL file])%list
               else newPhotos) fs acc
  = (acc ++ map createObjectURL (List.filter App.isImage fs))%list.
Proof.
  revert acc. induction fs as [|f fs IH]; intros acc; simpl.
  - now rewrite app_nil_r.
  - rewrite IH. destruct (App.isImage f); [|reflexivity].
    simpl. now rewrite <- app_assoc.
Qed.

Lemma no_image_filter (fs : list App.File) :
  Forall (fun f => String.prefix "image/" (App.type f) = false) fs ->
  List.filter App.isImage fs = [].
Proof.
  induction 1 as [|f fs Hf _ IH]; [reflexivity|].
  simpl. unfold App.isImage at 1. rewrite Hf, andb_false_r. exact IH.
Qed.

(** An upload leaves the photo list as it was or replaces it by the
    non-empty list of the new images. *)
Lemma handlePhotoUpload_userPhotos (files : option (list App.File)) (st : App.State) :
  App.userPhotos (App.handlePhotoUpload createObjectURL files st) = App.userPhotos st \/
  App.userPhotos (App.handlePhotoUpload createObjectURL files st) <> [].
Proof.
  unfold App.handlePhotoUpload.
  destruct files as [fs|]; [|now left].
  destruct (0 <? Z.of_nat (length fs))%Z; [|now left].
  destruct (Z.ltb_spec 0 (Z.of_nat (length
    (fold_left (fun newPhotos file =>
               if App.isImage file then (newPhotos ++ [createObjectURL file])%list
               else newPhotos) fs [])))) as [Hlt|Hge].
  - right. simpl. intros E. rewrite E in Hlt. simpl in Hlt. lia.
  - now left.
Qed.

Lemma handle_userPhotos_nonempty (ev : Scene.Event) (st : App.State) :
  App.userPhotos st <> [] ->
  App.userPhotos (Scene.handle createObjectURL ev st) <> [].
Proof.
  intros Hne. destruct ev; simpl; try exact Hne.
  - destruct (handlePhotoUpload_userPhotos files st) as [E|E];
      [rewrite E; exact Hne | exact E].
  - unfold App.handleNextPhoto.
    destruct (Z.of_nat (length (App.userPhotos st)) =? 0)%Z; exact Hne.
  - unfold App.handlePrevPhoto.
    destruct (Z.of_nat (length (App.userPhotos st)) =? 0)%Z; exact Hne.
Qed.

Lemma step_app (ev : Scene.Event) (st : Scene.State) (src : JS.RandomSource) :
  Scene.app (fst (Scene.step createObjectURL ev st src)) =
  Scene.handle createObjectURL ev (Scene.app st).
Proof.
  unfold Scene.step, JS.bind.
  destruct (Scene.renderApp _ _ src) as [r src']. reflexivity.
Qed.

Lemma mount_app (src : JS.RandomSource) :
  Scene.app (fst (Scene.mount src)) = App.init.
Proof.
  unfold Scene.mount, JS.bind.
  destruct (Scene.renderApp _ _ src) as [r src']. reflexivity.
Qed.

Lemma run_userPhotos_nonempty (evs : list Scene.Event) :
  forall (st : Scene.State) (src : JS.RandomSource),
    App.userPhotos (Scene.app st) <> [] ->
    App.userPhotos (Scene.app (fst (Scene.run createObjectURL evs st src))) <> [].
Proof.
  induction evs as [|ev evs IH]; intros st src Hne; simpl.
  - exact Hne.
  - unfold JS.bind.
    pose proof (step_app ev st src) as Happ.
    destruct (Scene.step createObjectURL ev st src) as [st' src'].
    simpl in Happ. apply IH. rewrite Happ.
    now apply handle_userPhotos_nonempty.
Qed.

End Upload.

(** C10. If no selected file has a MIME type that starts with [image/],
    [handlePhotoUpload] leaves [userPhotos] and [photoOffset] as they were;
    an upload never turns a non-empty photo list into an empty one; and, the
    list starting as the non-empty default, it is non-empty after every
    sequence of events of the running application. *)
Theorem handlePhotoUpload_keeps_photos_nonempty (createObjectURL : App.File -> string) :
  (forall (files : option (list App.File)) (st : App.State),
     (forall fs, files = Some fs ->
        Forall (fun f => String.prefix "image/" (App.type f) = false) fs) ->
     App.userPhotos (App.handlePhotoUpload createObjectURL files st) = App.userPhotos st /\
     App.photoOffset (App.handlePhotoUpload createObjectURL files st) = App.photoOffset st) /\
  (forall (files : option (list App.File)) (st : App.State),
     App.userPhotos st <> [] ->
     App.userPhotos (App.handlePhotoUpload createObjectURL files st) <> []) /\
  (forall (evs : list Scene.Event) (src : JS.RandomSource),
     App.userPhotos
       (Scene.app (fst (Scene.run createObjectURL evs
                          (fst (Scene.mount src)) (snd (Scene.mount src))))) <> []).
Proof.
  split; [|split].
  - intros files st Hno. unfold App.handlePhotoUpload.
    destruct files as [fs|]; [|now split].
    destruct (0 <? Z.of_nat (length fs))%Z; [|now split].
    rewrite newPhotos_images, (no_image_filter fs (Hno fs eq_refl)).
    simpl. now split.
  - intros files st Hne.
    destruct (handlePhotoUpload_userPhotos createObjectURL files st) as [E|E];
      [rewrite E; exact Hne | exact E].
  - intros evs src. apply run_userPhotos_nonempty.
    rewrite mount_app. discriminate.
Qed.

Lemma handlePhotoUpload_keeps_photos_nonempty_witness :
  let createObjectURL := fun f : App.File => ("blob:" ++ App.name f)%string in
  let files := Some [App.mkFile "notes.txt" "text/plain"; App.mkFile "raw" ""] in
  App.userPhotos (App.handlePhotoUpload createObjectURL files App.init) = App.userPhotos App.init /\
  App.photoOffset (App.handlePhotoUpload createObjectURL files App.init) = App.photoOffset App.init.
Proof.
  intros createObjectURL files.
  apply (proj1 (handlePhotoUpload_keeps_photos_nonempty createObjectURL) files App.init).
  intros fs [= <-]. repeat constructor.
Defined.

(** ** The featured photo *)

Section Featured.
Import JS Types.
Variable createObjectURL : App.File -> string.

Lemma advances_genPhoto (i : nat) (data : list DualPosition) :
  advances (Photos.genPhoto i data).
Proof. unfold Photos.genPhoto. advances. Qed.

Lemma advances_mountHooks : advances Photos.mountHooks.
Proof. unfold Photos.mountHooks. advances. Qed.

Lemma advances_useEffect (isFormed : bool) (h : Photos.Hooks) :
  advances (Photos.useEffect isFormed h).
Proof. unfold Photos.useEffect. advances. Qed.

Lemma advances_Photos isFormed count userPhotos photoOffset hooks :
  advances (Photos.Photos isFormed count userPhotos photoOffset hooks).
Proof.
  unfold Photos.Photos. advances. apply advances_useEffect.
Qed.

Lemma advances_step (ev : Scene.Event) (st : Scene.State) :
  advances (Scene.step createObjectURL ev st).
Proof.
  unfold Scene.step.
  apply advances_bind; [apply advances_Photos | intros; apply advances_ret].
Qed.

Lemma advances_mount : advances Scene.mount.
Proof.
  unfold Scene.mount.
  apply advances_bind; [apply advances_Photos | intros; apply advances_ret].
Qed.

#[local] Abbreviation settled := Spec.settled.

(** The effect: it re-rolls on a change to CHAOS, keeps the index
    otherwise, and records the mode it ran for. *)
Lemma useEffect_spec (isFormed : bool) (h : Photos.Hooks) (src : RandomSource) :
  let h' := fst (Photos.useEffect isFormed h src) in
  Photos.effectDeps h' = Some isFormed \/ (h' = h /\ Photos.effectDeps h = Some isFormed).
Proof.
  unfold Photos.useEffect.
  destruct (Photos.effectDeps h) as [d|] eqn:Ed.
  - destruct (Bool.eqb d isFormed) eqn:E.
    + right. apply eqb_prop in E. subst d. split; reflexivity.
    + left. destruct isFormed; reflexivity.
  - left. destruct isFormed; reflexivity.
Qed.

Lemma useEffect_index (isFormed : bool) (h : Photos.Hooks) (src : RandomSource) :
  in_unit src ->
  (0 <= Photos.featuredIndex h < Photos.totalCount)%Z ->
  (0 <= Photos.featuredIndex (fst (Photos.useEffect isFormed h src)) < Photos.totalCount)%Z.
Proof.
  intros Hsrc Hh. unfold Photos.useEffect.
  assert (Hroll : (0 <= floor (src 0%nat * IZR Photos.totalCount) < Photos.totalCount)%Z)
    by (apply floor_scaled_unit; [reflexivity | apply Hsrc]).
  destruct (Photos.effectDeps h) as [d|];
    [destruct (Bool.eqb d isFormed)|]; destruct isFormed; simpl; assumption.
Qed.

Lemma useEffect_reroll (h : Photos.Hooks) (src : RandomSource) :
  Photos.effectDeps h = Some true ->
  Photos.featuredIndex (fst (Photos.useEffect false h src))
  = floor (src 0%nat * IZR Photos.totalCount).
Proof. intros Hd. unfold Photos.useEffect. rewrite Hd. reflexivity. Qed.

(** The hooks after a render of the application with photos. *)
Lemma renderApp_hooks (a : App.State) (h : Photos.Hooks) (src : RandomSource) :
  App.userPhotos a <> [] ->
  fst (fst (Scene.renderApp a (Some h) src)) =
  Some (fst (Photos.useEffect (Experience.isFormed (App.treeState a)) h src)).
Proof.
  intros Hne.
  assert (E0 : (Z.of_nat (length (App.userPhotos a)) =? 0)%Z = false).
  { apply Z.eqb_neq. destruct (App.userPhotos a); [congruence | simpl; lia]. }
  unfold Scene.renderApp, Photos.Photos. rewrite E0.
  unfold bind, ret at 1.
  destruct (Photos.useEffect _ h src) as [h' src']. reflexivity.
Qed.

Lemma step_photos (ev : Scene.Event) (st : Scene.State) (src : RandomSource) :
  Scene.photos (fst (Scene.step createObjectURL ev st src)) =
  fst (fst (Scene.renderApp (Scene.handle createObjectURL ev (Scene.app st))
                            (Scene.photos st) src)).
Proof.
  unfold Scene.step, bind.
  destruct (Scene.renderApp _ _ src) as [r src']. reflexivity.
Qed.

Lemma step_settled (ev : Scene.Event) (st : Scene.State) (src : RandomSource) :
  in_unit src -> settled st -> settled (fst (Scene.step createObjectURL ev st src)).
Proof.
  intros Hsrc (Hne & h & Hh & Hdeps & Hidx).
  assert (Hne' : App.userPhotos (Scene.handle createObjectURL ev (Scene.app st)) <> [])
    by now apply handle_userPhotos_nonempty.
  split; [now rewrite step_app|].
  rewrite step_photos, Hh, renderApp_hooks by exact Hne'.
  rewrite step_app.
  eexists. split; [reflexivity|]. split.
  - destruct (useEffect_spec
                (Experience.isFormed (App.treeState (Scene.handle createObjectURL ev (Scene.app st))))
                h src) as [E|[E1 E2]].
    + exact E.
    + rewrite E1. exact E2.
  - now apply useEffect_index.
Qed.

Lemma mount_settled (src : RandomSource) :
  in_unit src -> settled (fst (Scene.mount src)).
Proof.
  intros Hsrc. unfold Scene.mount, Scene.renderApp, Photos.Photos.
  simpl length. simpl (Z.of_nat 6 =? 0)%Z. cbv iota.
  unfold bind at 1 2 3.
  destruct (Photos.mountHooks src) as [h src'] eqn:Eh.
  assert (Hh : Photos.featuredIndex h = 0%Z /\ Photos.effectDeps h = None).
  { unfold Photos.mountHooks, bind in Eh.
    destruct (for_range _ _ _ src) as [d s'].
    unfold ret in Eh. injection Eh as <- _. split; reflexivity. }
  destruct Hh as [Hi Hd].
  unfold ret at 1.
  simpl (Experience.isFormed _).
  unfold Photos.useEffect. rewrite Hd. simpl.
  split; [discriminate|].
  eexists. split; [reflexivity|]. simpl.
  split; [reflexivity|]. rewrite Hi. unfold Photos.totalCount. lia.
Qed.

Lemma run_settled (evs : list Scene.Event) :
  forall (st : Scene.State) (src : RandomSource),
    in_unit src -> settled st ->
    settled (fst (Scene.run createObjectURL evs st src)) /\
    in_unit (snd (Scene.run createObjectURL evs st src)).
Proof.
  induction evs as [|ev evs IH]; intros st src Hsrc Hst; simpl.
  - split; assumption.
  - unfold bind.
    pose proof (step_settled ev st src Hsrc Hst) as Hst'.
    pose proof (advances_in_unit _ src (advances_step ev st) Hsrc) as Hsrc'.
    destruct (Scene.step createObjectURL ev st src) as [st' src'].
    now apply IH.
Qed.

End Featured.

(** C6. In the running application, on every event that takes the mode from
    FORMED to CHAOS, the render that follows sets the featured index to
    [floor (random * 12)] for a number drawn at that render, the next value
    of the random source, and the index is an integer in [0, 12). *)
Theorem featuredIndex_rerolled_on_chaos
    (createObjectURL : App.File -> string)
    (evs : list Scene.Event) (ev : Scene.Event) (src : JS.RandomSource) :
  JS.in_unit src ->
  let booted := Scene.mount src in
  let before := Scene.run createObjectURL evs (fst booted) (snd booted) in
  let after := Scene.step createObjectURL ev (fst before) (snd before) in
  App.treeState (Scene.app (fst before)) = Types.FORMED ->
  App.treeState (Scene.app (fst after)) = Types.CHAOS ->
  exists h : Photos.Hooks,
    Scene.photos (fst after) = Some h /\
    Photos.featuredIndex h = JS.floor (snd before 0%nat * 12) /\
    (0 <= Photos.featuredIndex h < 12)%Z.
Proof.
  intros Hsrc booted before after Hformed Hchaos.
  assert (Hboot : Spec.settled (fst booted) /\ JS.in_unit (snd booted)).
  { split; [now apply mount_settled|].
    apply advances_in_unit; [apply advances_mount | exact Hsrc]. }
  destruct Hboot as [Hb1 Hb2].
  destruct (run_settled createObjectURL evs (fst booted) (snd booted) Hb2 Hb1)
    as [Hst Hsrc'].
  fold before in Hst, Hsrc'.
  destruct Hst as (Hne & h & Hh & Hdeps & Hidx).
  subst after. rewrite step_app in Hchaos.
  rewrite step_photos, Hh, renderApp_hooks
    by now apply handle_userPhotos_nonempty.
  rewrite Hchaos. rewrite Hformed in Hdeps. simpl in Hdeps |- *.
  eexists. split; [reflexivity|].
  split.
  - now rewrite useEffect_reroll.
  - rewrite useEffect_reroll by exact Hdeps.
    apply (floor_scaled_unit (snd before 0%nat) 12); [reflexivity | apply Hsrc'].
Qed.

Lemma featuredIndex_rerolled_on_chaos_witness :
  let createObjectURL := fun f : App.File => ("blob:" ++ App.name f)%string in
  let evs := [Scene.Toggle; Scene.NextPhoto; Scene.Toggle] in
  let booted := Scene.mount Examples.halves in
  let before := Scene.run createObjectURL evs (fst booted) (snd booted) in
  let after := Scene.step createObjectURL Scene.Toggle (fst before) (snd before) in
  exists h : Photos.Hooks,
    Scene.photos (fst after) = Some h /\
    Photos.featuredIndex h = JS.floor (snd before 0%nat * 12) /\
    (0 <= Photos.featuredIndex h < 12)%Z.
Proof.
  intros createObjectURL evs booted before after.
  apply (featuredIndex_rerolled_on_chaos createObjectURL evs Scene.Toggle Examples.halves).
  - intros k. unfold Examples.halves. lra.
  - reflexivity.
  - reflexivity.
Defined.

(** ** The featured photo in front of the camera *)

Section FeaturedPlacement.
Import THREE Photos.

Variable applyQuaternion : Vector3 -> Quaternion -> Vector3.
Variable setFromEuler : Quaternion -> Euler -> Quaternion.
Variable slerp : Quaternion -> Quaternion -> R -> Quaternion.

(** The frame of a mounted, featured item in CHAOS, spelled out. *)
Lemma useFrame_featured (props : PhotoItemProps) (camera : Camera)
    (elapsedTime delta : R) (st : PhotoItemState) (g : Group) :
  isFormed props = false -> isFeatured props = true -> meshRef st = Some g ->
  let fwd := applyQuaternion (mkVector3 0 0 (-1)) (camera_quaternion camera) in
  let dest := mkVector3 (vx (camera_position camera) + vx fwd * 5)
                        (vy (camera_position camera) + vy fwd * 5 + 5)
                        (vz (camera_position camera) + vz fwd * 5) in
  useFrame applyQuaternion setFromEuler slerp props camera elapsedTime delta st =
  mkPhotoItemState
    (Some (mkGroup (Vec.lerp (position g) dest (delta * 2.0))
                   (slerp (quaternion g) (camera_quaternion camera) (delta * 2.0))
                   (Vec.setScalar (scale g) (lerp (vx (scale g)) 1.5 (delta * 2.0)))))
    dest (camera_quaternion camera)
    (Vec.multiplyScalar fwd 5).
Proof.
  intros Hf Hfe Hm fwd dest. unfold useFrame. rewrite Hm, Hf, Hfe.
  subst dest fwd. destruct (camera_quaternion camera). reflexivity.
Qed.

End FeaturedPlacement.

(** C8. On a frame in CHAOS, the destination of a featured, mounted photo is
    computed from the camera of that frame: in the frame of the parent group
    it is the camera position plus five times the camera's forward direction
    (the vector (0, 0, -1) rotated by the camera's quaternion), with 5 added
    to its y; in world space, the group being at [0, -5, 0], that is the
    point five units in front of the camera.  The target orientation is the
    camera's.  Neither depends on what the scratch objects held before, and
    the item moves towards that destination. *)
Theorem featured_photo_faces_camera
    (applyQuaternion : THREE.Vector3 -> THREE.Quaternion -> THREE.Vector3)
    (setFromEuler : THREE.Quaternion -> THREE.Euler -> THREE.Quaternion)
    (slerp : THREE.Quaternion -> THREE.Quaternion -> R -> THREE.Quaternion)
    (props : Photos.PhotoItemProps) (camera : Photos.Camera)
    (elapsedTime delta : R) (st : Photos.PhotoItemState) (g : Photos.Group) :
  Photos.isFormed props = false ->
  Photos.isFeatured props = true ->
  Photos.meshRef st = Some g ->
  let frame := Photos.useFrame applyQuaternion setFromEuler slerp props camera elapsedTime delta in
  let forward := applyQuaternion (THREE.mkVector3 0 0 (-1)) (Photos.camera_quaternion camera) in
  let inFront := Spec.vadd (Photos.camera_position camera) (Spec.vscale 5 forward) in
  Photos.targetPos (frame st) = Spec.vadd inFront (THREE.mkVector3 0 5 0) /\
  Experience.localToWorld (Photos.targetPos (frame st)) = inFront /\
  Photos.targetQuat (frame st) = Photos.camera_quaternion camera /\
  (exists g' : Photos.Group,
     Photos.meshRef (frame st) = Some g' /\
     Photos.position g' =
       THREE.Vec.lerp (Photos.position g) (Photos.targetPos (frame st)) (delta * 2)) /\
  (forall (st0 : Photos.PhotoItemState) (g0 : Photos.Group),
     Photos.meshRef st0 = Some g0 ->
     Photos.targetPos (frame st0) = Photos.targetPos (frame st) /\
     Photos.targetQuat (frame st0) = Photos.targetQuat (frame st)).
Proof.
  intros Hf Hfe Hm frame forward inFront. subst frame.
  rewrite (useFrame_featured _ _ _ props camera elapsedTime delta st g Hf Hfe Hm).
  cbn [Photos.targetPos Photos.targetQuat Photos.meshRef].
  split; [|split; [|split; [|split]]].
  - subst inFront forward. unfold Spec.vadd, Spec.vscale. vec_eq.
  - subst inFront forward.
    unfold Experience.localToWorld, Experience.groupPosition, Spec.vadd, Spec.vscale. vec_eq.
  - reflexivity.
  - eexists. split; [reflexivity|].
    cbn [Photos.position]. unfold THREE.Vec.lerp. simpl. f_equal; lra.
  - intros st0 g0 Hm0.
    rewrite (useFrame_featured _ _ _ props camera elapsedTime delta st0 g0 Hf Hfe Hm0).
    split; reflexivity.
Qed.

Lemma featured_photo_faces_camera_witness :
  let props := Photos.mkPhotoItemProps Examples.photo false 3 (Some "a.png"%string) true in
  let frame := Photos.useFrame Examples.applyQuaternion Examples.setFromEuler Examples.slerp
                 props Examples.camera 10 (1 / 60) in
  Photos.targetPos (frame Examples.photoItem) = THREE.mkVector3 0 9 15 /\
  Experience.localToWorld (Photos.targetPos (frame Examples.photoItem)) = THREE.mkVector3 0 4 15.
Proof.
  intros props frame.
  destruct (featured_photo_faces_camera Examples.applyQuaternion Examples.setFromEuler
              Examples.slerp props Examples.camera 10 (1 / 60) Examples.photoItem
              (Photos.mkGroup (THREE.mkVector3 3 5 0) (THREE.mkQuaternion 0 0 0 1)
                              (THREE.mkVector3 1.2 1.2 1.2))
              eq_refl eq_refl eq_refl) as (H1 & H2 & _).
  split.
  - etransitivity; [exact H1|].
    unfold Spec.vadd, Spec.vscale, Examples.applyQuaternion. simpl. f_equal; lra.
  - etransitivity; [exact H2|].
    unfold Spec.vadd, Spec.vscale, Examples.applyQuaternion. simpl. f_equal; lra.
Defined.

(** ** The generated layouts *)

Section Layouts.
Import JS THREE Types.


(** [cbrt] is the cube root on the non-negative numbers. *)
Lemma cbrt_cube (u : R) : 0 <= u -> cbrt u ^ 3 = u.
Proof.
  intros Hu. unfold cbrt.
  destruct (Rlt_dec 0 u) as [Hp|Hz].
  - rewrite <- Rpower_cube by (unfold Rpower; apply exp_pos).
    rewrite Rpower_mult. replace (/ 3 * 3) with 1 by lra.
    now apply Rpower_1.
  - destruct (Rlt_dec u 0); [lra|]. assert (u = 0) as -> by lra. ring.
Qed.


(** A point at distance [rad] from the axis, given by an angle. *)
Lemma circle_lengthSq (rad angle : R) :
  (rad * cos angle) * (rad * cos angle) + (rad * sin angle) * (rad * sin angle)
  = Rsqr rad.
Proof.
  pose proof (sin2_cos2 angle) as H. unfold Rsqr in *.
  replace (rad * cos angle * (rad * cos angle) + rad * sin angle * (rad * sin angle))
    with (rad * rad * (sin angle * sin angle + cos angle * cos angle)) by ring.
  rewrite H. ring.
Qed.

(** *** Reading and writing vectors in a typed array *)

Lemma set3_length (arr : list R) (off : nat) (x y z : R) :
  length (TreeParticles.set3 arr off x y z) = length arr.
Proof. unfold TreeParticles.set3. now rewrite !length_insert. Qed.



End Layouts.

Section FoliageLayout.
Import JS THREE Types.

Variable count : nat.


Lemma advances_genParticle (i : nat) (g : TreeParticles.Geometry) :
  advances (TreeParticles.genParticle i g).
Proof. unfold TreeParticles.genParticle. advances. Qed.



End FoliageLayout.

Section OrnamentLayout.
Import JS THREE Types.

Variable type : Ornaments.OrnamentType.

Lemma advances_genOrnament : advances (Ornaments.genOrnament type).
Proof. unfold Ornaments.genOrnament. destruct type; advances. Qed.



End OrnamentLayout.




(* ================================================================== *)
(** * Further properties of the code *)
(* ================================================================== *)

(** ** The progress uniform, frame by frame *)

Section ProgressError.
Import THREE TreeParticles.

(** The factor by which a frame shrinks the distance to the target. *)
Lemma frame_error (f : Frame) (m : FoliageMaterial) (target : R) :
  target = (if isFormed f then 1 else 0) ->
  exists m' : FoliageMaterial,
    frame f (Some m) = Some m' /\
    uTime m' = elapsedTime f /\
    target - uProgress m' = (1 - delta f * 1.5) * (target - uProgress m).
Proof.
  intros ->. eexists. split; [apply frame_mounted|].
  split; [reflexivity|]. simpl. unfold lerp. ring.
Qed.

End ProgressError.

(** X1. Over frames of one mode, each frame multiplies the distance of the
    progress uniform to its target (1 in FORMED, 0 in CHAOS) by
    [1 - delta * 1.5]: the distance after the frames is the product of these
    factors times the distance before.  A progress that is at its target
    stays there, whatever the [delta]s. *)
Theorem progress_error_is_product_of_factors
    (formed : bool) (fs : list TreeParticles.Frame) (m : TreeParticles.FoliageMaterial) :
  Forall (fun f => TreeParticles.isFormed f = formed) fs ->
  let target := if formed then 1 else 0 in
  exists m' : TreeParticles.FoliageMaterial,
    TreeParticles.frames fs (Some m) = Some m' /\
    target - TreeParticles.uProgress m' =
      fold_right (fun f acc => (1 - TreeParticles.delta f * 1.5) * acc) 1 fs
      * (target - TreeParticles.uProgress m) /\
    (TreeParticles.uProgress m = target -> TreeParticles.uProgress m' = target).
Proof.
  intros Hfs target.
  assert (H : exists m' : TreeParticles.FoliageMaterial,
            TreeParticles.frames fs (Some m) = Some m' /\
            target - TreeParticles.uProgress m' =
              fold_right (fun f acc => (1 - TreeParticles.delta f * 1.5) * acc) 1 fs
              * (target - TreeParticles.uProgress m)).
  { revert m. induction Hfs as [|f fs Hf _ IH]; intros m.
    - exists m. split; [reflexivity|]. simpl. ring.
    - destruct (frame_error f m target) as (m1 & E1 & _ & H1).
      { rewrite Hf. reflexivity. }
      destruct (IH m1) as (m' & E' & H').
      exists m'. split.
      + change (TreeParticles.frames (f :: fs) (Some m))
          with (TreeParticles.frames fs (TreeParticles.frame f (Some m))).
        rewrite E1. exact E'.
      + rewrite H', H1. simpl. ring. }
  destruct H as (m' & E & H). exists m'.
  split; [exact E|]. split; [exact H|].
  intros Hm. rewrite Hm, Rminus_diag, Rmult_0_r in H. lra.
Qed.

Lemma progress_error_is_product_of_factors_witness :
  let fs := [TreeParticles.mkFrame true 0 (1 / 3); TreeParticles.mkFrame true (1 / 3) 2] in
  exists m' : TreeParticles.FoliageMaterial,
    TreeParticles.frames fs (Some TreeParticles.newFoliageMaterial) = Some m' /\
    1 - TreeParticles.uProgress m' =
      fold_right (fun f acc => (1 - TreeParticles.delta f * 1.5) * acc) 1 fs
      * (1 - TreeParticles.uProgress TreeParticles.newFoliageMaterial) /\
    (TreeParticles.uProgress TreeParticles.newFoliageMaterial = 1 ->
     TreeParticles.uProgress m' = 1).
Proof.
  intros fs.
  apply (progress_error_is_product_of_factors true fs TreeParticles.newFoliageMaterial).
  repeat constructor.
Defined.

(** ** The attributes of the foliage geometry *)

Section TypedArrays.

(** The rounding keeps a number between two integers between them. *)
Lemma fround_between (fr : Float32.Rounding) (a b : Z) (x : R) :
  (Z.abs a <= 16777216)%Z -> (Z.abs b <= 16777216)%Z ->
  IZR a <= x <= IZR b ->
  IZR a <= Float32.fround fr x <= IZR b.
Proof.
  intros Ha Hb [Hax Hxb]. split.
  - rewrite <- (Float32.fround_integer fr a Ha).
    now apply Float32.fround_monotone.
  - rewrite <- (Float32.fround_integer fr b Hb).
    now apply Float32.fround_monotone.
Qed.

Lemma fround_nonneg (fr : Float32.Rounding) (x : R) : 0 <= x -> 0 <= Float32.fround fr x.
Proof.
  intros Hx. rewrite <- (Float32.fround_integer fr 0) by (simpl; lia).
  now apply Float32.fround_monotone.
Qed.

End TypedArrays.

Section FoliageAttributes.
Import JS THREE Types.

Variable count : nat.

Lemma genParticle_attributes (i : nat) (g : TreeParticles.Geometry) (src : RandomSource) :
  (i < count)%nat -> in_unit src -> Cover.attributes count i g ->
  Cover.attributes count (S i) (fst (TreeParticles.genParticle i g src)).
Proof.
  intros Hi Hsrc (Hlp & Hlt & Hls & Hlr & Hgood).
  unfold TreeParticles.genParticle, bind, random, ret. cbn [fst snd].
  unfold Cover.attributes.
  cbn [TreeParticles.positions TreeParticles.targets TreeParticles.scales
       TreeParticles.randoms].
  rewrite !set3_length, !length_insert.
  repeat (split; [assumption|]).
  intros j Hj.
  destruct (Nat.eq_dec j i) as [->|Hne].
  - rewrite !list_lookup_insert_eq by lia.
    pose proof (Hsrc 4%nat). pose proof (Hsrc 5%nat).
    eexists _, _. split; [reflexivity|]. split; [reflexivity|]. lra.
  - rewrite !list_lookup_insert_ne by congruence.
    apply Hgood. lia.
Qed.

Lemma genGeometry_attributes (src : RandomSource) :
  in_unit src ->
  Cover.attributes count count (fst (TreeParticles.genGeometry count src)).
Proof.
  intros Hsrc. unfold TreeParticles.genGeometry.
  apply (for_range_invariant TreeParticles.genParticle (Cover.attributes count)).
  - apply advances_genParticle.
  - intros. now apply genParticle_attributes.
  - exact Hsrc.
  - unfold Cover.attributes. simpl. rewrite !length_replicate.
    repeat (split; [reflexivity|]). intros j Hj. lia.
Qed.

End FoliageAttributes.

(** X2. Under a random source with values in [0, 1), the arrays of the
    generated geometry have the lengths they were allocated with
    ([count * 3] positions and targets, [count] scales and randoms), and
    every particle holds a scale in [0.5, 1] and a random attribute in
    [0, 1].  This is of the numbers the [Float32Array]s hold, for every
    rounding of the stores that is monotone and keeps 0, 1/2 and 1; both
    upper bounds are closed, since a store can round a number below 1 up
    to 1. *)
Theorem genGeometry_attribute_ranges
    (fr : Float32.Rounding) (count : nat) (src : JS.RandomSource) :
  JS.in_unit src ->
  let g := fst (TreeParticles.genGeometry count src) in
  length (Float32.held fr (TreeParticles.positions g)) = (count * 3)%nat /\
  length (Float32.held fr (TreeParticles.targets g)) = (count * 3)%nat /\
  length (Float32.held fr (TreeParticles.scales g)) = count /\
  length (Float32.held fr (TreeParticles.randoms g)) = count /\
  forall i : nat, (i < count)%nat ->
    exists s r : R,
      Float32.held fr (TreeParticles.scales g) !! i = Some s /\
      Float32.held fr (TreeParticles.randoms g) !! i = Some r /\
      0.5 <= s <= 1 /\ 0 <= r <= 1.
Proof.
  intros Hsrc g.
  destruct (genGeometry_attributes count src Hsrc) as (Hp & Ht & Hs & Hr & Hall).
  fold g in Hp, Ht, Hs, Hr, Hall.
  unfold Float32.held. rewrite !length_fmap.
  repeat (split; [assumption|]).
  intros i Hi. destruct (Hall i Hi) as (s & r & Es & Er & Bs & Br).
  exists (Float32.fround fr s), (Float32.fround fr r).
  rewrite !list_lookup_fmap, Es, Er.
  split; [reflexivity|]. split; [reflexivity|].
  pose proof (Float32.fround_half fr) as Hhalf.
  pose proof (fround_between fr 0 1 r) as Hr01.
  pose proof (fround_between fr 0 1 s) as Hs01.
  pose proof (Float32.fround_monotone fr (1 / 2) s) as Hs12.
  simpl in Hr01, Hs01.
  split; [split|].
  - rewrite Hhalf in Hs12. assert (1 / 2 <= Float32.fround fr s) by (apply Hs12; lra). lra.
  - apply Hs01; try lia; lra.
  - apply Hr01; try lia; lra.
Qed.

Lemma genGeometry_attribute_ranges_witness :
  let fr := Examples.eighths in
  let g := fst (TreeParticles.genGeometry 4 Examples.halves) in
  length (Float32.held fr (TreeParticles.positions g)) = 12%nat /\
  length (Float32.held fr (TreeParticles.targets g)) = 12%nat /\
  length (Float32.held fr (TreeParticles.scales g)) = 4%nat /\
  length (Float32.held fr (TreeParticles.randoms g)) = 4%nat /\
  forall i : nat, (i < 4)%nat ->
    exists s r : R,
      Float32.held fr (TreeParticles.scales g) !! i = Some s /\
      Float32.held fr (TreeParticles.randoms g) !! i = Some r /\
      0.5 <= s <= 1 /\ 0 <= r <= 1.
Proof.
  apply (genGeometry_attribute_ranges Examples.eighths 4 Examples.halves).
  intros k. unfold Examples.halves. lra.
Defined.

(** ** The shaders *)

Section Shaders.
Import THREE FoliageShader.

Lemma ease_in_unit (p : R) : 0 <= p <= 1 -> 0 <= 1 - (1 - p) ^ 3 <= 1.
Proof.
  intros Hp.
  assert (0 <= (1 - p) ^ 3 <= 1).
  { assert (0 <= (1 - p) * (1 - p) <= 1) by nra. simpl. nra. }
  lra.
Qed.

Lemma wind_bound (a : R) : -0.05 <= sin a * 0.05 <= 0.05.
Proof. pose proof (SIN_bound a). lra. Qed.

(** The vertex shader on a progress in [0, 1], spelled out. *)
Lemma vertexMain_defined (uTime uProgress : R) (v : Vertex) :
  0 <= uProgress <= 1 ->
  exists out : Varyings,
    vertexMain uTime uProgress v = Some out /\
    let t := 1 - (1 - uProgress) ^ 3 in
    let wind := sin (uTime * 2.0 + mix (vy (position v)) (vy (aTargetPos v)) t * 0.5
                     + aRandom v * 10.0) * 0.05 in
    finalPos out =
      mkVector3 (mix (vx (position v)) (vx (aTargetPos v)) t + wind)
                (mix (vy (position v)) (vy (aTargetPos v)) t)
                (mix (vz (position v)) (vz (aTargetPos v)) t + wind) /\
    vAlpha out = 1 /\
    let base := mix3 (mkVector3 0.0 0.3 0.1) (mkVector3 1.0 0.84 0.0)
                     (step 0.85 (aRandom v)) in
    (vColor out = base \/
     (0.5 < t /\ vColor out = mkVector3 (vx base + 0.5) (vy base + 0.5) (vz base + 0.5))).
Proof.
  intros Hp. unfold vertexMain. rewrite easeOutCubic_poly by exact Hp.
  eexists. split; [reflexivity|]. cbn [finalPos vAlpha vColor].
  split; [reflexivity|]. split; [lra|].
  destruct (Rlt_dec 0.9 _); [|now left].
  destruct (Rlt_dec 0.5 _) as [Ht|]; [|now left].
  right. split; [exact Ht | reflexivity].
Qed.

Lemma sqrt_le_bound (x b : R) : 0 <= x -> 0 <= b -> (sqrt x <= b <-> x <= b * b).
Proof.
  intros Hx Hb. split; intros H.
  - rewrite <- (sqrt_sqrt x Hx). apply Rmult_le_compat; try apply sqrt_pos; assumption.
  - rewrite <- (sqrt_square b Hb). now apply sqrt_le_1_alt.
Qed.

End Shaders.

(** X3. For a progress in [0, 1] the vertex shader is defined and places
    the vertex on the segment from its chaos position to its target
    position, at the eased progress [t = 1 - (1 - progress)^3], displaced by
    one and the same wind term of magnitude at most 0.05 along x and z and
    not at all along y.  At progress 0 that is the chaos position and at
    progress 1 the target position, up to the wind. *)
Theorem vertex_between_chaos_and_target
    (uTime uProgress : R) (v : FoliageShader.Vertex) :
  0 <= uProgress <= 1 ->
  exists (out : FoliageShader.Varyings) (t wind : R),
    FoliageShader.vertexMain uTime uProgress v = Some out /\
    t = 1 - (1 - uProgress) ^ 3 /\ 0 <= t <= 1 /\
    -0.05 <= wind <= 0.05 /\
    FoliageShader.finalPos out =
      Spec.vadd
        (Spec.vadd (Spec.vscale (1 - t) (FoliageShader.position v))
                   (Spec.vscale t (FoliageShader.aTargetPos v)))
        (THREE.mkVector3 wind 0 wind) /\
    (uProgress = 0 ->
       FoliageShader.finalPos out =
       Spec.vadd (FoliageShader.position v) (THREE.mkVector3 wind 0 wind)) /\
    (uProgress = 1 ->
       FoliageShader.finalPos out =
       Spec.vadd (FoliageShader.aTargetPos v) (THREE.mkVector3 wind 0 wind)).
Proof.
  intros Hp.
  destruct (vertexMain_defined uTime uProgress v Hp) as (out & E & Hpos & _).
  cbv zeta in Hpos.
  set (t := 1 - (1 - uProgress) ^ 3) in *.
  set (w := sin _ * 0.05) in Hpos.
  exists out, t, w.
  split; [exact E|]. split; [reflexivity|].
  split; [now apply ease_in_unit|].
  split; [apply wind_bound|].
  rewrite Hpos. unfold Spec.vadd, Spec.vscale, FoliageShader.mix.
  cbn [THREE.vx THREE.vy THREE.vz].
  split; [f_equal; ring|].
  split; intros Hu; f_equal; subst t; rewrite Hu; ring.
Qed.

Lemma vertex_between_chaos_and_target_witness :
  let v := FoliageShader.mkVertex (THREE.mkVector3 10 7 (-3)) (THREE.mkVector3 1 4 0) (3 / 4) (9 / 10) in
  exists (out : FoliageShader.Varyings) (t wind : R),
    FoliageShader.vertexMain 2 (1 / 2) v = Some out /\
    t = 1 - (1 - 1 / 2) ^ 3 /\ 0 <= t <= 1 /\
    -0.05 <= wind <= 0.05 /\
    FoliageShader.finalPos out =
      Spec.vadd
        (Spec.vadd (Spec.vscale (1 - t) (FoliageShader.position v))
                   (Spec.vscale t (FoliageShader.aTargetPos v)))
        (THREE.mkVector3 wind 0 wind) /\
    (1 / 2 = 0 ->
       FoliageShader.finalPos out =
       Spec.vadd (FoliageShader.position v) (THREE.mkVector3 wind 0 wind)) /\
    (1 / 2 = 1 ->
       FoliageShader.finalPos out =
       Spec.vadd (FoliageShader.aTargetPos v) (THREE.mkVector3 wind 0 wind)).
Proof.
  intros v. apply (vertex_between_chaos_and_target 2 (1 / 2) v). lra.
Defined.

(** X4. For a progress in [0, 1] the vertex shader gives every vertex the
    alpha 1 and one of two base colours, by its random attribute alone: the
    green (0, 0.3, 0.1) below 0.85 and the gold (1, 0.84, 0) from 0.85 on.
    The colour is the base colour or the base colour brightened by 0.5, and
    it is never brightened while the progress is at most 0.2 (the eased
    progress is then below one half). *)
Theorem vertex_colour_by_random_attribute
    (uTime uProgress : R) (v : FoliageShader.Vertex) :
  0 <= uProgress <= 1 ->
  exists (out : FoliageShader.Varyings) (base : THREE.Vector3),
    FoliageShader.vertexMain uTime uProgress v = Some out /\
    FoliageShader.vAlpha out = 1 /\
    (FoliageShader.aRandom v < 0.85 -> base = THREE.mkVector3 0 0.3 0.1) /\
    (0.85 <= FoliageShader.aRandom v -> base = THREE.mkVector3 1 0.84 0) /\
    (FoliageShader.vColor out = base \/
     FoliageShader.vColor out = Spec.vadd base (THREE.mkVector3 0.5 0.5 0.5)) /\
    (uProgress <= 0.2 -> FoliageShader.vColor out = base).
Proof.
  intros Hp.
  destruct (vertexMain_defined uTime uProgress v Hp) as (out & E & _ & Ha & Hc).
  cbv zeta in Hc.
  set (base := FoliageShader.mix3 _ _ _) in Hc.
  exists out, base. split; [exact E|]. split; [exact Ha|].
  split; [|split; [|split]].
  - intros Hr. subst base.
    unfold FoliageShader.mix3, FoliageShader.mix, FoliageShader.step.
    destruct (Rlt_dec _ _); [|lra]. simpl. f_equal; lra.
  - intros Hr. subst base.
    unfold FoliageShader.mix3, FoliageShader.mix, FoliageShader.step.
    destruct (Rlt_dec _ _); [lra|]. simpl. f_equal; lra.
  - destruct Hc as [Hc|[_ Hc]]; [now left | right].
    rewrite Hc. reflexivity.
  - intros Hlow. destruct Hc as [Hc|[Ht _]]; [exact Hc|].
    exfalso.
    assert (0.8 <= 1 - uProgress <= 1) by lra.
    assert (0.64 <= (1 - uProgress) * (1 - uProgress)) by nra.
    assert (0.512 <= (1 - uProgress) ^ 3) by (simpl; nra).
    lra.
Qed.

Lemma vertex_colour_by_random_attribute_witness :
  let v := FoliageShader.mkVertex (THREE.mkVector3 10 7 (-3)) (THREE.mkVector3 1 4 0) (3 / 4) (9 / 10) in
  exists (out : FoliageShader.Varyings) (base : THREE.Vector3),
    FoliageShader.vertexMain 2 (1 / 10) v = Some out /\
    FoliageShader.vAlpha out = 1 /\
    (FoliageShader.aRandom v < 0.85 -> base = THREE.mkVector3 0 0.3 0.1) /\
    (0.85 <= FoliageShader.aRandom v -> base = THREE.mkVector3 1 0.84 0) /\
    (FoliageShader.vColor out = base \/
     FoliageShader.vColor out = Spec.vadd base (THREE.mkVector3 0.5 0.5 0.5)) /\
    (1 / 10 <= 0.2 -> FoliageShader.vColor out = base).
Proof.
  intros v. apply (vertex_colour_by_random_attribute 2 (1 / 10) v). lra.
Defined.

(** X5. The fragment shader draws a disc: a point of the sprite is
    discarded exactly when it is farther than 0.5 from the centre
    (0.5, 0.5); a point that is kept has the colour of the vertex and an
    alpha between 0 and the vertex's alpha, which is the vertex's alpha
    itself within 0.4 of the centre. *)
Theorem fragment_is_a_soft_disc
    (coordX coordY : R) (vColor : THREE.Vector3) (vAlpha : R) :
  0 <= vAlpha ->
  let d2 := (coordX - 0.5) * (coordX - 0.5) + (coordY - 0.5) * (coordY - 0.5) in
  (FoliageShader.fragmentMain coordX coordY vColor vAlpha = None <-> 0.25 < d2) /\
  (d2 <= 0.25 ->
     exists alpha : R,
       FoliageShader.fragmentMain coordX coordY vColor vAlpha = Some (vColor, alpha) /\
       0 <= alpha <= vAlpha /\
       (d2 <= 0.16 -> alpha = vAlpha)).
Proof.
  intros Ha d2.
  assert (Hd2 : 0 <= d2).
  { pose proof (Rle_0_sqr (coordX - 0.5)) as Hx.
    pose proof (Rle_0_sqr (coordY - 0.5)) as Hy.
    unfold Rsqr in Hx, Hy. subst d2. lra. }
  assert (Hhalf : sqrt d2 <= 0.5 <-> d2 <= 0.25).
  { rewrite sqrt_le_bound by lra. split; lra. }
  unfold FoliageShader.fragmentMain. fold d2.
  split.
  - destruct (Rlt_dec 0.5 (sqrt d2)) as [Hout|Hin].
    + split; [intros _ | reflexivity].
      destruct (Rle_dec d2 0.25) as [Hle|]; [|lra].
      apply Hhalf in Hle. lra.
    + split; [discriminate|]. intros Hgt. exfalso. apply Hin.
      destruct (Rlt_dec 0.5 (sqrt d2)); [assumption|].
      assert (sqrt d2 <= 0.5) by lra. apply Hhalf in H. lra.
  - intros Hin. destruct (Rlt_dec 0.5 (sqrt d2)) as [Hout|_].
    + apply Hhalf in Hin. lra.
    + eexists. split; [reflexivity|].
      unfold FoliageShader.smoothstep, FoliageShader.clamp.
      set (x := (sqrt d2 - 0.4) / (0.5 - 0.4)).
      assert (Ht : 0 <= Rmin (Rmax x 0) 1 <= 1).
      { split.
        - apply Rmin_glb; [apply Rmax_r | lra].
        - apply Rmin_r. }
      set (t := Rmin (Rmax x 0) 1) in *.
      assert (Hs : 0 <= t * t * (3 - 2 * t) <= 1).
      { assert (H1 : 0 <= t * t) by nra.
        assert (H2 : 0 <= t * t * (3 - 2 * t)) by (apply Rmult_le_pos; lra).
        assert (H3 : 0 <= (1 - t) * (1 - t)) by nra.
        assert (H4 : 0 <= (1 - t) * (1 - t) * (1 + 2 * t)) by (apply Rmult_le_pos; lra).
        split; [exact H2|].
        replace (t * t * (3 - 2 * t)) with (1 - (1 - t) * (1 - t) * (1 + 2 * t)) by ring.
        lra. }
      split; [split; nra|].
      intros Hnear.
      assert (sqrt d2 <= 0.4) by (apply sqrt_le_bound; lra).
      assert (Hx : x <= 0) by (unfold x; unfold Rdiv; nra).
      assert (Ht0 : t = 0).
      { subst t. rewrite Rmax_right by assumption. apply Rmin_left. lra. }
      rewrite Ht0. lra.
Qed.

Lemma fragment_is_a_soft_disc_witness :
  let d2 := (0.5 - 0.5) * (0.5 - 0.5) + (0.8 - 0.5) * (0.8 - 0.5) in
  (FoliageShader.fragmentMain 0.5 0.8 (THREE.mkVector3 1 0.84 0) 1 = None <-> 0.25 < d2) /\
  (d2 <= 0.25 ->
     exists alpha : R,
       FoliageShader.fragmentMain 0.5 0.8 (THREE.mkVector3 1 0.84 0) 1
       = Some (THREE.mkVector3 1 0.84 0, alpha) /\
       0 <= alpha <= 1 /\
       (d2 <= 0.16 -> alpha = 1)).
Proof.
  apply (fragment_is_a_soft_disc 0.5 0.8 (THREE.mkVector3 1 0.84 0) 1). lra.
Defined.

(** ** The ornaments over a session *)

Section OrnamentSession.
Import JS THREE Ornaments.

Lemma updatePhysics_items_lookup (isFormed : bool) (dt time : R) (b : Batch)
    (scaleBase stiffness damping noiseStrength : R) (orientToUp : bool) (i : nat) :
  items (updatePhysics isFormed dt time b scaleBase stiffness damping
           noiseStrength orientToUp) !! i
  = updated isFormed dt time scaleBase stiffness damping noiseStrength orientToUp i
      <$> items b !! i.
Proof.
  destruct (items b !! i) as [item|] eqn:Hi.
  - now apply updatePhysics_items.
  - unfold updatePhysics. cbn [items].
    destruct (for_each_items isFormed dt time scaleBase stiffness damping
                noiseStrength orientToUp b (length (items b)) (Nat.le_refl _))
      as [Hlen _].
    apply lookup_ge_None_2. rewrite Hlen. now apply lookup_ge_None_1.
Qed.

(** The batch that a call of the frame works on, whatever the scratch
    objects hold by then. *)
Lemma useFrame_batch (isFormed : bool) (elapsedTime delta : R) (k : Kind) (st : State) :
  exists (tv : Vector3) (to : Object3D),
    itemsOf k (useFrame isFormed elapsedTime delta st) =
      fst (fst (fst (updateBatch isFormed (JS.min delta 0.1) elapsedTime (constantsOf k)
                       (itemsOf k st) (meshOf k st) tv to))) /\
    meshOf k (useFrame isFormed elapsedTime delta st) =
      snd (fst (fst (updateBatch isFormed (JS.min delta 0.1) elapsedTime (constantsOf k)
                       (itemsOf k st) (meshOf k st) tv to))).
Proof.
  unfold useFrame.
  destruct (updateBatch _ _ _ ballConstants _ _ _ _) as [[[b1 m1] tv1] to1] eqn:E1.
  destruct (updateBatch _ _ _ boxConstants _ _ _ _) as [[[b2 m2] tv2] to2] eqn:E2.
  destruct (updateBatch _ _ _ diamondConstants _ _ _ _) as [[[b3 m3] tv3] to3] eqn:E3.
  destruct (updateBatch _ _ _ ringConstants _ _ _ _) as [[[b4 m4] tv4] to4] eqn:E4.
  destruct (updateBatch _ _ _ icicleConstants _ _ _ _) as [[[b5 m5] tv5] to5] eqn:E5.
  destruct k; simpl.
  - exists (scratchVec st), (scratchObj st). now rewrite E1.
  - exists tv1, to1. now rewrite E2.
  - exists tv2, to2. now rewrite E3.
  - exists tv3, to3. now rewrite E4.
  - exists tv4, to4. now rewrite E5.
Qed.

(** A frame acts on every batch item by item. *)
Lemma useFrame_lookup (isFormed : bool) (elapsedTime delta : R) (k : Kind) (st : State)
    (i : nat) :
  itemsOf k (useFrame isFormed elapsedTime delta st) !! i
  = Cover.frameItem isFormed elapsedTime delta k st i <$> itemsOf k st !! i.
Proof.
  destruct (useFrame_batch isFormed elapsedTime delta k st) as (tv & to & -> & _).
  unfold Cover.frameItem, updateBatch.
  destruct (meshOf k st) as [m|]; cbn [fst].
  - apply (updatePhysics_items_lookup _ _ _ (mkBatch (itemsOf k st) m tv to)).
  - now destruct (itemsOf k st !! i).
Qed.

Lemma frameItem_same_data isFormed elapsedTime delta k st i item :
  Cover.same_data item (Cover.frameItem isFormed elapsedTime delta k st i item).
Proof.
  unfold Cover.frameItem, Cover.same_data.
  destruct (meshOf k st); repeat split.
Qed.

Lemma frameItem_at_rest elapsedTime delta k st i item :
  Cover.at_rest item ->
  Cover.at_rest (Cover.frameItem true elapsedTime delta k st i item).
Proof.
  intros [Hpos Hvel]. unfold Cover.frameItem.
  destruct (meshOf k st); [|now split].
  assert (Hv : velocity (updated true (JS.min delta 0.1) elapsedTime
                 (scaleBase (constantsOf k)) (stiffness (constantsOf k))
                 (damping (constantsOf k)) (noiseStrength (constantsOf k))
                 (orientToUp (constantsOf k)) i item) = mkVector3 0 0 0).
  { rewrite updated_velocity.
    unfold Spec.pull, Spec.noise, Spec.destination. rewrite Hvel, Hpos.
    unfold Spec.vscale, Spec.vadd, Spec.vsub. simpl. f_equal; unfold Rdiv; ring. }
  split; [|exact Hv].
  rewrite updated_currentPos, Hv, Hpos.
  change (targetPos (updated true (JS.min delta 0.1) elapsedTime
            (scaleBase (constantsOf k)) (stiffness (constantsOf k))
            (damping (constantsOf k)) (noiseStrength (constantsOf k))
            (orientToUp (constantsOf k)) i item)) with (targetPos item).
  destruct (targetPos item).
  unfold Spec.vadd, Spec.vscale. simpl. f_equal; ring.
Qed.

(** A property of the items that every frame of a session keeps is kept
    by the session, item by item. *)
Lemma session_lookup (P : Item -> Item -> Prop) (fs : list TreeParticles.Frame) (k : Kind) :
  (forall item, P item item) ->
  (forall f st i item item',
     In f fs -> P item item' ->
     P item (Cover.frameItem (TreeParticles.isFormed f) (TreeParticles.elapsedTime f)
                             (TreeParticles.delta f) k st i item')) ->
  forall (st : State) (i : nat) (item : Item),
    itemsOf k st !! i = Some item ->
    exists item' : Item,
      itemsOf k (Session.ornaments fs st) !! i = Some item' /\ P item item'.
Proof.
  intros Hrefl Hstep.
  assert (H : forall (st0 st : State) (i : nat) (item item0 : Item),
            itemsOf k st !! i = Some item -> P item0 item ->
            exists item' : Item,
              itemsOf k (Session.ornaments fs st) !! i = Some item' /\ P item0 item').
  { clear Hrefl. induction fs as [|f fs IH]; intros st0 st i item item0 Hi HP.
    - exists item. split; assumption.
    - change (Session.ornaments (f :: fs) st)
        with (Session.ornaments fs
                (useFrame (TreeParticles.isFormed f) (TreeParticles.elapsedTime f)
                          (TreeParticles.delta f) st)).
      apply (IH (fun f' st' i' a b Hin => Hstep f' st' i' a b (or_intror Hin)) st0 _ i
                (Cover.frameItem (TreeParticles.isFormed f) (TreeParticles.elapsedTime f)
                                 (TreeParticles.delta f) k st i item)).
      + rewrite useFrame_lookup, Hi. reflexivity.
      + apply Hstep; [now left | exact HP]. }
  intros st i item Hi. apply (H st st i item item Hi). apply Hrefl.
Qed.

Lemma session_length (fs : list TreeParticles.Frame) (k : Kind) :
  forall st : State,
    length (itemsOf k (Session.ornaments fs st)) = length (itemsOf k st).
Proof.
  induction fs as [|f fs IH]; intros st; [reflexivity|].
  change (Session.ornaments (f :: fs) st)
    with (Session.ornaments fs
            (useFrame (TreeParticles.isFormed f) (TreeParticles.elapsedTime f)
                      (TreeParticles.delta f) st)).
  rewrite IH.
  apply Nat.le_antisymm.
  - destruct (Nat.le_gt_cases (length (itemsOf k (useFrame (TreeParticles.isFormed f)
                (TreeParticles.elapsedTime f) (TreeParticles.delta f) st)))
                (length (itemsOf k st))) as [H|H]; [exact H|].
    destruct (lookup_lt_is_Some_2 _ _ H) as [x Hx].
    rewrite useFrame_lookup in Hx.
    rewrite (lookup_ge_None_2 (itemsOf k st) (length (itemsOf k st))) in Hx by lia.
    discriminate.
  - destruct (Nat.le_gt_cases (length (itemsOf k st))
                (length (itemsOf k (useFrame (TreeParticles.isFormed f)
                   (TreeParticles.elapsedTime f) (TreeParticles.delta f) st)))) as [H|H];
      [exact H|].
    destruct (lookup_lt_is_Some_2 _ _ H) as [x Hx].
    pose proof (useFrame_lookup (TreeParticles.isFormed f) (TreeParticles.elapsedTime f)
                  (TreeParticles.delta f) k st
                  (length (itemsOf k (useFrame (TreeParticles.isFormed f)
                     (TreeParticles.elapsedTime f) (TreeParticles.delta f) st)))) as E.
    rewrite Hx in E.
    rewrite lookup_ge_None_2 in E by lia. discriminate.
Qed.

End OrnamentSession.

(** X6. Over any session, whatever the modes and the frame times, and
    whether the meshes are mounted or not, every batch keeps its number of
    ornaments, and every ornament keeps the data it was generated with: its
    chaos position, its target position, its rotation velocity, its mass and
    its phase.  The frames change the current position, the velocity and the
    rotation only. *)
Theorem session_keeps_generated_data
    (fs : list TreeParticles.Frame) (k : Ornaments.Kind) (st : Ornaments.State) :
  length (Ornaments.itemsOf k (Session.ornaments fs st)) = length (Ornaments.itemsOf k st) /\
  forall (i : nat) (item : Ornaments.Item),
    Ornaments.itemsOf k st !! i = Some item ->
    exists item' : Ornaments.Item,
      Ornaments.itemsOf k (Session.ornaments fs st) !! i = Some item' /\
      Ornaments.chaosPos item' = Ornaments.chaosPos item /\
      Ornaments.targetPos item' = Ornaments.targetPos item /\
      Ornaments.rotVelocity item' = Ornaments.rotVelocity item /\
      Ornaments.mass item' = Ornaments.mass item /\
      Ornaments.phase item' = Ornaments.phase item.
Proof.
  split; [apply session_length|].
  intros i item Hi.
  apply (session_lookup Cover.same_data fs k); [| |exact Hi].
  - intros it. repeat split.
  - intros f st0 j it it' _ (H1 & H2 & H3 & H4 & H5).
    destruct (frameItem_same_data (TreeParticles.isFormed f) (TreeParticles.elapsedTime f)
                (TreeParticles.delta f) k st0 j it') as (G1 & G2 & G3 & G4 & G5).
    repeat split; congruence.
Qed.

Lemma session_keeps_generated_data_witness :
  let fs := [TreeParticles.mkFrame false 0 (1 / 60); TreeParticles.mkFrame true 1 3] in
  exists item' : Ornaments.Item,
    Ornaments.itemsOf Ornaments.Ball (Session.ornaments fs Examples.ornaments) !! 0%nat
    = Some item' /\
    Ornaments.chaosPos item' = Ornaments.chaosPos Examples.ornament /\
    Ornaments.targetPos item' = Ornaments.targetPos Examples.ornament /\
    Ornaments.rotVelocity item' = Ornaments.rotVelocity Examples.ornament /\
    Ornaments.mass item' = Ornaments.mass Examples.ornament /\
    Ornaments.phase item' = Ornaments.phase Examples.ornament.
Proof.
  intros fs.
  apply (proj2 (session_keeps_generated_data fs Ornaments.Ball Examples.ornaments)
               0%nat Examples.ornament).
  reflexivity.
Defined.

(** X7. An ornament that is at rest at its target position (current
    position equal to the target position, velocity zero) stays exactly
    there, with velocity zero, over every session in FORMED, whatever the
    frame times: the tree does not drift. *)
Theorem ornaments_at_rest_stay_in_formed
    (fs : list TreeParticles.Frame) (k : Ornaments.Kind) (st : Ornaments.State)
    (i : nat) (item : Ornaments.Item) :
  Forall (fun f => TreeParticles.isFormed f = true) fs ->
  Ornaments.itemsOf k st !! i = Some item ->
  Cover.at_rest item ->
  exists item' : Ornaments.Item,
    Ornaments.itemsOf k (Session.ornaments fs st) !! i = Some item' /\
    Ornaments.currentPos item' = Ornaments.targetPos item /\
    Ornaments.velocity item' = THREE.mkVector3 0 0 0.
Proof.
  intros Hfs Hi Hrest.
  destruct (session_lookup
              (fun a b => Cover.at_rest a ->
                          Cover.at_rest b /\ Ornaments.targetPos b = Ornaments.targetPos a)
              fs k) with (st := st) (i := i) (item := item) as (item' & Hi' & H).
  - intros it Hit. split; [exact Hit | reflexivity].
  - intros f st0 j it it' Hin HP Hit.
    destruct (HP Hit) as [Hr Ht].
    rewrite Forall_forall in Hfs.
    rewrite (Hfs f (proj2 (list_elem_of_In _ _) Hin)).
    split; [now apply frameItem_at_rest|].
    destruct (frameItem_same_data true (TreeParticles.elapsedTime f)
                (TreeParticles.delta f) k st0 j it') as (_ & G2 & _).
    congruence.
  - exact Hi.
  - destruct (H Hrest) as [[Hp Hv] Ht].
    exists item'. split; [exact Hi'|]. split; [congruence | exact Hv].
Qed.

Lemma ornaments_at_rest_stay_in_formed_witness :
  let fs := [TreeParticles.mkFrame true 0 (1 / 60); TreeParticles.mkFrame true 1 3] in
  exists item' : Ornaments.Item,
    Ornaments.itemsOf Ornaments.Icicle (Session.ornaments fs Examples.ornaments) !! 0%nat
    = Some item' /\
    Ornaments.currentPos item' = Ornaments.targetPos Examples.ornament /\
    Ornaments.velocity item' = THREE.mkVector3 0 0 0.
Proof.
  intros fs.
  apply (ornaments_at_rest_stay_in_formed fs Ornaments.Icicle Examples.ornaments
           0%nat Examples.ornament).
  - repeat constructor.
  - reflexivity.
  - split; reflexivity.
Defined.

(** ** The generated ornaments *)

Section OrnamentData.
Import JS THREE Types.

Lemma genOrnament_fresh (type : Ornaments.OrnamentType) (src : RandomSource) :
  in_unit src -> Cover.fresh_ornament (fst (Ornaments.genOrnament type src)).
Proof.
  intros Hsrc. pose proof PI_RGT_0 as Hpi.
  pose proof (Hsrc 5%nat). pose proof (Hsrc 6%nat). pose proof (Hsrc 7%nat).
  pose proof (Hsrc 8%nat). pose proof (Hsrc 9%nat). pose proof (Hsrc 10%nat).
  pose proof (Hsrc 11%nat). pose proof (Hsrc 12%nat). pose proof (Hsrc 13%nat).
  unfold Cover.fresh_ornament, Cover.at_rest, Ornaments.genOrnament, bind, random, ret.
  destruct type;
    cbn [fst snd Ornaments.currentPos Ornaments.targetPos Ornaments.velocity
         Ornaments.mass Ornaments.phase Ornaments.rotation Ornaments.rotVelocity
         ex ey ez vx vy vz];
    (split; [split; reflexivity|]);
    repeat split; nra.
Qed.

End OrnamentData.

(** X8. Under a random source with values in [0, 1), every generated
    ornament starts at rest at its target position (current position equal
    to the target position, velocity zero), with a mass in [0.5, 2), so that
    the division by the mass in the pull is by a positive number, a phase in
    [0, 2 pi), rotation angles in [0, pi) and rotation velocities in
    [-0.1, 0.1). *)
Theorem usePhysicsOrnaments_start_at_rest
    (count : nat) (type : Ornaments.OrnamentType) (src : JS.RandomSource) :
  JS.in_unit src ->
  Forall Cover.fresh_ornament (fst (Ornaments.usePhysicsOrnaments count type src)).
Proof.
  intros Hsrc. unfold Ornaments.usePhysicsOrnaments.
  apply (for_range_invariant
           (fun _ data => draw item <- Ornaments.genOrnament type; JS.ret (data ++ [item]))
           (fun _ data => Forall Cover.fresh_ornament data)).
  - intros. apply advances_bind; [apply advances_genOrnament | intros; apply advances_ret].
  - intros i data src0 _ Hsrc0 Hall. unfold JS.bind.
    pose proof (genOrnament_fresh type src0 Hsrc0) as Hitem.
    destruct (Ornaments.genOrnament type src0) as [item src1]. simpl in *.
    apply Forall_app. split; [exact Hall | now constructor].
  - exact Hsrc.
  - constructor.
Qed.

Lemma usePhysicsOrnaments_start_at_rest_witness :
  Forall Cover.fresh_ornament
         (fst (Ornaments.usePhysicsOrnaments 3 Ornaments.inner Examples.halves)).
Proof.
  apply (usePhysicsOrnaments_start_at_rest 3 Ornaments.inner Examples.halves).
  intros k. unfold Examples.halves. lra.
Defined.

(** ** The transforms written into the meshes *)

Section MeshWrites.
Import JS THREE Ornaments.

Variables (isFormed : bool) (dt time : R).
Variables (scaleBase stiffness damping noiseStrength : R) (orientToUp : bool).

#[local] Abbreviation body :=
  (updatePhysics_body isFormed dt time scaleBase stiffness damping noiseStrength orientToUp).
#[local] Abbreviation written :=
  (Cover.written isFormed dt time scaleBase stiffness damping noiseStrength orientToUp).

Lemma updateItem_written (i : nat) (item : Item) (tv : Vector3) (to : Object3D) :
  snd (updateItem isFormed dt time scaleBase stiffness damping noiseStrength
         orientToUp i item tv to) = written i item.
Proof.
  unfold Cover.written, updated, updateItem.
  destruct isFormed, orientToUp; reflexivity.
Qed.

Lemma body_mesh (i : nat) (b : Batch) (item : Item) :
  items b !! i = Some item ->
  instanceMatrix (mesh (body i b)) = <[i := written i item]> (instanceMatrix (mesh b)).
Proof.
  intros Hi. unfold updatePhysics_body. rewrite Hi.
  pose proof (updateItem_written i item (tempVec b) (tempObj b)) as E.
  destruct (updateItem _ _ _ _ _ _ _ _ _ _ _ _) as [[it tv] to].
  simpl in E. subst to. reflexivity.
Qed.

(** After [n] turns the first [n] transforms are written. *)
Lemma for_each_mesh (b : Batch) (n : nat) :
  (n <= length (items b))%nat ->
  let b' := for_each n body b in
  length (instanceMatrix (mesh b')) = length (instanceMatrix (mesh b)) /\
  forall (i : nat) (item : Item),
    (i < n)%nat ->
    items b !! i = Some item ->
    (i < length (instanceMatrix (mesh b)))%nat ->
    instanceMatrix (mesh b') !! i = Some (written i item).
Proof.
  induction n as [|n IH]; intros Hn; simpl.
  - split; [reflexivity|]. intros i item Hi. lia.
  - destruct IH as [Hlen Hmesh]; [lia|].
    destruct (for_each_items isFormed dt time scaleBase stiffness damping
                noiseStrength orientToUp b n) as [_ Hitems]; [lia|].
    destruct (lookup_lt_is_Some_2 (items b) n) as [itn Hitn]; [lia|].
    pose proof (Hitems n itn Hitn) as Hn'.
    rewrite Nat.ltb_irrefl in Hn'.
    rewrite (body_mesh n _ itn Hn').
    split.
    + rewrite length_insert. exact Hlen.
    + intros i item Hi Hitem Hbound.
      destruct (Nat.eq_dec i n) as [->|Hne].
      * rewrite list_lookup_insert_eq by (rewrite Hlen; lia).
        rewrite Hitn in Hitem. now injection Hitem as ->.
      * rewrite list_lookup_insert_ne by congruence.
        apply Hmesh; [lia | assumption | assumption].
Qed.

Lemma updatePhysics_mesh (b : Batch) (i : nat) (item : Item) :
  items b !! i = Some item ->
  (i < length (instanceMatrix (mesh b)))%nat ->
  let b' := updatePhysics isFormed dt time b scaleBase stiffness damping
              noiseStrength orientToUp in
  needsUpdate (mesh b') = true /\
  instanceMatrix (mesh b') !! i = Some (written i item).
Proof.
  intros Hi Hbound. unfold updatePhysics. cbn [mesh needsUpdate instanceMatrix].
  split; [reflexivity|].
  destruct (for_each_mesh b (length (items b)) (Nat.le_refl _)) as [_ H].
  apply H; [|assumption|assumption].
  eapply lookup_lt_Some. exact Hi.
Qed.

End MeshWrites.

(** X9. On a frame, for every item of a batch whose mesh is mounted and has
    an instance for it, the mesh is marked for update and the transform
    written for the item has the item's position after the frame, a uniform
    scale within 0.05 of the scale base of the batch, and the item's
    rotation after the frame, except for the icicles in FORMED, which are
    written with the fixed rotation (pi, 0, 0). *)
Theorem useFrame_writes_transforms
    (isFormed : bool) (elapsedTime delta : R) (st : Ornaments.State)
    (k : Ornaments.Kind) (m : Ornaments.InstancedMesh) (i : nat) (item : Ornaments.Item) :
  Ornaments.meshOf k st = Some m ->
  Ornaments.itemsOf k st !! i = Some item ->
  (i < length (Ornaments.instanceMatrix m))%nat ->
  let st' := Ornaments.useFrame isFormed elapsedTime delta st in
  exists (m' : Ornaments.InstancedMesh) (item' : Ornaments.Item) (s : R),
    Ornaments.meshOf k st' = Some m' /\
    Ornaments.needsUpdate m' = true /\
    Ornaments.itemsOf k st' !! i = Some item' /\
    Rabs (s - Ornaments.scaleBase (Ornaments.constantsOf k)) <= 0.05 /\
    Ornaments.instanceMatrix m' !! i =
      Some (THREE.mkObject3D
              (Ornaments.currentPos item')
              (match k with
               | Ornaments.Icicle =>
                   if isFormed then THREE.mkEuler PI 0 0 else Ornaments.rotation item'
               | _ => Ornaments.rotation item'
               end)
              (THREE.mkVector3 s s s)).
Proof.
  intros Hm Hi Hbound st'.
  destruct (useFrame_batch isFormed elapsedTime delta k st) as (tv & to & Eitems & Emesh).
  fold st' in Eitems, Emesh.
  rewrite Hm in Eitems, Emesh. unfold Ornaments.updateBatch in Eitems, Emesh.
  cbn [fst snd] in Eitems, Emesh.
  destruct (updatePhysics_mesh isFormed (JS.min delta 0.1) elapsedTime
              (Ornaments.scaleBase (Ornaments.constantsOf k))
              (Ornaments.stiffness (Ornaments.constantsOf k))
              (Ornaments.damping (Ornaments.constantsOf k))
              (Ornaments.noiseStrength (Ornaments.constantsOf k))
              (Ornaments.orientToUp (Ornaments.constantsOf k))
              (Ornaments.mkBatch (Ornaments.itemsOf k st) m tv to) i item Hi Hbound)
    as [Hneeds Hwritten].
  eexists _, _, (Ornaments.scaleBase (Ornaments.constantsOf k)
                 + sin (elapsedTime + INR i) * 0.05).
  split; [exact Emesh|]. split; [exact Hneeds|].
  split.
  { rewrite Eitems. apply (updatePhysics_items _ _ _ _ _ _ _ _
                             (Ornaments.mkBatch (Ornaments.itemsOf k st) m tv to)).
    exact Hi. }
  split.
  { pose proof (SIN_bound (elapsedTime + INR i)).
    apply Rabs_le. lra. }
  rewrite Hwritten. unfold Cover.written.
  destruct k; simpl; try reflexivity.
Qed.

Lemma useFrame_writes_transforms_witness :
  let st' := Ornaments.useFrame true 2 (1 / 60) Examples.ornaments in
  exists (m' : Ornaments.InstancedMesh) (item' : Ornaments.Item) (s : R),
    Ornaments.meshOf Ornaments.Icicle st' = Some m' /\
    Ornaments.needsUpdate m' = true /\
    Ornaments.itemsOf Ornaments.Icicle st' !! 0%nat = Some item' /\
    Rabs (s - Ornaments.scaleBase (Ornaments.constantsOf Ornaments.Icicle)) <= 0.05 /\
    Ornaments.instanceMatrix m' !! 0%nat =
      Some (THREE.mkObject3D (Ornaments.currentPos item') (THREE.mkEuler PI 0 0)
                             (THREE.mkVector3 s s s)).
Proof.
  apply (useFrame_writes_transforms true 2 (1 / 60) Examples.ornaments Ornaments.Icicle
           Examples.mesh1 0%nat Examples.ornament).
  - reflexivity.
  - reflexivity.
  - simpl. lia.
Defined.

(** ** The photo frames, frame by frame *)

(** X10. On a frame, a mounted photo moves towards its destination of that
    frame (its place in the tree in FORMED; in CHAOS the point in front of
    the camera if it is featured and its place in the scatter otherwise):
    the offset of its position from the destination is multiplied by
    [1 - delta * speed], where the speed is 2 for the featured photo and 1.5
    for the others, in both modes.  Its scale stays uniform and its offset
    from the scale of the mode (1.2, 1.5 or 0.8) is multiplied by the same
    factor. *)
Theorem photo_offset_contracts
    (applyQuaternion : THREE.Vector3 -> THREE.Quaternion -> THREE.Vector3)
    (setFromEuler : THREE.Quaternion -> THREE.Euler -> THREE.Quaternion)
    (slerp : THREE.Quaternion -> THREE.Quaternion -> R -> THREE.Quaternion)
    (props : Photos.PhotoItemProps) (camera : Photos.Camera)
    (elapsedTime delta : R) (st : Photos.PhotoItemState) (g : Photos.Group) :
  Photos.meshRef st = Some g ->
  let st' := Photos.useFrame applyQuaternion setFromEuler slerp props camera
               elapsedTime delta st in
  let dest := Cover.photoTarget applyQuaternion props camera in
  let factor := 1 - delta * Cover.photoSpeed props in
  exists (g' : Photos.Group) (s : R),
    Photos.meshRef st' = Some g' /\
    Photos.targetPos st' = dest /\
    Spec.vsub (Photos.position g') dest
      = Spec.vscale factor (Spec.vsub (Photos.position g) dest) /\
    Photos.scale g' = THREE.mkVector3 s s s /\
    s - Cover.photoScale props
      = factor * (THREE.vx (Photos.scale g) - Cover.photoScale props).
Proof.
  intros Hm st' dest factor. subst st' dest factor.
  unfold Photos.useFrame, Cover.photoTarget, Cover.photoScale, Cover.photoSpeed.
  rewrite Hm.
  destruct (Photos.isFormed props), (Photos.isFeatured props);
    cbv zeta; eexists _, _;
    (split; [reflexivity|]);
    cbn [Photos.targetPos Photos.position Photos.scale];
    unfold Spec.vsub, Spec.vscale, Spec.vadd, THREE.lerp;
    try destruct (Types.target (Photos.data props)) as [tx ty tz];
    try destruct (Types.chaos (Photos.data props)) as [cx cy cz];
    (split; [vec_eq|]);
    (split; [vec_eq|]);
    (split; [reflexivity|]);
    unfold Rdiv; ring.
Qed.

Lemma photo_offset_contracts_witness :
  let props := Photos.mkPhotoItemProps Examples.photo true 3 (Some "a.png"%string) true in
  let st' := Photos.useFrame Examples.applyQuaternion Examples.setFromEuler Examples.slerp
               props Examples.camera 10 (1 / 60) Examples.photoItem in
  let dest := Cover.photoTarget Examples.applyQuaternion props Examples.camera in
  let factor := 1 - 1 / 60 * Cover.photoSpeed props in
  exists (g' : Photos.Group) (s : R),
    Photos.meshRef st' = Some g' /\
    Photos.targetPos st' = dest /\
    Spec.vsub (Photos.position g') dest
      = Spec.vscale factor (Spec.vsub (THREE.mkVector3 3 5 0) dest) /\
    Photos.scale g' = THREE.mkVector3 s s s /\
    s - Cover.photoScale props = factor * (1.2 - Cover.photoScale props).
Proof.
  intros props.
  apply (photo_offset_contracts Examples.applyQuaternion Examples.setFromEuler
           Examples.slerp props Examples.camera 10 (1 / 60) Examples.photoItem
           (Photos.mkGroup (THREE.mkVector3 3 5 0) (THREE.mkQuaternion 0 0 0 1)
                           (THREE.mkVector3 1.2 1.2 1.2))).
  reflexivity.
Defined.

(** ** The generated photos *)

Section PhotoData.
Import JS THREE Types.

Lemma genPhoto_in_bounds (i : nat) (data : list DualPosition) (src : RandomSource) :
  in_unit src ->
  exists d : DualPosition,
    fst (Photos.genPhoto i data src) = data ++ [d] /\ Cover.photo_in_bounds d.
Proof.
  intros Hsrc.
  pose proof (Hsrc 0%nat). pose proof (Hsrc 2%nat). pose proof (Hsrc 3%nat).
  pose proof (Hsrc 4%nat). pose proof (Hsrc 5%nat). pose proof (Hsrc 6%nat).
  pose proof (Hsrc 7%nat). pose proof (Hsrc 8%nat).
  unfold Photos.genPhoto, bind, random, ret. cbn [fst snd].
  eexists. split; [reflexivity|].
  unfold Cover.photo_in_bounds, CONFIG.treeHeight, CONFIG.treeRadius.
  cbn [target chaos rotationTarget rotationChaos vx vy vz ex ey ez].
  split; [lra|]. split.
  { rewrite circle_lengthSq. f_equal; lra. }
  repeat split; lra.
Qed.

Lemma mountHooks_photoData (src : RandomSource) :
  in_unit src ->
  let h := fst (Photos.mountHooks src) in
  Photos.featuredIndex h = 0%Z /\
  Photos.effectDeps h = None /\
  length (Photos.photoData h) = 12%nat /\
  Forall Cover.photo_in_bounds (Photos.photoData h).
Proof.
  intros Hsrc. unfold Photos.mountHooks, bind.
  assert (H : length (fst (for_range (Z.to_nat Photos.totalCount) Photos.genPhoto [] src))
              = Z.to_nat Photos.totalCount /\
              Forall Cover.photo_in_bounds
                (fst (for_range (Z.to_nat Photos.totalCount) Photos.genPhoto [] src))).
  { apply (for_range_invariant Photos.genPhoto
             (fun n data => length data = n /\ Forall Cover.photo_in_bounds data)).
    - apply advances_genPhoto.
    - intros i data src0 _ Hsrc0 [Hlen Hall].
      destruct (genPhoto_in_bounds i data src0 Hsrc0) as (d & -> & Hd).
      split.
      + rewrite length_app. simpl. lia.
      + apply Forall_app. split; [exact Hall | now constructor].
    - exact Hsrc.
    - split; [reflexivity | constructor]. }
  destruct (for_range _ _ _ src) as [data src']. simpl in *.
  destruct H as [Hlen Hall].
  repeat split; assumption.
Qed.

End PhotoData.

(** X11. Under a random source with values in [0, 1), the first render of
    [Photos] generates twelve photos and features the index 0 until the
    effect runs.  Every photo has its place in the tree at a height in
    [2, 11.8), at the radius of the cone at that height plus 0.6, with no
    rotation about x, and its place in the scatter in the box
    [-17.5, 17.5) x [-5, 10) x [-17.5, 17.5), with chaos rotation angles in
    [-0.5, 0.5). *)
Theorem mountHooks_generates_twelve_photos (src : JS.RandomSource) :
  JS.in_unit src ->
  let h := fst (Photos.mountHooks src) in
  Photos.featuredIndex h = 0%Z /\
  Photos.effectDeps h = None /\
  length (Photos.photoData h) = 12%nat /\
  Forall Cover.photo_in_bounds (Photos.photoData h).
Proof. exact (mountHooks_photoData src). Qed.

Lemma mountHooks_generates_twelve_photos_witness :
  let h := fst (Photos.mountHooks Examples.halves) in
  Photos.featuredIndex h = 0%Z /\
  Photos.effectDeps h = None /\
  length (Photos.photoData h) = 12%nat /\
  Forall Cover.photo_in_bounds (Photos.photoData h).
Proof.
  apply (mountHooks_generates_twelve_photos Examples.halves).
  intros k. unfold Examples.halves. lra.
Defined.

(** ** The slideshow *)

Section SlideshowMore.
#[local] Open Scope Z_scope.

Lemma prev_next_offset (n p : Z) :
  1 <= n -> 0 <= p < n -> Z.rem (Z.rem (p - 1 + n) n + 1) n = p.
Proof.
  intros Hn Hp.
  destruct (Z.eq_dec p 0) as [->|E].
  - replace (0 - 1 + n) with (n - 1) by lia.
    rewrite (Z.rem_small (n - 1) n) by lia.
    replace (n - 1 + 1) with n by lia. apply Z.rem_same. lia.
  - rewrite (Z.rem_mod_nonneg (p - 1 + n) n) by lia.
    replace (p - 1 + n) with (p - 1 + 1 * n) by lia.
    rewrite Z.mod_add by lia.
    rewrite (Z.mod_small (p - 1) n) by lia.
    replace (p - 1 + 1) with p by lia. apply Z.rem_small. lia.
Qed.

Lemma rem_range (a n : Z) : 0 <= a -> 0 < n -> 0 <= Z.rem a n < n.
Proof. intros Ha Hn. rewrite Z.rem_mod_nonneg by lia. apply Z.mod_pos_bound. lia. Qed.

(** The offset after [k] times next. *)
Lemma iter_next (st : App.State) (k : nat) :
  1 <= Z.of_nat (length (App.userPhotos st)) ->
  0 <= App.photoOffset st < Z.of_nat (length (App.userPhotos st)) ->
  Nat.iter k App.handleNextPhoto st =
  App.mkState (App.treeState st) (App.snowEnabled st) (App.userPhotos st)
    ((App.photoOffset st + Z.of_nat k) mod Z.of_nat (length (App.userPhotos st)))
    (App.isProcessing st) (App.revoked st).
Proof.
  intros Hn Hp. induction k as [|k IH].
  - simpl. rewrite Z.add_0_r, Z.mod_small by lia. now destruct st.
  - rewrite Nat.iter_succ, IH. unfold App.handleNextPhoto. cbn [App.userPhotos App.photoOffset
      App.treeState App.snowEnabled App.isProcessing App.revoked].
    destruct (Z.eqb_spec (Z.of_nat (length (App.userPhotos st))) 0) as [E|_]; [lia|].
    f_equal.
    rewrite Z.rem_mod_nonneg.
    + rewrite Zplus_mod_idemp_l. f_equal. lia.
    + pose proof (Z.mod_pos_bound (App.photoOffset st + Z.of_nat k)
                    (Z.of_nat (length (App.userPhotos st)))). lia.
    + lia.
Qed.

Lemma getUrl_defined (photos : list string) (offset index : Z) :
  photos <> [] -> 0 <= offset -> 0 <= index ->
  Photos.getUrl photos offset index
  = photos !! Z.to_nat ((index + offset) mod Z.of_nat (length photos)) /\
  exists u : string, Photos.getUrl photos offset index = Some u /\ In u photos.
Proof.
  intros Hne Ho Hi.
  assert (Hn : 0 < Z.of_nat (length photos)) by (destruct photos; [congruence | simpl; lia]).
  unfold Photos.getUrl.
  destruct (Z.eqb_spec (Z.of_nat (length photos)) 0) as [E|_]; [lia|].
  rewrite Z.rem_mod_nonneg by lia.
  pose proof (Z.mod_pos_bound (index + offset) (Z.of_nat (length photos)) Hn) as Hb.
  destruct (Z.ltb_spec ((index + offset) mod Z.of_nat (length photos)) 0) as [Hneg|_]; [lia|].
  split; [reflexivity|].
  destruct (lookup_lt_is_Some_2 photos
              (Z.to_nat ((index + offset) mod Z.of_nat (length photos)))) as [u Hu]; [lia|].
  exists u. split; [exact Hu|].
  apply list_elem_of_In. eapply list_elem_of_lookup_2. exact Hu.
Qed.

End SlideshowMore.

(** X12. For a photo list of length at least 1 and an offset in [0, n),
    [handlePrevPhoto] followed by [handleNextPhoto] gives back the state, and
    so does [handleNextPhoto] applied as many times as there are photos:
    the slideshow is a cycle of the length of the list. *)
Theorem slideshow_is_a_cycle (st : App.State) :
  (1 <= Z.of_nat (length (App.userPhotos st)))%Z ->
  (0 <= App.photoOffset st < Z.of_nat (length (App.userPhotos st)))%Z ->
  App.handleNextPhoto (App.handlePrevPhoto st) = st /\
  Nat.iter (length (App.userPhotos st)) App.handleNextPhoto st = st.
Proof.
  intros Hn Hp. split.
  - unfold App.handlePrevPhoto, App.handleNextPhoto.
    destruct (Z.eqb_spec (Z.of_nat (length (App.userPhotos st))) 0) as [E|E]; [lia|].
    simpl.
    destruct (Z.eqb_spec (Z.of_nat (length (App.userPhotos st))) 0) as [E'|_]; [lia|].
    rewrite prev_next_offset by assumption.
    destruct st; reflexivity.
  - rewrite iter_next by assumption.
    replace (App.photoOffset st + Z.of_nat (length (App.userPhotos st)))%Z
      with (App.photoOffset st + 1 * Z.of_nat (length (App.userPhotos st)))%Z by lia.
    rewrite Z.mod_add by lia.
    rewrite Z.mod_small by lia.
    destruct st; reflexivity.
Qed.

Lemma slideshow_is_a_cycle_witness :
  App.handleNextPhoto (App.handlePrevPhoto App.init) = App.init /\
  Nat.iter (length (App.userPhotos App.init)) App.handleNextPhoto App.init = App.init.
Proof.
  apply (slideshow_is_a_cycle App.init); simpl; lia.
Defined.

(** X13. With a photo list of length at least 1, an offset in [0, n) and a
    frame index that is not negative, every frame shows a photo of the
    list, and after [handleNextPhoto] the frame of index [i] shows the photo
    that the frame of index [i + 1] showed before: the photos move one
    frame down. *)
Theorem next_photo_shifts_frames (st : App.State) (index : Z) :
  (1 <= Z.of_nat (length (App.userPhotos st)))%Z ->
  (0 <= App.photoOffset st < Z.of_nat (length (App.userPhotos st)))%Z ->
  (0 <= index)%Z ->
  (exists u : string,
     Photos.getUrl (App.userPhotos st) (App.photoOffset st) index = Some u /\
     In u (App.userPhotos st)) /\
  Photos.getUrl (App.userPhotos (App.handleNextPhoto st))
                (App.photoOffset (App.handleNextPhoto st)) index
  = Photos.getUrl (App.userPhotos st) (App.photoOffset st) (index + 1).
Proof.
  intros Hn Hp Hi.
  assert (Hne : App.userPhotos st <> [])
    by (intros E; rewrite E in Hn; simpl in Hn; lia).
  split; [apply getUrl_defined; [exact Hne | lia | exact Hi]|].
  unfold App.handleNextPhoto.
  destruct (Z.eqb_spec (Z.of_nat (length (App.userPhotos st))) 0) as [E|_]; [lia|].
  cbn [App.userPhotos App.photoOffset].
  assert (Hr : (0 <= Z.rem (App.photoOffset st + 1)
                             (Z.of_nat (length (App.userPhotos st))))%Z)
    by (apply rem_range; lia).
  assert (Hp0 : (0 <= App.photoOffset st)%Z) by lia.
  assert (Hi1 : (0 <= index + 1)%Z) by lia.
  rewrite (proj1 (getUrl_defined (App.userPhotos st) _ index Hne Hr Hi)).
  rewrite (proj1 (getUrl_defined (App.userPhotos st) _ (index + 1) Hne Hp0 Hi1)).
  rewrite Z.rem_mod_nonneg by lia.
  rewrite Zplus_mod_idemp_r.
  do 3 f_equal. lia.
Qed.

Lemma next_photo_shifts_frames_witness :
  (exists u : string,
     Photos.getUrl (App.userPhotos App.init) (App.photoOffset App.init) 7 = Some u /\
     In u (App.userPhotos App.init)) /\
  Photos.getUrl (App.userPhotos (App.handleNextPhoto App.init))
                (App.photoOffset (App.handleNextPhoto App.init)) 7
  = Photos.getUrl (App.userPhotos App.init) (App.photoOffset App.init) (7 + 1).
Proof.
  apply (next_photo_shifts_frames App.init 7); simpl; lia.
Defined.

(** ** Uploads with images, and the object URLs *)

(** X14. An upload whose selection holds at least one image replaces the
    photo list by the object URLs of the images of the selection, in the
    order of the selection and leaving out the other files, resets the
    slideshow offset to 0, and leaves the mode and the snow as they were. *)
Theorem handlePhotoUpload_takes_the_images
    (createObjectURL : App.File -> string) (fs : list App.File) (st : App.State) :
  List.filter App.isImage fs <> [] ->
  let st' := App.handlePhotoUpload createObjectURL (Some fs) st in
  App.userPhotos st' = map createObjectURL (List.filter App.isImage fs) /\
  App.photoOffset st' = 0%Z /\
  App.isProcessing st' = false /\
  App.treeState st' = App.treeState st /\
  App.snowEnabled st' = App.snowEnabled st.
Proof.
  intros Himg st'. subst st'. unfold App.handlePhotoUpload.
  assert (Hfs : (0 <? Z.of_nat (length fs))%Z = true).
  { apply Z.ltb_lt. destruct fs; [simpl in Himg; congruence | simpl; lia]. }
  rewrite Hfs, newPhotos_images. simpl app.
  assert (Hnew : (0 <? Z.of_nat (length (map createObjectURL (List.filter App.isImage fs))))%Z
                 = true).
  { apply Z.ltb_lt. rewrite length_map.
    destruct (List.filter App.isImage fs); [congruence | simpl; lia]. }
  rewrite Hnew. repeat split.
Qed.

Lemma handlePhotoUpload_takes_the_images_witness :
  let createObjectURL := fun f : App.File => ("blob:" ++ App.name f)%string in
  let fs := [App.mkFile "a.png" "image/png"; App.mkFile "b.txt" "text/plain";
             App.mkFile "c.jpg" "image/jpeg"] in
  let st' := App.handlePhotoUpload createObjectURL (Some fs) App.init in
  App.userPhotos st' = map createObjectURL (List.filter App.isImage fs) /\
  App.photoOffset st' = 0%Z /\
  App.isProcessing st' = false /\
  App.treeState st' = App.treeState App.init /\
  App.snowEnabled st' = App.snowEnabled App.init.
Proof.
  intros createObjectURL fs.
  apply (handlePhotoUpload_takes_the_images createObjectURL fs App.init).
  simpl. discriminate.
Defined.

(** X15. An upload revokes object URLs only when its selection is not
    empty; it then revokes exactly the [blob:] URLs of the photo list it
    finds: each of them is revoked, a URL that is not a [blob:] URL (the
    default photos) never is, and what was revoked before stays revoked.
    This happens before the files are looked at: when the selection holds no
    image, the photo list is kept although its [blob:] URLs are revoked. *)
Theorem handlePhotoUpload_revokes_blob_urls
    (createObjectURL : App.File -> string)
    (files : option (list App.File)) (st : App.State) :
  let st' := App.handlePhotoUpload createObjectURL files st in
  ((files = None \/ files = Some []) -> App.revoked st' = App.revoked st) /\
  (forall fs : list App.File, files = Some fs -> fs <> [] ->
     App.revoked st' =
       (App.revoked st ++ List.filter (String.prefix "blob:") (App.userPhotos st))%list /\
     (forall url : string,
        In url (App.revoked st') <->
        In url (App.revoked st) \/
        (In url (App.userPhotos st) /\ String.prefix "blob:" url = true)) /\
     (List.filter App.isImage fs = [] ->
        App.userPhotos st' = App.userPhotos st /\
        forall url : string,
          In url (App.userPhotos st') -> String.prefix "blob:" url = true ->
          In url (App.revoked st'))).
Proof.
  intros st'. split.
  - intros [->| ->]; reflexivity.
  - intros fs -> Hne.
    assert (Hfs : (0 <? Z.of_nat (length fs))%Z = true).
    { apply Z.ltb_lt. destruct fs; [congruence | simpl; lia]. }
    assert (Hrev : App.revoked st' =
              (App.revoked st ++ List.filter (String.prefix "blob:") (App.userPhotos st))%list).
    { subst st'. unfold App.handlePhotoUpload. rewrite Hfs.
      match goal with |- context [if ?c then _ else _] => destruct c end;
        reflexivity. }
    assert (Hin : forall url : string,
              In url (App.revoked st') <->
              In url (App.revoked st) \/
              (In url (App.userPhotos st) /\ String.prefix "blob:" url = true)).
    { intros url. rewrite Hrev, in_app_iff, filter_In. reflexivity. }
    split; [exact Hrev|]. split; [exact Hin|].
    intros Hnone.
    assert (Hsame : App.userPhotos st' = App.userPhotos st).
    { subst st'. unfold App.handlePhotoUpload.
      rewrite Hfs, newPhotos_images, Hnone. reflexivity. }
    split; [exact Hsame|].
    intros url Hurl Hblob. apply Hin. right. rewrite <- Hsame. now split.
Qed.

Lemma handlePhotoUpload_revokes_blob_urls_witness :
  let createObjectURL := fun f : App.File => ("blob:" ++ App.name f)%string in
  let st := App.mkState Types.FORMED true ["blob:a.png"; "https://x/y.png"]%string 1 false [] in
  let st' := App.handlePhotoUpload createObjectURL
               (Some [App.mkFile "notes.txt" "text/plain"]) st in
  App.revoked st' = ["blob:a.png"]%string /\
  App.userPhotos st' = ["blob:a.png"; "https://x/y.png"]%string.
Proof.
  intros createObjectURL st st'.
  destruct (proj2 (handlePhotoUpload_revokes_blob_urls createObjectURL
                     (Some [App.mkFile "notes.txt" "text/plain"]) st)
                  [App.mkFile "notes.txt" "text/plain"] eq_refl)
    as (H1 & _ & H3).
  - discriminate.
  - split; [exact H1|]. apply H3. reflexivity.
Defined.

(** ** The application between events *)

Section Reachable.
Import JS Types.
Variable createObjectURL : App.File -> string.

Lemma handle_ready_app (ev : Scene.Event) (a : App.State) :
  App.userPhotos a <> [] ->
  (0 <= App.photoOffset a < Z.of_nat (length (App.userPhotos a)))%Z ->
  App.isProcessing a = false ->
  let a' := Scene.handle createObjectURL ev a in
  (0 <= App.photoOffset a' < Z.of_nat (length (App.userPhotos a')))%Z /\
  App.isProcessing a' = false.
Proof.
  intros Hne Hoff Hproc a'. subst a'.
  assert (Hn : (0 < Z.of_nat (length (App.userPhotos a)))%Z) by lia.
  destruct ev; simpl.
  - split; assumption.
  - split; assumption.
  - unfold App.handlePhotoUpload.
    destruct files as [fs|]; [|split; assumption].
    destruct (0 <? Z.of_nat (length fs))%Z; [|split; assumption].
    destruct (Z.ltb_spec 0 (Z.of_nat (length
      (fold_left (fun newPhotos file =>
                 if App.isImage file then (newPhotos ++ [createObjectURL file])%list
                 else newPhotos) fs [])))) as [Hlt|Hge]; simpl.
    + split; [lia | reflexivity].
    + split; [assumption | reflexivity].
  - unfold App.handleNextPhoto.
    destruct (Z.eqb_spec (Z.of_nat (length (App.userPhotos a))) 0) as [E|_]; [lia|].
    simpl. split; [apply rem_range; lia | assumption].
  - unfold App.handlePrevPhoto.
    destruct (Z.eqb_spec (Z.of_nat (length (App.userPhotos a))) 0) as [E|_]; [lia|].
    simpl. split; [apply rem_range; lia | assumption].
Qed.

Lemma useEffect_photoData (isFormed : bool) (h : Photos.Hooks) (src : RandomSource) :
  Photos.photoData (fst (Photos.useEffect isFormed h src)) = Photos.photoData h.
Proof.
  unfold Photos.useEffect.
  destruct (Photos.effectDeps h) as [d|];
    [destruct (Bool.eqb d isFormed)|]; destruct isFormed; reflexivity.
Qed.

Lemma step_ready (ev : Scene.Event) (st : Scene.State) (src : RandomSource) :
  in_unit src -> Cover.ready st -> Cover.ready (fst (Scene.step createObjectURL ev st src)).
Proof.
  intros Hsrc (Hset & Hoff & Hproc & Hdata).
  pose proof Hset as (Hne & h & Hh & _).
  destruct (handle_ready_app ev (Scene.app st) Hne Hoff Hproc) as [Hoff' Hproc'].
  split; [now apply step_settled|].
  rewrite step_app. split; [exact Hoff'|]. split; [exact Hproc'|].
  intros h' Hh'.
  rewrite step_photos, Hh, renderApp_hooks in Hh'
    by now apply handle_userPhotos_nonempty.
  injection Hh' as <-. rewrite useEffect_photoData. now apply Hdata.
Qed.

Lemma mount_ready (src : RandomSource) :
  in_unit src -> Cover.ready (fst (Scene.mount src)).
Proof.
  intros Hsrc. split; [now apply mount_settled|].
  rewrite mount_app. split; [simpl; lia|]. split; [reflexivity|].
  intros h. unfold Scene.mount, Scene.renderApp, Photos.Photos.
  simpl length. simpl (Z.of_nat 6 =? 0)%Z. cbv iota.
  unfold bind at 1 2 3.
  pose proof (mountHooks_photoData src Hsrc) as (_ & _ & Hlen & _).
  destruct (Photos.mountHooks src) as [h0 src0]. simpl in Hlen.
  unfold ret at 1.
  pose proof (useEffect_photoData (Experience.isFormed (App.treeState App.init)) h0 src0) as E.
  destruct (Photos.useEffect _ h0 src0) as [h1 src1]. simpl in E.
  simpl. intros [= <-]. congruence.
Qed.

Lemma run_ready (evs : list Scene.Event) :
  forall (st : Scene.State) (src : RandomSource),
    in_unit src -> Cover.ready st ->
    Cover.ready (fst (Scene.run createObjectURL evs st src)) /\
    in_unit (snd (Scene.run createObjectURL evs st src)).
Proof.
  induction evs as [|ev evs IH]; intros st src Hsrc Hst; simpl.
  - split; assumption.
  - unfold bind.
    pose proof (step_ready ev st src Hsrc Hst) as Hst'.
    pose proof (advances_in_unit _ src (advances_step createObjectURL ev st) Hsrc) as Hsrc'.
    destruct (Scene.step createObjectURL ev st src) as [st' src'].
    now apply IH.
Qed.

(** The application after the first render and a sequence of events. *)
Lemma reachable_ready (evs : list Scene.Event) (src : RandomSource) :
  in_unit src ->
  let booted := Scene.mount src in
  Cover.ready (fst (Scene.run createObjectURL evs (fst booted) (snd booted))) /\
  in_unit (snd (Scene.run createObjectURL evs (fst booted) (snd booted))).
Proof.
  intros Hsrc booted. apply run_ready.
  - apply advances_in_unit; [apply advances_mount | exact Hsrc].
  - now apply mount_ready.
Qed.

(** What a render of the application with photos and mounted hooks returns. *)
Lemma renderApp_elements (a : App.State) (h : Photos.Hooks) (src : RandomSource) :
  App.userPhotos a <> [] ->
  snd (fst (Scene.renderApp a (Some h) src)) =
  Some (Photos.render (Experience.isFormed (App.treeState a)) (App.userPhotos a)
          (App.photoOffset a)
          (fst (Photos.useEffect (Experience.isFormed (App.treeState a)) h src))).
Proof.
  intros Hne.
  assert (E0 : (Z.of_nat (length (App.userPhotos a)) =? 0)%Z = false).
  { apply Z.eqb_neq. destruct (App.userPhotos a); [congruence | simpl; lia]. }
  unfold Scene.renderApp, Photos.Photos. rewrite E0.
  unfold bind, ret at 1.
  destruct (Photos.useEffect _ h src) as [h' src']. reflexivity.
Qed.

Lemma run_treeState (evs : list Scene.Event) :
  forall (st : Scene.State) (src : RandomSource),
    App.treeState (Scene.app (fst (Scene.run createObjectURL evs st src))) =
    Nat.iter (Cover.toggles evs)
      (fun t => if TreeState_eqb t CHAOS then FORMED else CHAOS)
      (App.treeState (Scene.app st)).
Proof.
  induction evs as [|ev evs IH]; intros st src; [reflexivity|].
  simpl Scene.run. unfold bind.
  pose proof (step_app createObjectURL ev st src) as Happ.
  destruct (Scene.step createObjectURL ev st src) as [st' src'].
  simpl in Happ. rewrite IH, Happ.
  destruct ev; unfold Cover.toggles; simpl List.filter; simpl length; fold (Cover.toggles evs).
  - rewrite Nat.iter_succ_r. reflexivity.
  - reflexivity.
  - simpl Scene.handle. f_equal. unfold App.handlePhotoUpload.
    destruct files as [fs|]; [|reflexivity].
    repeat match goal with |- context [if ?c then _ else _] => destruct c end;
      reflexivity.
  - simpl Scene.handle. f_equal. unfold App.handleNextPhoto.
    destruct (_ =? 0)%Z; reflexivity.
  - simpl Scene.handle. f_equal. unfold App.handlePrevPhoto.
    destruct (_ =? 0)%Z; reflexivity.
Qed.

End Reachable.

(** X16. After the first render and any sequence of events, under a random
    source with values in [0, 1), the slideshow offset is an index of the
    photo list: it is at least 0 and below the length of the list, through
    uploads of lists of any length and any number of next and previous. *)
Theorem photoOffset_is_an_index
    (createObjectURL : App.File -> string)
    (evs : list Scene.Event) (src : JS.RandomSource) :
  JS.in_unit src ->
  let booted := Scene.mount src in
  let st := fst (Scene.run createObjectURL evs (fst booted) (snd booted)) in
  (0 <= App.photoOffset (Scene.app st)
   < Z.of_nat (length (App.userPhotos (Scene.app st))))%Z.
Proof.
  intros Hsrc booted st.
  destruct (reachable_ready createObjectURL evs src Hsrc) as [(_ & Hoff & _) _].
  exact Hoff.
Qed.

Lemma photoOffset_is_an_index_witness :
  let createObjectURL := fun f : App.File => ("blob:" ++ App.name f)%string in
  let evs := [Scene.PrevPhoto;
              Scene.Upload (Some [App.mkFile "a.png" "image/png"]);
              Scene.NextPhoto] in
  let booted := Scene.mount Examples.halves in
  let st := fst (Scene.run createObjectURL evs (fst booted) (snd booted)) in
  (0 <= App.photoOffset (Scene.app st)
   < Z.of_nat (length (App.userPhotos (Scene.app st))))%Z.
Proof.
  intros createObjectURL evs.
  apply (photoOffset_is_an_index createObjectURL evs Examples.halves).
  intros k. unfold Examples.halves. lra.
Defined.

(** X17. After any sequence of events the flag [isProcessing] is false: the
    upload handler sets it and clears it in one go, so that no render sees
    it set.  The upload button of the overlay is therefore never disabled
    and never shows its processing label. *)
Theorem upload_button_never_processing
    (createObjectURL : App.File -> string)
    (evs : list Scene.Event) (src : JS.RandomSource) :
  JS.in_unit src ->
  let booted := Scene.mount src in
  let st := fst (Scene.run createObjectURL evs (fst booted) (snd booted)) in
  App.isProcessing (Scene.app st) = false /\
  Overlay.uploadDisabled (App.isProcessing (Scene.app st)) = false /\
  Overlay.uploadLabel (App.isProcessing (Scene.app st)) = "Change Photos"%string.
Proof.
  intros Hsrc booted st.
  destruct (reachable_ready createObjectURL evs src Hsrc) as [(_ & _ & Hproc & _) _].
  fold booted in Hproc. fold st in Hproc. rewrite Hproc. repeat split.
Qed.

Lemma upload_button_never_processing_witness :
  let createObjectURL := fun f : App.File => ("blob:" ++ App.name f)%string in
  let evs := [Scene.Upload (Some [App.mkFile "a.png" "image/png"]); Scene.Toggle] in
  let booted := Scene.mount Examples.halves in
  let st := fst (Scene.run createObjectURL evs (fst booted) (snd booted)) in
  App.isProcessing (Scene.app st) = false /\
  Overlay.uploadDisabled (App.isProcessing (Scene.app st)) = false /\
  Overlay.uploadLabel (App.isProcessing (Scene.app st)) = "Change Photos"%string.
Proof.
  intros createObjectURL evs.
  apply (upload_button_never_processing createObjectURL evs Examples.halves).
  intros k. unfold Examples.halves. lra.
Defined.

(** X18. The render that follows any event of the running application
    returns twelve photo items, numbered from 0 in order and all in the mode
    of the application; exactly one of them is featured; and every item has
    a URL, which is a photo of the current list. *)
Theorem render_twelve_items_one_featured
    (createObjectURL : App.File -> string)
    (evs : list Scene.Event) (ev : Scene.Event) (src : JS.RandomSource) :
  JS.in_unit src ->
  let booted := Scene.mount src in
  let before := Scene.run createObjectURL evs (fst booted) (snd booted) in
  let a := Scene.handle createObjectURL ev (Scene.app (fst before)) in
  exists (elements : list Photos.PhotoItemProps) (k : nat),
    snd (fst (Scene.renderApp a (Scene.photos (fst before)) (snd before))) = Some elements /\
    length elements = 12%nat /\
    (k < 12)%nat /\
    forall (i : nat) (item : Photos.PhotoItemProps),
      elements !! i = Some item ->
      Photos.index item = Z.of_nat i /\
      Photos.isFormed item = Experience.isFormed (App.treeState a) /\
      (Photos.isFeatured item = true <-> i = k) /\
      exists u : string, Photos.url item = Some u /\ In u (App.userPhotos a).
Proof.
  intros Hsrc booted before a.
  destruct (reachable_ready createObjectURL evs src Hsrc) as [Hready Hsrc'].
  fold booted in Hready, Hsrc'. fold before in Hready, Hsrc'.
  destruct Hready as (Hset & Hoff & Hproc & Hdata).
  destruct Hset as (Hne & h & Hh & _ & Hidx).
  assert (Hne' : App.userPhotos a <> []) by now apply handle_userPhotos_nonempty.
  destruct (handle_ready_app createObjectURL ev _ Hne Hoff Hproc) as [Hoff' _].
  fold a in Hoff'.
  rewrite Hh, renderApp_elements by exact Hne'.
  set (h' := fst (Photos.useEffect (Experience.isFormed (App.treeState a)) h (snd before))).
  assert (Hidx' : (0 <= Photos.featuredIndex h' < Photos.totalCount)%Z)
    by now apply useEffect_index.
  assert (Hdata' : length (Photos.photoData h') = 12%nat).
  { unfold h'. rewrite useEffect_photoData. now apply Hdata. }
  exists (Photos.render (Experience.isFormed (App.treeState a)) (App.userPhotos a)
            (App.photoOffset a) h'), (Z.to_nat (Photos.featuredIndex h')).
  split; [reflexivity|].
  unfold Photos.render. rewrite length_imap.
  split; [exact Hdata'|].
  split; [unfold Photos.totalCount in Hidx'; lia|].
  intros i item Hi. rewrite list_lookup_imap in Hi.
  destruct (Photos.photoData h' !! i) as [d|]; [|discriminate].
  injection Hi as <-. cbn [Photos.index Photos.isFormed Photos.isFeatured Photos.url].
  split; [reflexivity|]. split; [reflexivity|]. split.
  - rewrite Z.eqb_eq. lia.
  - apply getUrl_defined; [exact Hne' | lia | lia].
Qed.

Lemma render_twelve_items_one_featured_witness :
  let createObjectURL := fun f : App.File => ("blob:" ++ App.name f)%string in
  let evs := [Scene.Toggle; Scene.NextPhoto] in
  let booted := Scene.mount Examples.halves in
  let before := Scene.run createObjectURL evs (fst booted) (snd booted) in
  let a := Scene.handle createObjectURL Scene.PrevPhoto (Scene.app (fst before)) in
  exists (elements : list Photos.PhotoItemProps) (k : nat),
    snd (fst (Scene.renderApp a (Scene.photos (fst before)) (snd before))) = Some elements /\
    length elements = 12%nat /\
    (k < 12)%nat /\
    forall (i : nat) (item : Photos.PhotoItemProps),
      elements !! i = Some item ->
      Photos.index item = Z.of_nat i /\
      Photos.isFormed item = Experience.isFormed (App.treeState a) /\
      (Photos.isFeatured item = true <-> i = k) /\
      exists u : string, Photos.url item = Some u /\ In u (App.userPhotos a).
Proof.
  intros createObjectURL evs.
  apply (render_twelve_items_one_featured createObjectURL evs Scene.PrevPhoto Examples.halves).
  intros k. unfold Examples.halves. lra.
Defined.

(** X19. In the running application the featured index changes on no
    event other than one that takes the mode from FORMED to CHAOS: it is
    kept by the snow toggle, by uploads, by next and previous, and by the
    toggle back to FORMED. *)
Theorem featuredIndex_kept_otherwise
    (createObjectURL : App.File -> string)
    (evs : list Scene.Event) (ev : Scene.Event) (src : JS.RandomSource) :
  JS.in_unit src ->
  let booted := Scene.mount src in
  let before := Scene.run createObjectURL evs (fst booted) (snd booted) in
  let after := Scene.step createObjectURL ev (fst before) (snd before) in
  ~ (App.treeState (Scene.app (fst before)) = Types.FORMED /\
     App.treeState (Scene.app (fst after)) = Types.CHAOS) ->
  exists h h' : Photos.Hooks,
    Scene.photos (fst before) = Some h /\
    Scene.photos (fst after) = Some h' /\
    Photos.featuredIndex h' = Photos.featuredIndex h.
Proof.
  intros Hsrc booted before after Hnot.
  destruct (reachable_ready createObjectURL evs src Hsrc) as [Hready _].
  fold booted in Hready. fold before in Hready.
  destruct Hready as ((Hne & h & Hh & Hdeps & _) & _).
  subst after. rewrite step_app in Hnot.
  exists h. eexists. split; [exact Hh|].
  rewrite step_photos, Hh, renderApp_hooks by now apply handle_userPhotos_nonempty.
  split; [reflexivity|].
  unfold Photos.useEffect. rewrite Hdeps.
  destruct (App.treeState (Scene.app (fst before))),
           (App.treeState (Scene.handle createObjectURL ev (Scene.app (fst before))));
    simpl; try reflexivity.
  exfalso. apply Hnot. split; reflexivity.
Qed.

Lemma featuredIndex_kept_otherwise_witness :
  let createObjectURL := fun f : App.File => ("blob:" ++ App.name f)%string in
  let evs := [Scene.Toggle] in
  let booted := Scene.mount Examples.halves in
  let before := Scene.run createObjectURL evs (fst booted) (snd booted) in
  let after := Scene.step createObjectURL Scene.NextPhoto (fst before) (snd before) in
  exists h h' : Photos.Hooks,
    Scene.photos (fst before) = Some h /\
    Scene.photos (fst after) = Some h' /\
    Photos.featuredIndex h' = Photos.featuredIndex h.
Proof.
  intros createObjectURL evs.
  apply (featuredIndex_kept_otherwise createObjectURL evs Scene.NextPhoto Examples.halves).
  - intros k. unfold Examples.halves. lra.
  - intros [H _]. discriminate H.
Defined.

(** X20. After any sequence of events the mode is FORMED exactly when the
    number of toggles among them is even, whatever the other events; the
    toggle button then offers the other mode. *)
Theorem mode_is_parity_of_toggles
    (createObjectURL : App.File -> string)
    (evs : list Scene.Event) (src : JS.RandomSource) :
  let booted := Scene.mount src in
  let st := fst (Scene.run createObjectURL evs (fst booted) (snd booted)) in
  App.treeState (Scene.app st)
    = (if Nat.even (Cover.toggles evs) then Types.FORMED else Types.CHAOS) /\
  Overlay.toggleLabel (App.treeState (Scene.app st))
    = (if Nat.even (Cover.toggles evs) then "Unleash Chaos" else "Assemble Tree")%string.
Proof.
  intros booted st.
  assert (H : App.treeState (Scene.app st)
              = if Nat.even (Cover.toggles evs) then Types.FORMED else Types.CHAOS).
  { subst st. rewrite run_treeState. subst booted. rewrite mount_app.
    change (App.treeState App.init) with Types.FORMED.
    induction (Cover.toggles evs) as [|n IH]; [reflexivity|].
    rewrite Nat.iter_succ, IH, Nat.even_succ, <- Nat.negb_even.
    destruct (Nat.even n); reflexivity. }
  rewrite H. split; [reflexivity|].
  destruct (Nat.even (Cover.toggles evs)); reflexivity.
Qed.

(** ** The snow *)

(** Rewrites the lookups in updated arrays. *)
Ltac lookup_insert :=
  repeat first
    [ rewrite list_lookup_insert_eq by (rewrite ?length_insert; lia)
    | rewrite list_lookup_insert_ne by lia ].

Section SnowProperties.
Import JS THREE.

Lemma readVec_is_Some (arr : list R) (i : nat) :
  (i * 3 + 2 < length arr)%nat ->
  exists x y z : R,
    arr !! (i * 3)%nat = Some x /\ arr !! (i * 3 + 1)%nat = Some y /\
    arr !! (i * 3 + 2)%nat = Some z /\
    Spec.readVec arr i = Some (mkVector3 x y z).
Proof.
  intros Hlen.
  destruct (lookup_lt_is_Some_2 arr (i * 3)) as [x Hx]; [lia|].
  destruct (lookup_lt_is_Some_2 arr (i * 3 + 1)) as [y Hy]; [lia|].
  destruct (lookup_lt_is_Some_2 arr (i * 3 + 2)) as [z Hz]; [lia|].
  exists x, y, z. unfold Spec.readVec. rewrite Hx, Hy, Hz. repeat split.
Qed.

Lemma readVec_insert_ne (arr : list R) (i j k : nat) (v : R) :
  i <> j -> (k < 3)%nat ->
  Spec.readVec (<[(j * 3 + k)%nat := v]> arr) i = Spec.readVec arr i.
Proof.
  intros Hne Hk. unfold Spec.readVec. lookup_insert. reflexivity.
Qed.

Lemma readVec_insert_ne0 (arr : list R) (i j : nat) (v : R) :
  i <> j -> Spec.readVec (<[(j * 3)%nat := v]> arr) i = Spec.readVec arr i.
Proof.
  intros Hne. unfold Spec.readVec. lookup_insert. reflexivity.
Qed.

Lemma advances_genFlake (fr : Float32.Rounding) (i : nat) (p : Snow.Particles) :
  advances (Snow.genFlake fr i p).
Proof. unfold Snow.genFlake. advances. Qed.

Lemma advances_fallFlake (fr : Float32.Rounding) (t : R) (p : Snow.Particles) (i : nat)
    (positions : list R) :
  advances (Snow.fallFlake fr t p i positions).
Proof.
  unfold Snow.fallFlake.
  destruct (positions !! (i * 3 + 1)%nat), (Snow.speeds p !! i),
           (positions !! (i * 3)%nat), (Snow.wiggles p !! i);
    try apply advances_ret.
  destruct (_ !! _); [|apply advances_ret].
  destruct (Rlt_dec _ _); advances.
Qed.

Lemma genFlake_generated (fr : Float32.Rounding) (count i : nat) (p : Snow.Particles)
    (src : RandomSource) :
  (i < count)%nat -> in_unit src -> Cover.snow_generated fr count i p ->
  Cover.snow_generated fr count (S i) (fst (Snow.genFlake fr i p src)).
Proof.
  intros Hi Hsrc ((Hlp & Hls & Hlw) & Hgood).
  unfold Snow.genFlake, Float32.store, bind, random, ret. cbn [fst snd].
  unfold Cover.snow_generated, Cover.snow_arrays.
  cbn [Snow.positions Snow.speeds Snow.wiggles].
  rewrite !length_insert.
  split; [repeat split; assumption|].
  intros j Hj. unfold Cover.flake_generated.
  cbn [Snow.positions Snow.speeds Snow.wiggles].
  destruct (Nat.eq_dec j i) as [->|Hne].
  - unfold Spec.readVec. lookup_insert.
    pose proof (Hsrc 0%nat). pose proof (Hsrc 1%nat). pose proof (Hsrc 2%nat).
    pose proof (Hsrc 3%nat). pose proof (Hsrc 4%nat). pose proof PI_RGT_0.
    eexists _, _, _. split; [reflexivity|]. split; [reflexivity|].
    split; [reflexivity|]. cbn [vx vy vz].
    split; [apply (fround_between fr (-25) 25); simpl; try lia; lra|].
    split; [apply (fround_between fr 0 40); simpl; try lia; lra|].
    split; [apply (fround_between fr (-25) 25); simpl; try lia; lra|].
    split; [split; apply Float32.fround_monotone; lra|].
    split; [apply fround_nonneg; lra|].
    split; [apply fround_nonneg; nra | apply Float32.fround_monotone; nra].
  - rewrite (readVec_insert_ne _ j i 2) by (congruence || lia).
    rewrite (readVec_insert_ne _ j i 1) by (congruence || lia).
    rewrite readVec_insert_ne0 by congruence.
    rewrite !list_lookup_insert_ne by congruence.
    apply Hgood. lia.
Qed.

(** One turn of the loop of a frame. *)
Lemma fallFlake_fallen (fr : Float32.Rounding) (count : nat) (t : R) (p : Snow.Particles)
    (before : list R) (i : nat) (positions : list R) (src : RandomSource) :
  (i < count)%nat -> in_unit src ->
  length (Snow.speeds p) = count -> length (Snow.wiggles p) = count ->
  Cover.snow_fallen fr count t p before i positions ->
  Cover.snow_fallen fr count t p before (S i) (fst (Snow.fallFlake fr t p i positions src)).
Proof.
  intros Hi Hsrc Hls Hlw [Hlen Hfl].
  destruct (readVec_is_Some positions i) as (x & y & z & Hx & Hy & Hz & Hp); [lia|].
  destruct (lookup_lt_is_Some_2 (Snow.speeds p) i) as [s Hs]; [lia|].
  destruct (lookup_lt_is_Some_2 (Snow.wiggles p) i) as [w Hw]; [lia|].
  pose proof (Hfl i Hi) as Hself. rewrite Nat.ltb_irrefl in Hself.
  rewrite Hp in Hself.
  unfold Snow.fallFlake, Float32.store. rewrite Hy, Hs, Hx, Hw.
  assert (Hothers : forall (after : list R),
            length after = (count * 3)%nat ->
            (forall j, j <> i -> Spec.readVec after j = Spec.readVec positions j) ->
            (exists pos', Spec.readVec after i = Some pos' /\
                          Cover.flake_fell fr t s w (mkVector3 x y z) pos') ->
            Cover.snow_fallen fr count t p before (S i) after).
  { intros after Hla Hne (pos' & Hpos' & Hfell). split; [exact Hla|].
    intros j Hj. destruct (Nat.eq_dec j i) as [->|Hji].
    - replace (i <? S i)%nat with true by (symmetry; apply Nat.ltb_lt; lia).
      exists (mkVector3 x y z), pos', s, w. repeat split; auto.
    - rewrite (Hne j Hji). pose proof (Hfl j Hj) as Hjj.
      destruct (j <? i)%nat eqn:E1; destruct (j <? S i)%nat eqn:E2; try exact Hjj.
      + apply Nat.ltb_lt in E1. apply Nat.ltb_ge in E2. lia.
      + apply Nat.ltb_ge in E1. apply Nat.ltb_lt in E2. lia. }
  (* the height read back is the height stored *)
  rewrite list_lookup_insert_ne by lia.
  rewrite list_lookup_insert_eq by lia.
  destruct (Rlt_dec (Float32.fround fr (y - s)) (-5)) as [Hlow|Hok].
  - unfold bind, random, ret. cbn [fst snd].
    apply Hothers.
    + now rewrite !length_insert.
    + intros j Hji.
      rewrite (readVec_insert_ne _ j i 2) by (congruence || lia).
      rewrite readVec_insert_ne0 by congruence.
      rewrite (readVec_insert_ne _ j i 1) by (congruence || lia).
      rewrite readVec_insert_ne0 by congruence.
      rewrite (readVec_insert_ne _ j i 1) by (congruence || lia).
      reflexivity.
    + unfold Spec.readVec. lookup_insert.
      eexists. split; [reflexivity|]. right. cbn [vx vy vz].
      pose proof (Hsrc 0%nat). pose proof (Hsrc 1%nat).
      split; [exact Hlow|].
      split; [apply (Float32.fround_integer fr 30); simpl; lia|].
      split; apply (fround_between fr (-25) 25); simpl; try lia; lra.
  - unfold ret. cbn [fst].
    apply Hothers.
    + now rewrite !length_insert.
    + intros j Hji.
      rewrite readVec_insert_ne0 by congruence.
      rewrite (readVec_insert_ne _ j i 1) by (congruence || lia).
      reflexivity.
    + unfold Spec.readVec. lookup_insert. rewrite Hz.
      eexists. split; [reflexivity|]. left. cbn [vx vy vz].
      split; [lra | reflexivity].
Qed.

(** The loop of a frame, over arrays of the right lengths. *)
Lemma frame_fallen (fr : Float32.Rounding) (count : nat) (t : R) (p : Snow.Particles)
    (src : RandomSource) :
  in_unit src -> Cover.snow_arrays count p ->
  Cover.snow_fallen fr count t p (Snow.positions p) count
    (fst (for_range count (Snow.fallFlake fr t p) (Snow.positions p) src)).
Proof.
  intros Hsrc (Hlp & Hls & Hlw).
  apply (for_range_invariant (Snow.fallFlake fr t p)
           (Cover.snow_fallen fr count t p (Snow.positions p))).
  - intros. apply advances_fallFlake.
  - intros i s src0 Hi Hsrc0 Hinv. now apply (fallFlake_fallen fr count).
  - exact Hsrc.
  - split; [exact Hlp|]. intros i Hi. reflexivity.
Qed.

Lemma advances_useFrame (fr : Float32.Rounding) (count : nat) (t : R) (st : Snow.State) :
  advances (Snow.useFrame fr count t st).
Proof.
  unfold Snow.useFrame. destruct (Snow.mesh st); [|apply advances_ret].
  apply advances_bind; [|intros; apply advances_ret].
  apply advances_for_range. intros. apply advances_fallFlake.
Qed.

Lemma useFrame_in_box (fr : Float32.Rounding) (count : nat) (t : R) (st : Snow.State)
    (src : RandomSource) :
  in_unit src -> Cover.snow_in_box count (Snow.particles st) ->
  Cover.snow_in_box count (Snow.particles (fst (Snow.useFrame fr count t st src))).
Proof.
  intros Hsrc Hbox. unfold Snow.useFrame.
  destruct (Snow.mesh st); [|exact Hbox].
  destruct Hbox as [Harr Hbox].
  pose proof (frame_fallen fr count t (Snow.particles st) src Hsrc Harr) as [Hlen Hfl].
  unfold bind.
  destruct (for_range count _ _ src) as [positions' src']. cbn [fst snd] in *.
  unfold ret. cbn [fst Snow.particles].
  destruct Harr as (Hlp & Hls & Hlw).
  split; [repeat split; assumption|].
  intros i Hi. cbn [Snow.positions Snow.speeds].
  pose proof (Hfl i Hi) as Hi'.
  replace (i <? count)%nat with true in Hi' by (symmetry; apply Nat.ltb_lt; lia).
  destruct Hi' as (pos & pos' & s & w & Hpos & Hs & Hw & Hpos' & Hfell).
  destruct (Hbox i Hi) as (pos0 & s0 & Hpos0 & Hs0 & Hs0pos & Hy & Hz).
  rewrite Hpos in Hpos0. injection Hpos0 as <-.
  rewrite Hs in Hs0. injection Hs0 as <-.
  exists pos', s. split; [exact Hpos'|]. split; [exact Hs|]. split; [exact Hs0pos|].
  destruct Hfell as [[Hok ->]|(Hlow & Hy' & Hx' & Hz')]; cbn [vy vz]; [|lra].
  split; [|lra]. split; [exact Hok|].
  (* the height stored is the rounding of a number that is at most 40 *)
  rewrite <- (Float32.fround_integer fr 40) by (simpl; lia).
  apply Float32.fround_monotone. lra.
Qed.

Lemma genParticles_generated (fr : Float32.Rounding) (count : nat) (src : RandomSource) :
  in_unit src -> Cover.snow_generated fr count count (fst (Snow.genParticles fr count src)).
Proof.
  intros Hsrc. unfold Snow.genParticles.
  apply (for_range_invariant (Snow.genFlake fr) (Cover.snow_generated fr count)).
  - apply advances_genFlake.
  - intros. now apply genFlake_generated.
  - exact Hsrc.
  - split; [|intros i Hi; lia].
    unfold Cover.snow_arrays. simpl. rewrite !length_replicate. repeat split.
Qed.

End SnowProperties.

(** X21. Under a random source with values in [0, 1), the generated snow
    has arrays of the lengths it was allocated with, and every flake starts
    in the closed box [-25, 25] x [0, 40] x [-25, 25], with a falling speed
    that is not negative and lies between the roundings of 0.05 and of
    0.15, and a wiggle phase between 0 and the rounding of 2 pi.  This
    holds for every rounding of the stores that is monotone and keeps the
    small integers; the bounds 25 and 40, which no number drawn yields
    exactly, are met by the numbers stored when a store rounds up. *)
Theorem snow_generated_in_box
    (fr : Float32.Rounding) (count : nat) (src : JS.RandomSource) :
  JS.in_unit src ->
  let p := fst (Snow.genParticles fr count src) in
  Cover.snow_arrays count p /\
  forall i : nat, (i < count)%nat -> Cover.flake_generated fr p i.
Proof. exact (genParticles_generated fr count src). Qed.

Lemma snow_generated_in_box_witness :
  let p := fst (Snow.genParticles Examples.eighths 3 Examples.halves) in
  Cover.snow_arrays 3 p /\
  forall i : nat, (i < 3)%nat -> Cover.flake_generated Examples.eighths p i.
Proof.
  apply (snow_generated_in_box Examples.eighths 3 Examples.halves).
  intros k. unfold Examples.halves. lra.
Defined.

(** X22. On a frame with the points mounted, every flake falls by its own
    speed and drifts along x by [sin (elapsedTime + wiggle) * 0.02], both
    coordinates rounded as the array stores them, its z unchanged; a flake
    whose stored height is then below -5 is instead put back at the height
    30 with new x and z in [-25, 25].  The test is on the height read back
    from the array: a fall to just below -5 that the store rounds to -5
    leaves the flake at -5.  The speeds and the wiggle phases are not
    changed, and the position attribute is marked for update.  With the
    points not mounted the frame does nothing and draws no random number. *)
Theorem snow_frame_moves_every_flake
    (fr : Float32.Rounding) (count : nat) (elapsedTime : R) (st : Snow.State)
    (src : JS.RandomSource) :
  JS.in_unit src ->
  Cover.snow_arrays count (Snow.particles st) ->
  let st' := fst (Snow.useFrame fr count elapsedTime st src) in
  (Snow.mesh st = None -> Snow.useFrame fr count elapsedTime st src = (st, src)) /\
  (Snow.mesh st <> None ->
     Snow.mesh st' = Some true /\
     Snow.speeds (Snow.particles st') = Snow.speeds (Snow.particles st) /\
     Snow.wiggles (Snow.particles st') = Snow.wiggles (Snow.particles st) /\
     length (Snow.positions (Snow.particles st')) = (count * 3)%nat /\
     forall i : nat, (i < count)%nat ->
       exists (pos pos' : THREE.Vector3) (speed wiggle : R),
         Spec.readVec (Snow.positions (Snow.particles st)) i = Some pos /\
         Snow.speeds (Snow.particles st) !! i = Some speed /\
         Snow.wiggles (Snow.particles st) !! i = Some wiggle /\
         Spec.readVec (Snow.positions (Snow.particles st')) i = Some pos' /\
         Cover.flake_fell fr elapsedTime speed wiggle pos pos').
Proof.
  intros Hsrc Harr st'. subst st'. unfold Snow.useFrame.
  destruct (Snow.mesh st) as [b|].
  - split; [discriminate|]. intros _.
    pose proof (frame_fallen fr count elapsedTime (Snow.particles st) src Hsrc Harr)
      as [Hlen Hfl].
    unfold JS.bind.
    destruct (JS.for_range count _ _ src) as [positions' src']. cbn [fst snd] in *.
    unfold JS.ret. cbn [fst Snow.particles Snow.mesh Snow.speeds Snow.wiggles Snow.positions].
    repeat (split; [reflexivity || assumption|]).
    intros i Hi. pose proof (Hfl i Hi) as Hi'.
    replace (i <? count)%nat with true in Hi' by (symmetry; apply Nat.ltb_lt; lia).
    exact Hi'.
  - split; [reflexivity | congruence].
Qed.

Lemma snow_frame_moves_every_flake_witness :
  let fr := Examples.eighths in
  let st := Snow.mkState (fst (Snow.genParticles fr 2 Examples.halves)) (Some false) in
  let st' := fst (Snow.useFrame fr 2 1 st Examples.halves) in
  Snow.mesh st' = Some true /\
  Snow.speeds (Snow.particles st') = Snow.speeds (Snow.particles st) /\
  Snow.wiggles (Snow.particles st') = Snow.wiggles (Snow.particles st) /\
  length (Snow.positions (Snow.particles st')) = (2 * 3)%nat /\
  forall i : nat, (i < 2)%nat ->
    exists (pos pos' : THREE.Vector3) (speed wiggle : R),
      Spec.readVec (Snow.positions (Snow.particles st)) i = Some pos /\
      Snow.speeds (Snow.particles st) !! i = Some speed /\
      Snow.wiggles (Snow.particles st) !! i = Some wiggle /\
      Spec.readVec (Snow.positions (Snow.particles st')) i = Some pos' /\
      Cover.flake_fell fr 1 speed wiggle pos pos'.
Proof.
  intros fr st st'.
  assert (H : JS.in_unit Examples.halves) by (intros k; unfold Examples.halves; lra).
  apply (proj2 (snow_frame_moves_every_flake fr 2 1 st Examples.halves H
                  (proj1 (genParticles_generated fr 2 Examples.halves H)))).
  discriminate.
Defined.

Section SnowSession.
Import JS THREE.

Lemma generated_in_box (fr : Float32.Rounding) (count : nat) (p : Snow.Particles) :
  Cover.snow_generated fr count count p -> Cover.snow_in_box count p.
Proof.
  intros [Harr Hgen]. split; [exact Harr|].
  intros i Hi.
  destruct (Hgen i Hi) as (pos & s & w & Hpos & Hs & _ & _ & Hy & Hz & _ & Hsp & _).
  exists pos, s. repeat split; try assumption; lra.
Qed.

Lemma frames_in_box (fr : Float32.Rounding) (count : nat) (times : list R) :
  forall (st : Snow.State) (src : RandomSource),
    in_unit src -> Cover.snow_in_box count (Snow.particles st) ->
    Cover.snow_in_box count (Snow.particles (fst (Snow.frames fr count times st src))).
Proof.
  induction times as [|t times IH]; intros st src Hsrc Hbox; [exact Hbox|].
  simpl Snow.frames. unfold bind.
  pose proof (useFrame_in_box fr count t st src Hsrc Hbox) as Hbox'.
  pose proof (advances_in_unit _ src (advances_useFrame fr count t st) Hsrc) as Hsrc'.
  destruct (Snow.useFrame fr count t st src) as [st' src'].
  now apply IH.
Qed.

End SnowSession.

(** X23. Snow whose flakes are at heights in [-5, 40] and at z in
    [-25, 25], with speeds that are not negative (as the generated snow is),
    stays so over every session, whatever the rounding of the stores: no
    flake is ever below -5 or above 40 after a frame, nor outside
    [-25, 25] along z.  Nothing bounds x, which drifts between two
    respawns. *)
Theorem snow_stays_in_box
    (fr : Float32.Rounding) (count : nat) (times : list R) (st : Snow.State)
    (src : JS.RandomSource) :
  JS.in_unit src ->
  Cover.snow_in_box count (Snow.particles st) ->
  Cover.snow_in_box count (Snow.particles (fst (Snow.frames fr count times st src))).
Proof. intros Hsrc Hbox. now apply frames_in_box. Qed.

Lemma snow_stays_in_box_witness :
  let fr := Float32.exact in
  let st := Snow.mkState (fst (Snow.genParticles fr 2 Examples.halves)) (Some false) in
  Cover.snow_in_box 2
    (Snow.particles (fst (Snow.frames fr 2 [0; 1 / 60; 2 / 60] st Examples.halves))).
Proof.
  intros fr st.
  assert (H : JS.in_unit Examples.halves) by (intros k; unfold Examples.halves; lra).
  apply (snow_stays_in_box fr 2 [0; 1 / 60; 2 / 60] st Examples.halves H).
  apply (generated_in_box fr). now apply genParticles_generated.
Defined.

(** ** The star *)

Section Star.
Import THREE LuckyStar.

Lemma useFrame_mounted (isFormed : bool) (elapsedTime delta : R) (st : State) (mesh : Object3D) :
  meshRef st = Some mesh ->
  exists mesh' : Object3D,
    meshRef (useFrame isFormed elapsedTime delta st) = Some mesh' /\
    vx (position mesh') = (1 - delta * 2.0) * vx (position mesh) /\
    vz (position mesh') = (1 - delta * 2.0) * vz (position mesh) /\
    vy (position mesh') - Cover.starHeight isFormed =
      (1 - delta * 2.0) * (vy (position mesh) - Cover.starHeight isFormed)
      + (if isFormed then sin (elapsedTime * 2) * 0.005 else 0) /\
    scale mesh' =
      (let pulse := if isFormed then 1.0 + sin (elapsedTime * 3) * 0.05
                    else 1.5 + sin (elapsedTime * 10) * 0.2 in
       mkVector3 pulse pulse pulse) /\
    pointLightRef (useFrame isFormed elapsedTime delta st) =
      match pointLightRef st with
      | Some _ => Some (mkPointLight (if isFormed then 60 + sin (elapsedTime * 4) * 20 else 300)
                                     (if isFormed then 20 else 60))
      | None => None
      end.
Proof.
  intros Hm. unfold useFrame. rewrite Hm.
  destruct isFormed; cbv zeta; eexists; (split; [reflexivity|]);
    unfold Cover.starHeight, Types.CONFIG.treeHeight, Vec.lerp, Vec.set_y, Vec.setScalar;
    cbn [position scale vx vy vz];
    repeat split; unfold Rdiv; ring.
Qed.

End Star.

(** X24. On a frame, a mounted star moves towards the axis of the tree and
    towards the height of the mode (the top of the tree plus one half, 14.5,
    in FORMED; 5 in CHAOS): its x, its z and the offset of its height are
    multiplied by [1 - delta * 2], and in FORMED a bobbing term of magnitude
    at most 0.005 is added to the height.  A star on the axis stays on the
    axis.  A star that is not mounted is left as it is, with its light. *)
Theorem star_moves_towards_its_height
    (isFormed : bool) (elapsedTime delta : R) (st : LuckyStar.State) :
  let st' := LuckyStar.useFrame isFormed elapsedTime delta st in
  (LuckyStar.meshRef st = None -> st' = st) /\
  (forall mesh : THREE.Object3D,
     LuckyStar.meshRef st = Some mesh ->
     exists (mesh' : THREE.Object3D) (bob : R),
       LuckyStar.meshRef st' = Some mesh' /\
       THREE.vx (THREE.position mesh') = (1 - delta * 2) * THREE.vx (THREE.position mesh) /\
       THREE.vz (THREE.position mesh') = (1 - delta * 2) * THREE.vz (THREE.position mesh) /\
       THREE.vy (THREE.position mesh') - Cover.starHeight isFormed =
         (1 - delta * 2) * (THREE.vy (THREE.position mesh) - Cover.starHeight isFormed) + bob /\
       Rabs bob <= 0.005 /\ (isFormed = false -> bob = 0) /\
       (Cover.star_on_axis st -> Cover.star_on_axis st')).
Proof.
  intros st'. split.
  - intros Hm. subst st'. unfold LuckyStar.useFrame. now rewrite Hm.
  - intros mesh Hm.
    destruct (useFrame_mounted isFormed elapsedTime delta st mesh Hm)
      as (mesh' & Hm' & Hx & Hz & Hy & _).
    exists mesh', (if isFormed then sin (elapsedTime * 2) * 0.005 else 0).
    split; [exact Hm'|].
    split; [rewrite Hx; lra|]. split; [rewrite Hz; lra|].
    split; [rewrite Hy; lra|].
    split.
    { destruct isFormed.
      - pose proof (SIN_bound (elapsedTime * 2)). apply Rabs_le. lra.
      - rewrite Rabs_R0. lra. }
    split; [now intros ->|].
    intros (mesh0 & Hm0 & Hx0 & Hz0).
    rewrite Hm in Hm0. injection Hm0 as <-.
    exists mesh'. split; [exact Hm'|].
    rewrite Hx, Hz, Hx0, Hz0. split; ring.
Qed.

Lemma star_moves_towards_its_height_witness :
  let st := LuckyStar.mkState (Some Examples.object3D) None in
  let st' := LuckyStar.useFrame true 3 (1 / 60) st in
  exists (mesh' : THREE.Object3D) (bob : R),
    LuckyStar.meshRef st' = Some mesh' /\
    THREE.vx (THREE.position mesh') = (1 - 1 / 60 * 2) * THREE.vx (THREE.position Examples.object3D) /\
    THREE.vz (THREE.position mesh') = (1 - 1 / 60 * 2) * THREE.vz (THREE.position Examples.object3D) /\
    THREE.vy (THREE.position mesh') - Cover.starHeight true =
      (1 - 1 / 60 * 2) * (THREE.vy (THREE.position Examples.object3D) - Cover.starHeight true) + bob /\
    Rabs bob <= 0.005 /\ (true = false -> bob = 0) /\
    (Cover.star_on_axis st -> Cover.star_on_axis st').
Proof.
  intros st.
  apply (proj2 (star_moves_towards_its_height true 3 (1 / 60) st) Examples.object3D).
  reflexivity.
Defined.

(** X25. On a frame, a mounted star gets a uniform scale that depends on
    the elapsed time only: within [0.95, 1.05] in FORMED and within
    [1.3, 1.7] in CHAOS.  Its light, when mounted, gets the intensity 300 and
    the distance 60 in CHAOS, and an intensity within [40, 80] with the
    distance 20 in FORMED; a light that is not mounted stays so. *)
Theorem star_pulse_and_light_ranges
    (isFormed : bool) (elapsedTime delta : R) (st : LuckyStar.State)
    (mesh : THREE.Object3D) :
  LuckyStar.meshRef st = Some mesh ->
  let st' := LuckyStar.useFrame isFormed elapsedTime delta st in
  (exists (mesh' : THREE.Object3D) (pulse : R),
     LuckyStar.meshRef st' = Some mesh' /\
     THREE.scale mesh' = THREE.mkVector3 pulse pulse pulse /\
     (isFormed = true -> 0.95 <= pulse <= 1.05) /\
     (isFormed = false -> 1.3 <= pulse <= 1.7)) /\
  (LuckyStar.pointLightRef st = None -> LuckyStar.pointLightRef st' = None) /\
  (LuckyStar.pointLightRef st <> None ->
     exists light : LuckyStar.PointLight,
       LuckyStar.pointLightRef st' = Some light /\
       (isFormed = true ->
          40 <= LuckyStar.intensity light <= 80 /\ LuckyStar.distance light = 20) /\
       (isFormed = false ->
          LuckyStar.intensity light = 300 /\ LuckyStar.distance light = 60)).
Proof.
  intros Hm st'.
  destruct (useFrame_mounted isFormed elapsedTime delta st mesh Hm)
    as (mesh' & Hm' & _ & _ & _ & Hs & Hl).
  fold st' in Hm', Hl. cbv zeta in Hs.
  pose proof (SIN_bound (elapsedTime * 3)). pose proof (SIN_bound (elapsedTime * 10)).
  pose proof (SIN_bound (elapsedTime * 4)).
  split; [|split].
  - eexists mesh', _. split; [exact Hm'|]. split; [exact Hs|].
    split; intros ->; lra.
  - intros Hn. rewrite Hl, Hn. reflexivity.
  - intros Hsome. destruct (LuckyStar.pointLightRef st) as [l|]; [|congruence].
    eexists. split; [exact Hl|]. cbn [LuckyStar.intensity LuckyStar.distance].
    split; intros ->; split; (reflexivity || lra).
Qed.

Lemma star_pulse_and_light_ranges_witness :
  let st := LuckyStar.mkState (Some Examples.object3D) (Some (LuckyStar.mkPointLight 1 0)) in
  let st' := LuckyStar.useFrame false 3 (1 / 60) st in
  (exists (mesh' : THREE.Object3D) (pulse : R),
     LuckyStar.meshRef st' = Some mesh' /\
     THREE.scale mesh' = THREE.mkVector3 pulse pulse pulse /\
     (false = true -> 0.95 <= pulse <= 1.05) /\
     (false = false -> 1.3 <= pulse <= 1.7)) /\
  (LuckyStar.pointLightRef st = None -> LuckyStar.pointLightRef st' = None) /\
  (LuckyStar.pointLightRef st <> None ->
     exists light : LuckyStar.PointLight,
       LuckyStar.pointLightRef st' = Some light /\
       (false = true ->
          40 <= LuckyStar.intensity light <= 80 /\ LuckyStar.distance light = 20) /\
       (false = false ->
          LuckyStar.intensity light = 300 /\ LuckyStar.distance light = 60)).
Proof.
  intros st.
  apply (star_pulse_and_light_ranges false 3 (1 / 60) st Examples.object3D).
  reflexivity.
Defined.

(** X26. The outline of the star has ten vertices, which alternate between
    the distance 1.5 (even indices) and the distance 0.6 (odd indices) from
    the centre, and starts at the top, at (0, 1.5). *)
Theorem star_outline_alternates :
  length LuckyStar.starOutline = 10%nat /\
  LuckyStar.starOutline !! 0%nat = Some (0, 1.5) /\
  forall i : nat, (i < 10)%nat ->
    exists x y : R,
      LuckyStar.starOutline !! i = Some (x, y) /\
      x * x + y * y = Rsqr (if Nat.even i then 1.5 else 0.6).
Proof.
  split; [reflexivity|]. split.
  - unfold LuckyStar.starOutline. simpl. unfold LuckyStar.starPoint. simpl.
    replace (0 / (5 * 2) * PI * 2 + PI / 2) with (PI / 2) by (unfold Rdiv; ring).
    rewrite cos_PI2, sin_PI2. do 2 f_equal; lra.
  - intros i Hi. unfold LuckyStar.starOutline.
    rewrite list_lookup_fmap, lookup_seq_lt by lia. simpl.
    unfold LuckyStar.starPoint.
    eexists _, _. split; [reflexivity|].
    set (a := INR i / (5 * 2) * PI * 2 + PI / 2).
    pose proof (sin2_cos2 a) as H. unfold Rsqr in *.
    assert (Hr : (if Nat.eqb (i mod 2) 0 then 1.5 else 0.6)
                 = (if Nat.even i then 1.5 else 0.6)).
    { do 10 (destruct i as [|i]; [reflexivity|]). lia. }
    rewrite Hr.
    set (r := if Nat.even i then 1.5 else 0.6).
    replace (cos a * r * (cos a * r) + sin a * r * (sin a * r))
      with (r * r * (sin a * sin a + cos a * cos a)) by ring.
    rewrite H. ring.
Qed.

Section StarSession.
Import THREE LuckyStar.

Lemma useFrame_on_axis (isFormed : bool) (elapsedTime delta : R) (st : State) :
  Cover.star_on_axis st -> Cover.star_on_axis (useFrame isFormed elapsedTime delta st).
Proof.
  intros (mesh & Hm & Hx & Hz).
  destruct (useFrame_mounted isFormed elapsedTime delta st mesh Hm)
    as (mesh' & Hm' & Hx' & Hz' & _).
  exists mesh'. split; [exact Hm'|].
  rewrite Hx', Hz', Hx, Hz. split; ring.
Qed.

End StarSession.

(** X27. A mounted star that is on the vertical axis of the tree (x and z
    zero, as a new group is) is mounted and on the axis after every session,
    whatever the modes and the frame times: the frames move it along the
    axis only. *)
Theorem star_stays_on_axis (fs : list TreeParticles.Frame) (st : LuckyStar.State) :
  Cover.star_on_axis st -> Cover.star_on_axis (Session.star fs st).
Proof.
  revert st. induction fs as [|f fs IH]; intros st Hst; [exact Hst|].
  change (Session.star (f :: fs) st)
    with (Session.star fs
            (LuckyStar.useFrame (TreeParticles.isFormed f) (TreeParticles.elapsedTime f)
                                (TreeParticles.delta f) st)).
  apply IH. now apply useFrame_on_axis.
Qed.

Lemma star_stays_on_axis_witness :
  Cover.star_on_axis
    (Session.star [TreeParticles.mkFrame true 0 (1 / 60); TreeParticles.mkFrame false 1 5]
                  (LuckyStar.mkState (Some Examples.object3D) None)).
Proof.
  apply star_stays_on_axis.
  exists Examples.object3D. repeat split.
Defined.

Lemma star_outline_alternates_witness :
  exists x y : R,
    LuckyStar.starOutline !! 3%nat = Some (x, y) /\
    x * x + y * y = Rsqr (if Nat.even 3 then 1.5 else 0.6).
Proof.
  apply (proj2 (proj2 star_outline_alternates) 3%nat). lia.
Defined.
